(** * MEA movie playback and rendering engine: a shallow embedding

    The development follows the TypeScript sources of the figpack
    realtime512 UI:

    - [MEAMovieClient]  (views/MEAMovie/MEAMovieClient.ts): recording
      metadata, frame access, time/index conversion and the spike index;
    - [MEAMovieView]    (views/MEAMovie/MEAMovieView.tsx): the playback
      clock (the [animate] loop and [handlePlayPause]);
    - [MEAMovieCanvas]  (views/MEAMovie/MEAMovieCanvas.tsx): the spike
      overlay tracker, the marker radius, the colour step and the
      asynchronous frame loader.

    Number model.  Counts, sample indices and [Date.now()] timestamps
    (milliseconds) are integers ([Z]).  Every other JavaScript number is
    idealised as a real number ([R]): arithmetic is exact, there is no
    rounding and no overflow.  Where the code divides by a quantity
    computed from the data, or starts from [Infinity], the IEEE special
    values are kept explicit ([JS.jsnum]).  The sampling frequency is
    the one divisor left in [R]; the statements that depend on the
    quotient take it to be positive.

    Where a bound is met with equality in exact arithmetic, the rounding
    of the floating-point operations decides it.  The time and index
    conversions are therefore given twice more: in [Rounded], over the
    reals with an arbitrary rounding applied after each operation, and
    in [Binary64], over the binary64 numbers themselves. *)

From Stdlib Require Import ZArith Reals Lra Lia List Bool.
From Stdlib Require PrimFloat SpecFloat FloatOps Uint63.
From stdpp Require Import base decidable option list strings pretty gmap.

Import ListNotations.

(** Comparisons of real numbers as booleans. *)
#[global] Instance Rlt_decision : RelDecision Rlt := Rlt_dec.
#[global] Instance Rle_decision : RelDecision Rle := Rle_dec.
#[global] Instance Rgt_decision : RelDecision Rgt := Rgt_dec.
#[global] Instance Rge_decision : RelDecision Rge := Rge_dec.
#[global] Instance Req_decision : RelDecision (@eq R) := Req_dec_T.

(** ** JavaScript primitives used by the sources *)
Module JS.

(** [Math.round]: the nearest integer, ties towards +infinity, i.e.
    [floor (x + 0.5)]. *)
Definition Math_round (x : R) : Z := Int_part (x + / 2).

(** A JavaScript number with the IEEE special values.  Finite values
    are exact reals; zero is unsigned and stands for [+0], the only
    zero the renderer's divisor can be ([Math.abs], [Math.max]). *)
Inductive jsnum : Type :=
| Fin (r : R)
| PInf
| NInf
| NaN.

(** The sign of a number as the IEEE rules for products and quotients
    need it. *)
Inductive sign : Type := Neg | Zero | Pos.

Definition sign_of (r : R) : sign :=
  if bool_decide (r < 0)%R then Neg
  else if bool_decide (0 < r)%R then Pos else Zero.

Definition inf_of (s : sign) : jsnum :=
  match s with Neg => NInf | Pos => PInf | Zero => NaN end.

Definition sign_mul (a b : sign) : sign :=
  match a, b with
  | Zero, _ | _, Zero => Zero
  | Pos, Pos | Neg, Neg => Pos
  | Pos, Neg | Neg, Pos => Neg
  end.

Definition jsign (x : jsnum) : option sign :=
  match x with
  | Fin r => Some (sign_of r)
  | PInf => Some Pos
  | NInf => Some Neg
  | NaN => None
  end.

Definition js_neg (x : jsnum) : jsnum :=
  match x with
  | Fin r => Fin (- r)
  | PInf => NInf
  | NInf => PInf
  | NaN => NaN
  end.

Definition js_add (x y : jsnum) : jsnum :=
  match x, y with
  | NaN, _ | _, NaN => NaN
  | Fin a, Fin b => Fin (a + b)
  | PInf, NInf | NInf, PInf => NaN
  | PInf, _ | _, PInf => PInf
  | NInf, _ | _, NInf => NInf
  end.

Definition js_sub (x y : jsnum) : jsnum := js_add x (js_neg y).

Definition js_mul (x y : jsnum) : jsnum :=
  match x, y with
  | Fin a, Fin b => Fin (a * b)
  | _, _ =>
      match jsign x, jsign y with
      | Some s, Some t => inf_of (sign_mul s t)
      | _, _ => NaN
      end
  end.

(** Division: a finite quotient when the divisor is finite and not
    zero; [x / 0] is an infinity of the sign of [x] and [0 / 0] is
    [NaN]; a finite number over an infinity is zero. *)
Definition js_div (x y : jsnum) : jsnum :=
  match x, y with
  | NaN, _ | _, NaN => NaN
  | Fin a, Fin b =>
      if bool_decide (b = 0)%R then inf_of (sign_of a) else Fin (a / b)
  | Fin _, _ => Fin 0
  | _, Fin b =>
      match jsign x with
      | Some s => inf_of (sign_mul s (if bool_decide (b < 0)%R then Neg else Pos))
      | None => NaN
      end
  | _, _ => NaN
  end.

(** [x < y] on JavaScript numbers: false as soon as one side is [NaN]. *)
Definition js_lt (x y : jsnum) : bool :=
  match x, y with
  | NaN, _ | _, NaN => false
  | Fin a, Fin b => bool_decide (a < b)%R
  | NInf, NInf | PInf, _ | _, NInf => false
  | NInf, _ | _, PInf => true
  end.

Definition js_gt (x y : jsnum) : bool := js_lt y x.

(** [Math.max] and [Math.min]: [NaN] as soon as one argument is. *)
Definition Math_max (x y : jsnum) : jsnum :=
  match x, y with
  | NaN, _ | _, NaN => NaN
  | _, _ => if js_lt x y then y else x
  end.

Definition Math_min (x y : jsnum) : jsnum :=
  match x, y with
  | NaN, _ | _, NaN => NaN
  | _, _ => if js_lt y x then y else x
  end.

(** A typed-array or array read: [undefined] ([None]) past the end. *)
Definition read {A} (a : list A) (i : nat) : option A := a !! i.

(** Arithmetic on a value that may be [undefined] yields [NaN]. *)
Definition to_number (x : option R) : jsnum :=
  match x with Some r => Fin r | None => NaN end.

(** [Set.prototype.add] on a set kept in insertion order. *)
Definition set_add `{EqDecision A} (x : A) (s : list A) : list A :=
  if bool_decide (x ∈ s) then s else s ++ [x].

(** [Math.sqrt] and [x ** 2]. *)
Definition Math_sqrt (x : jsnum) : jsnum :=
  match x with
  | Fin r => if bool_decide (r < 0)%R then NaN else Fin (sqrt r)
  | PInf => PInf
  | NInf | NaN => NaN
  end.

Definition js_sqr (x : jsnum) : jsnum := js_mul x x.

End JS.

(** ** The chunked array store (figpack-interface.ts)

    Only what the movie client uses: a group's attributes, its datasets
    by name, and a dataset's [getData] with an optional slice.  The store
    is read-only, so a dataset is the function from a request to the
    values it answers with. *)
Module Zarr.

(** An integer typed array ([Int16Array], [Uint16Array], [Uint32Array]). *)
Definition TypedArray : Type := list Z.

(** [slice?: [number, number][]]: one half-open range per dimension. *)
Record GetDataOptions : Type := mkOptions { slice : option (list (Z * Z)) }.

Record ZarrDataset : Type := mkDataset { getData : GetDataOptions -> TypedArray }.

(** [attrs] is an untyped dictionary in the source and is read through
    unchecked casts; the model keeps the integer-valued and the
    real-valued attributes apart.  A key that is not bound is
    [undefined]. *)
Record ZarrGroup : Type := mkGroup {
  attrsInt : gmap string Z;
  attrsNum : gmap string R;
  getDataset : string -> option ZarrDataset
}.

End Zarr.

(** ** Errors and asynchronous results *)

(** The errors the client throws, one constructor per [new Error(...)]:
    - [NoRawDataDataset]: "No raw_data dataset found";
    - [MissingRequiredAttributes]: "Missing required attributes in zarr
      group";
    - [NoSpikeChannelIndicesDataset]: "No spike_channel_indices dataset
      found";
    - [NoSpikeFrameIndicesDataset]: "No spike_frame_indices dataset
      found";
    - [TimeIndexOutOfRange i n]: "Time index i out of range [0, n)". *)
Inductive Error : Type :=
| NoRawDataDataset
| MissingRequiredAttributes
| NoSpikeChannelIndicesDataset
| NoSpikeFrameIndicesDataset
| TimeIndexOutOfRange (timeIndex numTimepoints : Z).

(** The outcome of an [async] function: the value its promise resolves
    to, or the error it rejects with. *)
Inductive result (A : Type) : Type :=
| Resolved (a : A)
| Rejected (e : Error).
Arguments Resolved {A} a.
Arguments Rejected {A} e.

Definition bind {A B} (r : result A) (k : A -> result B) : result B :=
  match r with
  | Resolved a => k a
  | Rejected e => Rejected e
  end.

Notation "'await' x <- r ; k" := (bind r (fun x => k))
  (at level 10, x name, r at level 100, k at level 200).

(** [if (!dataset) throw new Error(...)] *)
Definition orThrow {A} (x : option A) (e : Error) : result A :=
  match x with
  | Some a => Resolved a
  | None => Rejected e
  end.

(** ** MEAMovieClient *)
Module MEAMovieClient.
Import Zarr.

(** [Map<number, Set<number>>]; keys and elements are typed-array
    reads, hence possibly [undefined]. *)
Abbreviation SpikesByFrame := (gmap (option Z) (list (option Z))).

(** The private fields of the class (the lazily cached electrode
    layout apart, which no operation below reads). *)
Record t : Type := mk {
  zarrGroup : ZarrGroup;
  numTimepoints : Z;
  numChannels : Z;
  samplingFrequencyHz : R;
  startTimeSec : R;
  dataMin : R;
  dataMax : R;
  dataMedian : R;
  rawDataDataset : ZarrDataset;
  numSpikes : Z;
  spikeChannelIndices : option TypedArray;
  spikeFrameIndices : option TypedArray;
  spikesByFrame : option SpikesByFrame
}.

(** The constructor leaves the three spike fields [null]. *)
Definition new (g : ZarrGroup) (nt nc : Z) (fs st dmin dmax dmed : R)
    (raw : ZarrDataset) (ns : Z) : t :=
  mk g nt nc fs st dmin dmax dmed raw ns None None None.

(** One iteration of the loop of [#loadSpikeData]. *)
Definition addSpike (frames channels : TypedArray) (m : SpikesByFrame)
    (i : nat) : SpikesByFrame :=
  let frameIndex := JS.read frames i in
  let channelIndex := JS.read channels i in
  let m1 :=
    if bool_decide (is_Some (m !! frameIndex)) then m
    else <[frameIndex := []]> m in
  <[frameIndex := JS.set_add channelIndex (default [] (m1 !! frameIndex))]> m1.

(** [for (let i = 0; i < numSpikes; i++)] from an empty map. *)
Definition buildSpikesByFrame (frames channels : TypedArray) (n : Z)
    : SpikesByFrame :=
  fold_left (addSpike frames channels) (seq 0 (Z.to_nat n)) ∅.

Definition loadSpikeData (c : t) : result t :=
  await spikeChannelDataset <-
    orThrow (getDataset (zarrGroup c) "spike_channel_indices")
            NoSpikeChannelIndicesDataset;
  let channelData := getData spikeChannelDataset (mkOptions None) in
  await spikeFrameDataset <-
    orThrow (getDataset (zarrGroup c) "spike_frame_indices")
            NoSpikeFrameIndicesDataset;
  let frameData := getData spikeFrameDataset (mkOptions None) in
  Resolved
    (mk (zarrGroup c) (numTimepoints c) (numChannels c)
        (samplingFrequencyHz c) (startTimeSec c)
        (dataMin c) (dataMax c) (dataMedian c) (rawDataDataset c)
        (numSpikes c)
        (Some channelData) (Some frameData)
        (Some (buildSpikesByFrame frameData channelData (numSpikes c)))).

(** [static async create(zarrGroup)].  The attributes are read first,
    then the raw data set is looked up, and only then are the seven
    required attributes checked. *)
Definition create (zarrGroup : ZarrGroup) : result t :=
  let numTimepoints := attrsInt zarrGroup !! "num_timepoints" in
  let numChannels := attrsInt zarrGroup !! "num_channels" in
  let samplingFrequencyHz := attrsNum zarrGroup !! "sampling_frequency_hz" in
  let startTimeSec := attrsNum zarrGroup !! "start_time_sec" in
  let dataMin := attrsNum zarrGroup !! "data_min" in
  let dataMax := attrsNum zarrGroup !! "data_max" in
  let dataMedian := attrsNum zarrGroup !! "data_median" in
  let numSpikes := default 0%Z (attrsInt zarrGroup !! "num_spikes") in
  await rawDataDataset <-
    orThrow (getDataset zarrGroup "raw_data") NoRawDataDataset;
  match numTimepoints, numChannels, samplingFrequencyHz, startTimeSec,
        dataMin, dataMax, dataMedian with
  | Some nt, Some nc, Some fs, Some st, Some dmin, Some dmax, Some dmed =>
      let client :=
        new zarrGroup nt nc fs st dmin dmax dmed rawDataDataset numSpikes in
      if bool_decide (numSpikes > 0)%Z then loadSpikeData client
      else Resolved client
  | _, _, _, _, _, _, _ => Rejected MissingRequiredAttributes
  end.

Definition endTimeSec (c : t) : R :=
  (startTimeSec c + IZR (numTimepoints c) / samplingFrequencyHz c)%R.

(** [getFrameData]: the range check, then one request for the row
    [[timeIndex, timeIndex + 1] x [0, numChannels]], whose answer is
    returned as it is. *)
Definition getFrameData (c : t) (timeIndex : Z) : result TypedArray :=
  if bool_decide (timeIndex < 0)%Z || bool_decide (timeIndex >= numTimepoints c)%Z
  then Rejected (TimeIndexOutOfRange timeIndex (numTimepoints c))
  else
    Resolved
      (getData (rawDataDataset c)
         (mkOptions (Some [(timeIndex, timeIndex + 1); (0, numChannels c)]%Z))).

Definition getTimeFromIndex (c : t) (timeIndex : Z) : R :=
  (startTimeSec c + IZR timeIndex / samplingFrequencyHz c)%R.

Definition getIndexFromTime (c : t) (timeSec : R) : Z :=
  let index :=
    JS.Math_round ((timeSec - startTimeSec c) * samplingFrequencyHz c)%R in
  Z.max 0 (Z.min (numTimepoints c - 1) index).

Definition getSpikingChannels (c : t) (frameIndex : Z) : list (option Z) :=
  match spikesByFrame c with
  | None => []
  | Some m =>
      match m !! Some frameIndex with
      | Some channels => channels
      | None => []
      end
  end.

Definition hasSpikes (c : t) : bool := bool_decide (numSpikes c > 0)%Z.

End MEAMovieClient.

(** ** The conversions with their rounding

    [endTimeSec], [getTimeFromIndex] and [getIndexFromTime] once more,
    each arithmetic operation being followed by the rounding [rnd] of
    its exact result, as a correctly rounded floating-point operation
    is.  The numbers are the real values of the floating-point numbers;
    the conversion of an index to a floating-point number and
    [Math.round] are exact.  With [rnd := id] these are the conversions
    of [MEAMovieClient]. *)
Module Rounded.
Section rounding.
Variable rnd : R -> R.
Variable c : MEAMovieClient.t.

Definition endTimeSec : R :=
  rnd (MEAMovieClient.startTimeSec c
       + rnd (IZR (MEAMovieClient.numTimepoints c)
              / MEAMovieClient.samplingFrequencyHz c))%R.

Definition getTimeFromIndex (timeIndex : Z) : R :=
  rnd (MEAMovieClient.startTimeSec c
       + rnd (IZR timeIndex / MEAMovieClient.samplingFrequencyHz c))%R.

Definition getIndexFromTime (timeSec : R) : Z :=
  let index :=
    JS.Math_round
      (rnd (rnd (timeSec - MEAMovieClient.startTimeSec c)
            * MEAMovieClient.samplingFrequencyHz c))%R in
  Z.max 0 (Z.min (MEAMovieClient.numTimepoints c - 1) index).

(** The error committed by the rounding of the exact result [x]. *)
Definition err (x : R) : R := Rabs (rnd x - x).

End rounding.
End Rounded.

(** ** The conversions in binary64

    The same three functions over the primitive binary64 numbers, for
    evaluation.  [Math.round] is [floor (x + 0.5)] computed exactly from
    the mantissa and the exponent; a number of magnitude [2^53] or more
    is an integer already.  The sign of a zero is not tracked. *)
Module Binary64.

Definition float : Set := PrimFloat.float.

(** The integer [z] as a number, exact for [|z| < 2^53]. *)
Definition of_Z (z : Z) : float :=
  if (z <? 0)%Z
  then PrimFloat.opp (PrimFloat.of_uint63 (Uint63.of_Z (- z)))
  else PrimFloat.of_uint63 (Uint63.of_Z z).

(** [floor (x + 1/2)] of a finite number [x = n * 2^e]. *)
Definition floor_half (x : float) : option Z :=
  match FloatOps.Prim2SF x with
  | SpecFloat.S754_zero _ => Some 0%Z
  | SpecFloat.S754_finite s m e =>
      let n := if s then Z.neg m else Z.pos m in
      Some (if (0 <=? e)%Z then (n * 2 ^ e)%Z
            else ((2 * n + 2 ^ (- e)) / 2 ^ (1 - e))%Z)
  | _ => None
  end.

Definition Math_round (x : float) : float :=
  match floor_half x with
  | Some z => if (Z.abs z <? 2 ^ 53)%Z then of_Z z else x
  | None => x
  end.

Definition Math_max (x y : float) : float :=
  if PrimFloat.is_nan x || PrimFloat.is_nan y then PrimFloat.nan
  else if PrimFloat.ltb x y then y else x.

Definition Math_min (x y : float) : float :=
  if PrimFloat.is_nan x || PrimFloat.is_nan y then PrimFloat.nan
  else if PrimFloat.ltb y x then y else x.

(** The three fields of the client that the conversions read. *)
Record t : Set := mk {
  numTimepoints : float;
  samplingFrequencyHz : float;
  startTimeSec : float
}.

Definition endTimeSec (c : t) : float :=
  PrimFloat.add (startTimeSec c)
    (PrimFloat.div (numTimepoints c) (samplingFrequencyHz c)).

Definition getTimeFromIndex (c : t) (timeIndex : float) : float :=
  PrimFloat.add (startTimeSec c)
    (PrimFloat.div timeIndex (samplingFrequencyHz c)).

Definition getIndexFromTime (c : t) (timeSec : float) : float :=
  let index :=
    Math_round
      (PrimFloat.mul (PrimFloat.sub timeSec (startTimeSec c))
         (samplingFrequencyHz c)) in
  Math_max (of_Z 0)
    (Math_min (PrimFloat.sub (numTimepoints c) (of_Z 1)) index).

(** The real value of a finite number. *)
Definition toR (x : float) : R :=
  match FloatOps.Prim2SF x with
  | SpecFloat.S754_finite s m e =>
      let n := IZR (if s then Z.neg m else Z.pos m) in
      if (0 <=? e)%Z then (n * IZR (2 ^ e))%R else (n / IZR (2 ^ (- e)))%R
  | _ => 0%R
  end.

End Binary64.

(** ** MEAMovieView: the playback clock *)
Module MEAMovieView.

Definition DEFAULT_PLAYBACK_SPEED : R := (1 / 1000)%R.
Definition DEFAULT_CONTRAST : R := 50%R.

(** The component's state: its [useState] cells, the current time of
    the timeseries-selection context, and whether a callback
    registered with [requestAnimationFrame] is waiting to run. *)
Record State : Type := mkState {
  client : option MEAMovieClient.t;
  isPlaying : bool;
  playbackSpeed : R;
  contrast : R;
  playbackStartWallClockTime : option Z;
  playbackStartDataTime : option R;
  currentTime : option R;
  animationFrameRequested : bool
}.

(** Modelled from the spec: the reducer behind [setCurrentTime] (the
    timeseries-selection context's [setCurrentTime] action) is not
    among the sources; "seek simply sets currentDataTime", so the
    action stores its argument as the current time. *)
Definition setCurrentTime (t : R) (st : State) : State :=
  mkState (client st) (isPlaying st) (playbackSpeed st) (contrast st)
    (playbackStartWallClockTime st) (playbackStartDataTime st)
    (Some t) (animationFrameRequested st).

Definition setIsPlaying (b : bool) (st : State) : State :=
  mkState (client st) b (playbackSpeed st) (contrast st)
    (playbackStartWallClockTime st) (playbackStartDataTime st)
    (currentTime st) (animationFrameRequested st).

Definition setPlaybackStartWallClockTime (w : option Z) (st : State) : State :=
  mkState (client st) (isPlaying st) (playbackSpeed st) (contrast st)
    w (playbackStartDataTime st)
    (currentTime st) (animationFrameRequested st).

Definition setPlaybackStartDataTime (d : option R) (st : State) : State :=
  mkState (client st) (isPlaying st) (playbackSpeed st) (contrast st)
    (playbackStartWallClockTime st) d
    (currentTime st) (animationFrameRequested st).

Definition setAnimationFrameRequested (b : bool) (st : State) : State :=
  mkState (client st) (isPlaying st) (playbackSpeed st) (contrast st)
    (playbackStartWallClockTime st) (playbackStartDataTime st)
    (currentTime st) b.

(** The body of [animate], with the values its closure captured and
    the reading [now] of [Date.now()]. *)
Definition animate (c : MEAMovieClient.t)
    (playbackStartWallClockTime : Z) (playbackStartDataTime : R)
    (playbackSpeed : R) (now : Z) (st : State) : State :=
  let elapsedWallClockTimeSec :=
    (IZR (now - playbackStartWallClockTime) / 1000)%R in
  let newDataTime :=
    (playbackStartDataTime + elapsedWallClockTimeSec * playbackSpeed)%R in
  if bool_decide (newDataTime >= MEAMovieClient.endTimeSec c)%R then
    setAnimationFrameRequested false
      (setPlaybackStartDataTime None
         (setPlaybackStartWallClockTime None
            (setCurrentTime (MEAMovieClient.endTimeSec c)
               (setIsPlaying false st))))
  else
    setAnimationFrameRequested true (setCurrentTime newDataTime st).

(** The playback effect after a render: the previous callback is
    cancelled, and a new one is registered only when the view is
    playing, has a client and has both reference times. *)
Definition playbackEffect (st : State) : State :=
  match isPlaying st, client st,
        playbackStartWallClockTime st, playbackStartDataTime st with
  | true, Some _, Some _, Some _ => setAnimationFrameRequested true st
  | _, _, _, _ => setAnimationFrameRequested false st
  end.

(** One rendering opportunity at wall-clock time [now]: the registered
    callback, if any, runs [animate]. *)
Definition advance (now : Z) (st : State) : State :=
  if animationFrameRequested st then
    match client st, playbackStartWallClockTime st, playbackStartDataTime st with
    | Some c, Some w, Some d => animate c w d (playbackSpeed st) now st
    | _, _, _ => st
    end
  else st.

(** [handlePlayPause], with the reading [now] of [Date.now()], followed
    by the effect of the render it causes. *)
Definition handlePlayPause (now : Z) (st : State) : State :=
  match client st, currentTime st with
  | Some c, Some t =>
      playbackEffect
        (if isPlaying st then
           setPlaybackStartDataTime None
             (setPlaybackStartWallClockTime None (setIsPlaying false st))
         else if bool_decide (t >= MEAMovieClient.endTimeSec c)%R then
           setIsPlaying true
             (setPlaybackStartDataTime (Some (MEAMovieClient.startTimeSec c))
                (setPlaybackStartWallClockTime (Some now)
                   (setCurrentTime (MEAMovieClient.startTimeSec c) st)))
         else
           setIsPlaying true
             (setPlaybackStartDataTime (Some t)
                (setPlaybackStartWallClockTime (Some now) st)))
  | _, _ => st
  end.

(** The state once [MEAMovieClient.create] has resolved: stopped, at
    the start of the recording. *)
Definition loaded (c : MEAMovieClient.t) : State :=
  mkState (Some c) false DEFAULT_PLAYBACK_SPEED DEFAULT_CONTRAST None None
    (Some (MEAMovieClient.startTimeSec c)) false.

(** [handleSpeedChange], with the reading [now] of [Date.now()]. *)
Definition handleSpeedChange (newSpeed : R) (now : Z) (st : State) : State :=
  let st1 :=
    mkState (client st) (isPlaying st) newSpeed (contrast st)
      (playbackStartWallClockTime st) (playbackStartDataTime st)
      (currentTime st) (animationFrameRequested st) in
  playbackEffect
    (match isPlaying st, currentTime st with
     | true, Some t =>
         setPlaybackStartDataTime (Some t)
           (setPlaybackStartWallClockTime (Some now) st1)
     | _, _ => st1
     end).

(** The index shown by the slider and handed to the canvas (the
    [useMemo] of [currentTimeIndex]). *)
Definition currentTimeIndex (st : State) : Z :=
  match client st, currentTime st with
  | Some c, Some t => MEAMovieClient.getIndexFromTime c t
  | _, _ => 0%Z
  end.

(** The two [set...] calls every handler makes to re-anchor. *)
Definition reanchor (now : Z) (t : R) (st : State) : State :=
  setPlaybackStartDataTime (Some t)
    (setPlaybackStartWallClockTime (Some now) st).

(** [handleTimeChange]: the slider was moved to [timeIndex] (the parsed
    value of the input), [now] being the reading of [Date.now()].  The
    playback effect runs again only when the reference times changed. *)
Definition handleTimeChange (timeIndex : Z) (now : Z) (st : State) : State :=
  match client st with
  | None => st
  | Some c =>
      let newTime := MEAMovieClient.getTimeFromIndex c timeIndex in
      let st1 := setCurrentTime newTime st in
      if isPlaying st then playbackEffect (reanchor now newTime st1) else st1
  end.

(** [handleRewindOneMs], with the reading [now] of [Date.now()]. *)
Definition handleRewindOneMs (now : Z) (st : State) : State :=
  match client st, currentTime st with
  | Some c, Some t =>
      let newTime := Rmax (t - 1 / 1000) (MEAMovieClient.startTimeSec c) in
      let st1 := setCurrentTime newTime st in
      if isPlaying st then playbackEffect (reanchor now newTime st1) else st1
  | _, _ => st
  end.

(** [handleContrastChange]: the parsed value of the contrast slider. *)
Definition handleContrastChange (value : Z) (st : State) : State :=
  mkState (client st) (isPlaying st) (playbackSpeed st) (IZR value)
    (playbackStartWallClockTime st) (playbackStartDataTime st)
    (currentTime st) (animationFrameRequested st).

(** What can happen to a loaded view: a button, a slider, the speed
    menu, or a rendering opportunity. *)
Inductive Action : Type :=
| PlayPause (now : Z)
| TimeChange (timeIndex now : Z)
| SpeedChange (newSpeed : R) (now : Z)
| RewindOneMs (now : Z)
| ContrastChange (value : Z)
| AnimationFrame (now : Z).

Definition dispatch (a : Action) (st : State) : State :=
  match a with
  | PlayPause now => handlePlayPause now st
  | TimeChange timeIndex now => handleTimeChange timeIndex now st
  | SpeedChange newSpeed now => handleSpeedChange newSpeed now st
  | RewindOneMs now => handleRewindOneMs now st
  | ContrastChange value => handleContrastChange value st
  | AnimationFrame now => advance now st
  end.

Definition dispatchAll (actions : list Action) (st : State) : State :=
  fold_left (fun st a => dispatch a st) actions st.

End MEAMovieView.

(** ** MEAMovieCanvas: spike overlay, marker radius, colour step, frame loader *)
Module MEAMovieCanvas.
Import Zarr.

Definition SPIKE_PERSISTENCE_DURATION_SEC : R := (5 / 10)%R.

(** [SPIKE_PERSISTENCE_DURATION_SEC * 1000] *)
Definition persistenceDurationMs : R :=
  (SPIKE_PERSISTENCE_DURATION_SEC * 1000)%R.

(** What one run of the frame-loading effect captured: the props it
    was started with. *)
Record Request : Type := mkRequest {
  client : MEAMovieClient.t;
  currentTimeIndex : Z;
  isPlaying : bool
}.

(** The component: its current props, its [useState] cells, the
    [recentSpikesRef] map (channel to the wall-clock time at which the
    spike was first seen) and the frame requests still in flight. *)
Record State : Type := mkState {
  props : Request;
  frameData : option TypedArray;
  spikingChannels : list (option Z);
  error : option Error;
  recentSpikes : gmap (option Z) Z;
  inflight : list Request
}.

(** [now - timestamp > persistenceDurationMs] *)
Definition expired (now timestamp : Z) : bool :=
  bool_decide (IZR (now - timestamp) > persistenceDurationMs)%R.

(** [updateSpikingChannels], with the reading [now] of [Date.now()]:
    the entries are sorted into expired and active channels, the
    expired ones are deleted, the active ones are displayed. *)
Definition updateSpikingChannels (now : Z) (st : State) : State :=
  let entries := map_to_list (recentSpikes st) in
  let expiredChannels := (filter (fun e => expired now e.2 = true) entries).*1 in
  let activeChannels := (filter (fun e => expired now e.2 = false) entries).*1 in
  mkState (props st) (frameData st) activeChannels (error st)
    (foldr delete (recentSpikes st) expiredChannels) (inflight st).

(** The opacity of the ring drawn for [channelIndex] at wall-clock time
    [now] (the render effect, "Draw red borders for spiking channels"). *)
Definition ringOpacity (isPlaying : bool) (recentSpikes : gmap (option Z) Z)
    (now : Z) (channelIndex : option Z) : R :=
  let spikeTimestamp := recentSpikes !! channelIndex in
  match isPlaying, spikeTimestamp with
  | true, Some timestamp =>
      let age := IZR (now - timestamp) in
      let ageRatio := (age / persistenceDurationMs)%R in
      (9 / 10 * (1 - ageRatio))%R
  | _, _ => (9 / 10)%R
  end.

(** The loop of [loadFrame] that records the spikes of the displayed
    frame that are not tracked yet. *)
Definition trackSpikes (now : Z) (currentSpikes : list (option Z))
    (m : gmap (option Z) Z) : gmap (option Z) Z :=
  fold_left
    (fun m channelIndex =>
       if bool_decide (is_Some (m !! channelIndex)) then m
       else <[channelIndex := now]> m)
    currentSpikes m.

(** The rest of [loadFrame] once [getFrameData] has settled, for the
    request [req]; [now] and [now'] are the two readings of
    [Date.now()] (in [loadFrame] and in [updateSpikingChannels]). *)
Definition loadFrameSettled (req : Request) (now now' : Z) (st : State)
    : State :=
  match MEAMovieClient.getFrameData (client req) (currentTimeIndex req) with
  | Rejected e =>
      mkState (props st) (frameData st) (spikingChannels st) (Some e)
        (recentSpikes st) (inflight st)
  | Resolved data =>
      let currentSpikes :=
        MEAMovieClient.getSpikingChannels (client req) (currentTimeIndex req) in
      if isPlaying req then
        updateSpikingChannels now'
          (mkState (props st) (Some data) (spikingChannels st) (error st)
             (trackSpikes now currentSpikes (recentSpikes st)) (inflight st))
      else
        mkState (props st) (Some data) currentSpikes (error st) ∅ (inflight st)
  end.

(** The events of the frame loader.  [PropsChanged p] is a render in
    which [client], [currentTimeIndex] or [isPlaying] changed, so the
    effect runs and starts a fetch; [FetchSettled k now now'] is the
    promise of the [k]-th request in flight settling.  The store
    answers in any order. *)
Inductive Event : Type :=
| PropsChanged (p : Request)
| FetchSettled (k : nat) (now now' : Z).

Definition step (ev : Event) (st : State) : State :=
  match ev with
  | PropsChanged p =>
      mkState p (frameData st) (spikingChannels st) (error st)
        (recentSpikes st) (inflight st ++ [p])
  | FetchSettled k now now' =>
      match inflight st !! k with
      | Some req =>
          loadFrameSettled req now now'
            (mkState (props st) (frameData st) (spikingChannels st) (error st)
               (recentSpikes st) (delete k (inflight st)))
      | None => st
      end
  end.

Definition run (evs : list Event) (st : State) : State :=
  fold_left (fun st ev => step ev st) evs st.

(** The component as mounted with props [p]: nothing displayed, one
    fetch in flight. *)
Definition mounted (p : Request) : State :=
  mkState p None [] None ∅ [p].


(** *** Marker radius *)

(** [coords[k]] as a number: [NaN] when the read is [undefined]. *)
Definition coord (coords : list R) (k : nat) : JS.jsnum :=
  JS.to_number (JS.read coords k).

(** [Math.sqrt((x2 - x1) ** 2 + (y2 - y1) ** 2)] for electrodes [i], [j]. *)
Definition electrodeDistance (coords : list R) (i j : nat) : JS.jsnum :=
  let x1 := coord coords (i * 2) in
  let y1 := coord coords (i * 2 + 1) in
  let x2 := coord coords (j * 2) in
  let y2 := coord coords (j * 2 + 1) in
  JS.Math_sqrt
    (JS.js_add (JS.js_sqr (JS.js_sub x2 x1)) (JS.js_sqr (JS.js_sub y2 y1))).

(** The number of integers [i >= 0] with [i < coords.length / 2]. *)
Definition electrodeCount (coords : list R) : nat :=
  (length coords + 1) / 2.

(** The body of the inner loop. *)
Definition closer (coords : list R) (i : nat) (minDist : JS.jsnum) (j : nat)
    : JS.jsnum :=
  let dist := electrodeDistance coords i j in
  if JS.js_gt dist (JS.Fin 0) && JS.js_lt dist minDist then dist else minDist.

Definition calculateMinElectrodeDistance (coords : list R) : JS.jsnum :=
  let numElectrodes := electrodeCount coords in
  let minDist :=
    fold_left
      (fun minDist i =>
         fold_left (closer coords i)
           (seq (i + 1) (numElectrodes - (i + 1))) minDist)
      (seq 0 numElectrodes) JS.PInf in
  match minDist with
  | JS.PInf => JS.Fin 10
  | _ => minDist
  end.

(** [loadCoords]: [radius = (minDist * 0.95) / 2]. *)
Definition electrodeRadius (coords : list R) : JS.jsnum :=
  let minDist := calculateMinElectrodeDistance coords in
  JS.js_div (JS.js_mul minDist (JS.Fin (95 / 100))) (JS.Fin 2).

(** *** Layout step *)

(** The bounding box of the electrodes. *)
Record Box : Type := mkBox {
  minX : JS.jsnum;
  maxX : JS.jsnum;
  minY : JS.jsnum;
  maxY : JS.jsnum
}.

(** The body of the bounding-box loop, for electrode [i]. *)
Definition widen (coords : list R) (b : Box) (i : nat) : Box :=
  let x := coord coords (i * 2) in
  let y := coord coords (i * 2 + 1) in
  mkBox (if JS.js_lt x (minX b) then x else minX b)
        (if JS.js_gt x (maxX b) then x else maxX b)
        (if JS.js_lt y (minY b) then y else minY b)
        (if JS.js_gt y (maxY b) then y else maxY b).

Definition boundingBox (coords : list R) : Box :=
  fold_left (widen coords) (seq 0 (electrodeCount coords))
    (mkBox (coord coords 0) (coord coords 0) (coord coords 1) (coord coords 1)).

Definition padding : R := 30%R.

(** The scale factor and the centring offset. *)
Record Layout : Type := mkLayout {
  scale : JS.jsnum;
  offsetX : JS.jsnum;
  offsetY : JS.jsnum
}.

Definition layout (width height : R) (coords : list R) : Layout :=
  let b := boundingBox coords in
  let dataWidth := JS.js_sub (maxX b) (minX b) in
  let dataHeight := JS.js_sub (maxY b) (minY b) in
  let scaleX := JS.js_div (JS.Fin (width - 2 * padding)) dataWidth in
  let scaleY := JS.js_div (JS.Fin (height - 2 * padding)) dataHeight in
  let scale := JS.Math_max (JS.Fin 0) (JS.Math_min scaleX scaleY) in
  let offsetX :=
    JS.js_sub
      (JS.js_div (JS.js_sub (JS.Fin width) (JS.js_mul dataWidth scale))
         (JS.Fin 2))
      (JS.js_mul (minX b) scale) in
  let offsetY :=
    JS.js_sub
      (JS.js_div (JS.js_sub (JS.Fin height) (JS.js_mul dataHeight scale))
         (JS.Fin 2))
      (JS.js_mul (minY b) scale) in
  mkLayout scale offsetX offsetY.

(** The centre of the marker of electrode [i] on the canvas. *)
Definition drawnX (l : Layout) (coords : list R) (i : nat) : JS.jsnum :=
  JS.js_add (JS.js_mul (coord coords (i * 2)) (scale l)) (offsetX l).

Definition drawnY (l : Layout) (coords : list R) (i : nat) : JS.jsnum :=
  JS.js_add (JS.js_mul (coord coords (i * 2 + 1)) (scale l)) (offsetY l).

(** The radius of the markers on the canvas, [electrodeRadius * scale]. *)
Definition drawnRadius (l : Layout) (electrodeRadius : JS.jsnum) : JS.jsnum :=
  JS.js_mul electrodeRadius (scale l).

(** The width of the spike rings,
    [Math.max(3, electrodeRadius * scale * 0.3)]. *)
Definition ringLineWidth (l : Layout) (electrodeRadius : JS.jsnum)
    : JS.jsnum :=
  JS.Math_max (JS.Fin 3)
    (JS.js_mul (JS.js_mul electrodeRadius (scale l)) (JS.Fin (3 / 10))).

(** *** Colour step *)

(** The value handed to [valueToColor] for the raw sample [value]. *)
Definition colorValue (c : MEAMovieClient.t) (contrast : R)
    (value : JS.jsnum) : JS.jsnum :=
  let dataMin := MEAMovieClient.dataMin c in
  let dataMax := MEAMovieClient.dataMax c in
  let dataMedian := MEAMovieClient.dataMedian c in
  let dataRange :=
    (2 * Rmax (Rabs (dataMax - dataMedian)) (Rabs (dataMin - dataMedian)))%R in
  let contrastScale := exp ((contrast - 40) / 10) in
  let normalizedValue :=
    JS.js_add (JS.Fin (5 / 10))
      (JS.js_div (JS.js_sub value (JS.Fin dataMedian)) (JS.Fin dataRange)) in
  let scaledValue :=
    JS.js_mul
      (JS.js_mul (JS.js_sub normalizedValue (JS.Fin (5 / 10))) (JS.Fin 2))
      (JS.Fin contrastScale) in
  let scaledValue :=
    JS.Math_max (JS.Fin (-1)) (JS.Math_min (JS.Fin 1) scaledValue) in
  let scaledValue := JS.js_neg scaledValue in
  JS.js_div (JS.js_add scaledValue (JS.Fin 1)) (JS.Fin 2).

(** [frameData[i]] of an [Int16Array], as a number. *)
Definition sample (frameData : TypedArray) (i : nat) : JS.jsnum :=
  JS.to_number (IZR <$> JS.read frameData i).

End MEAMovieCanvas.

(** ** colormapUtils: the colour schemes

    A scheme computes three channels and formats them as the string
    [rgb(r, g, b)]; the model keeps the two steps apart.  The schemes are
    modelled on finite numbers, and the table by its own properties (the
    names an object inherits are not modelled). *)
Module ColormapUtils.

Record Rgb : Type := mkRgb { red : Z; green : Z; blue : Z }.

(** The template string [rgb(${r}, ${g}, ${b})]. *)
Definition css (c : Rgb) : string :=
  "rgb(" +:+ pretty (red c) +:+ ", " +:+ pretty (green c) +:+ ", "
  +:+ pretty (blue c) +:+ ")".

Definition blueRed (normalizedValue : R) : Rgb :=
  let red := JS.Math_round (255 * normalizedValue) in
  let blue := JS.Math_round (255 * (1 - normalizedValue)) in
  let green :=
    JS.Math_round (128 * (1 - Rabs (normalizedValue - 5 / 10) * 2)) in
  mkRgb red green blue.

Definition viridis (normalizedValue : R) : Rgb :=
  let v := normalizedValue in
  let '(r, g, b) :=
    if bool_decide (v < 25 / 100)%R then
      let t := (v / (25 / 100))%R in
      (68 + (59 - 68) * t, 1 + (82 - 1) * t, 84 + (139 - 84) * t)%R
    else if bool_decide (v < 5 / 10)%R then
      let t := ((v - 25 / 100) / (25 / 100))%R in
      (59 + (33 - 59) * t, 82 + (144 - 82) * t, 139 + (140 - 139) * t)%R
    else if bool_decide (v < 75 / 100)%R then
      let t := ((v - 5 / 10) / (25 / 100))%R in
      (33 + (93 - 33) * t, 144 + (201 - 144) * t, 140 + (99 - 140) * t)%R
    else
      let t := ((v - 75 / 100) / (25 / 100))%R in
      (93 + (253 - 93) * t, 201 + (231 - 201) * t, 99 + (37 - 99) * t)%R in
  mkRgb (JS.Math_round r) (JS.Math_round g) (JS.Math_round b).

Definition hot (normalizedValue : R) : Rgb :=
  let v := normalizedValue in
  let '(r, g, b) :=
    if bool_decide (v < 33 / 100)%R then
      (255 * (v / (33 / 100)), 0, 0)%R
    else if bool_decide (v < 67 / 100)%R then
      (255, 255 * ((v - 33 / 100) / (34 / 100)), 0)%R
    else
      (255, 255, 255 * ((v - 67 / 100) / (33 / 100)))%R in
  mkRgb (JS.Math_round r) (JS.Math_round g) (JS.Math_round b).

Definition grayscale (normalizedValue : R) : Rgb :=
  let intensity := JS.Math_round (255 * normalizedValue) in
  mkRgb intensity intensity intensity.

Definition cool (normalizedValue : R) : Rgb :=
  let r := JS.Math_round (255 * normalizedValue) in
  let g := JS.Math_round (255 * (1 - normalizedValue)) in
  let b := 255%Z in
  mkRgb r g b.

Definition colorSchemes : gmap string (R -> Rgb) :=
  <["blue-red" := blueRed]>
    (<["viridis" := viridis]>
       (<["hot" := hot]>
          (<["grayscale" := grayscale]> (<["cool" := cool]> ∅)))).

(** [colorSchemes[scheme] || colorSchemes["grayscale"]], applied and
    formatted. *)
Definition valueToColor (normalizedValue : R) (scheme : string) : string :=
  let colorFunc := default grayscale (colorSchemes !! scheme) in
  css (colorFunc normalizedValue).

End ColormapUtils.

(** ** A concrete recording

    The recording of the end-to-end scenarios: 20000 samples at 20000 Hz
    from time 0, four channels, one spike on channel 3 at sample 100. *)
Module Scenario.
Import Zarr.

(** Row [r], channels [lo..hi): the sample of channel [ch] is [10 r + ch]. *)
Definition rawData : ZarrDataset :=
  mkDataset (fun o =>
    match slice o with
    | Some [(r, _); (lo, hi)] => (fun ch => r * 10 + ch)%Z <$> seqZ lo (hi - lo)
    | _ => []
    end).

Definition spikeChannels : ZarrDataset := mkDataset (fun _ => [3%Z]).
Definition spikeFrames : ZarrDataset := mkDataset (fun _ => [100%Z]).

Definition datasets (name : string) : option ZarrDataset :=
  if bool_decide (name = "raw_data") then Some rawData
  else if bool_decide (name = "spike_channel_indices") then Some spikeChannels
  else if bool_decide (name = "spike_frame_indices") then Some spikeFrames
  else None.

Definition group : ZarrGroup :=
  mkGroup
    (<["num_timepoints" := 20000%Z]>
       (<["num_channels" := 4%Z]> (<["num_spikes" := 1%Z]> ∅)))
    (<["sampling_frequency_hz" := 20000%R]>
       (<["start_time_sec" := 0%R]>
          (<["data_min" := (-100)%R]>
             (<["data_max" := 100%R]> (<["data_median" := 0%R]> ∅)))))
    datasets.

Definition recording : MEAMovieClient.t :=
  MEAMovieClient.mk group 20000 4 20000 0 (-100) 100 0 rawData 1
    (Some [3%Z]) (Some [100%Z])
    (Some (<[Some 100%Z := [Some 3%Z]]> ∅)).

(** Scenario B: the canvas mounted on sample 100 while playing, its
    frame arriving at wall-clock time 1000. *)
Definition showing100 : MEAMovieCanvas.Request :=
  MEAMovieCanvas.mkRequest recording 100 true.

Definition spikeSeen : MEAMovieCanvas.State :=
  MEAMovieCanvas.step (MEAMovieCanvas.FetchSettled 0 1000 1000)
    (MEAMovieCanvas.mounted showing100).

(** The same store without the [data_median] attribute. *)
Definition noMedianGroup : ZarrGroup :=
  mkGroup (attrsInt group) (delete "data_median" (attrsNum group)) datasets.

(** Scenario C: three electrodes at (0,0), (1,0) and (0,1). *)
Definition corner : list R := [0; 0; 1; 0; 0; 1]%R.

(** Three electrodes of which the first two share the position (0,0). *)
Definition coincident : list R := [0; 0; 0; 0; 1; 0]%R.

(** A recording whose samples are all 0: minimum, maximum and median
    coincide. *)
Definition flatData : ZarrDataset :=
  mkDataset (fun o =>
    match slice o with
    | Some [(r, _); (lo, hi)] => (fun _ => 0%Z) <$> seqZ lo (hi - lo)
    | _ => []
    end).

Definition flatGroup : ZarrGroup :=
  mkGroup
    (<["num_timepoints" := 20000%Z]> (<["num_channels" := 4%Z]> ∅))
    (<["sampling_frequency_hz" := 20000%R]>
       (<["start_time_sec" := 0%R]>
          (<["data_min" := 0%R]>
             (<["data_max" := 0%R]> (<["data_median" := 0%R]> ∅)))))
    (fun name => if bool_decide (name = "raw_data") then Some flatData else None).

Definition flatRecording : MEAMovieClient.t :=
  MEAMovieClient.mk flatGroup 20000 4 20000 0 0 0 0 flatData 0 None None None.

(** Scrubbing while paused: the canvas is mounted on sample 0, the
    slider moves to sample 1 before the first frame has arrived, and the
    frame of sample 1 arrives first. *)
Definition scrub0 : MEAMovieCanvas.Request :=
  MEAMovieCanvas.mkRequest recording 0 false.

Definition scrub1 : MEAMovieCanvas.Request :=
  MEAMovieCanvas.mkRequest recording 1 false.

Definition scrubbed : MEAMovieCanvas.State :=
  MEAMovieCanvas.run
    [MEAMovieCanvas.PropsChanged scrub1; MEAMovieCanvas.FetchSettled 1 1000 1000]
    (MEAMovieCanvas.mounted scrub0).

(** A probe with its four electrodes in one column, at heights 0, 10,
    20 and 30. *)
Definition column : list R := [5; 0; 5; 10; 5; 20; 5; 30]%R.

(** A store with neither attributes nor datasets. *)
Definition emptyGroup : ZarrGroup := mkGroup ∅ ∅ (fun _ => None).

(** A recording of 40000 samples at 20 kHz that starts at 0 and ends at
    2 s, in binary64. *)
Definition twoSeconds : Binary64.t :=
  Binary64.mk (Binary64.of_Z 40000) (Binary64.of_Z 20000) (Binary64.of_Z 0).

End Scenario.

(** ** Specification vocabulary *)

(** One of the seven required attributes is not bound in the group. *)
Definition missingAttribute (g : Zarr.ZarrGroup) : Prop :=
  Zarr.attrsInt g !! "num_timepoints" = None
  \/ Zarr.attrsInt g !! "num_channels" = None
  \/ Zarr.attrsNum g !! "sampling_frequency_hz" = None
  \/ Zarr.attrsNum g !! "start_time_sec" = None
  \/ Zarr.attrsNum g !! "data_min" = None
  \/ Zarr.attrsNum g !! "data_max" = None
  \/ Zarr.attrsNum g !! "data_median" = None.

(** The spike fields of a client of group [g] with [n] spikes: both
    arrays as the store holds them and the index built from them when [n
    > 0], all three [null] otherwise. *)
Definition spikesLoaded (g : Zarr.ZarrGroup) (n : Z) (c : MEAMovieClient.t)
    : Prop :=
  if bool_decide (n > 0)%Z then
    exists channelDataset frameDataset,
      Zarr.getDataset g "spike_channel_indices" = Some channelDataset
      /\ Zarr.getDataset g "spike_frame_indices" = Some frameDataset
      /\ MEAMovieClient.spikeChannelIndices c
         = Some (Zarr.getData channelDataset (Zarr.mkOptions None))
      /\ MEAMovieClient.spikeFrameIndices c
         = Some (Zarr.getData frameDataset (Zarr.mkOptions None))
      /\ MEAMovieClient.spikesByFrame c
         = Some (MEAMovieClient.buildSpikesByFrame
                   (Zarr.getData frameDataset (Zarr.mkOptions None))
                   (Zarr.getData channelDataset (Zarr.mkOptions None)) n)
  else
    MEAMovieClient.spikeChannelIndices c = None
    /\ MEAMovieClient.spikeFrameIndices c = None
    /\ MEAMovieClient.spikesByFrame c = None.

(** A complete client of group [g]: every required attribute and the
    raw data set as the group has them, the spike count (0 when the
    attribute is not bound) and the spike fields. *)
Definition loadedFrom (g : Zarr.ZarrGroup) (c : MEAMovieClient.t) : Prop :=
  MEAMovieClient.zarrGroup c = g
  /\ Zarr.attrsInt g !! "num_timepoints" = Some (MEAMovieClient.numTimepoints c)
  /\ Zarr.attrsInt g !! "num_channels" = Some (MEAMovieClient.numChannels c)
  /\ Zarr.attrsNum g !! "sampling_frequency_hz"
     = Some (MEAMovieClient.samplingFrequencyHz c)
  /\ Zarr.attrsNum g !! "start_time_sec" = Some (MEAMovieClient.startTimeSec c)
  /\ Zarr.attrsNum g !! "data_min" = Some (MEAMovieClient.dataMin c)
  /\ Zarr.attrsNum g !! "data_max" = Some (MEAMovieClient.dataMax c)
  /\ Zarr.attrsNum g !! "data_median" = Some (MEAMovieClient.dataMedian c)
  /\ Zarr.getDataset g "raw_data" = Some (MEAMovieClient.rawDataDataset c)
  /\ MEAMovieClient.numSpikes c = default 0%Z (Zarr.attrsInt g !! "num_spikes")
  /\ spikesLoaded g (MEAMovieClient.numSpikes c) c.

(** The electrode pairs the two loops of
    [calculateMinElectrodeDistance] visit, in order. *)
Definition electrodePairs (n : nat) : list (nat * nat) :=
  flat_map (fun i => pair i <$> seq (i + 1) (n - (i + 1))) (seq 0 n).

(** Electrodes [i] and [j] are a positive distance [d] apart. *)
Definition apart (coords : list R) (i j : nat) (d : R) : Prop :=
  MEAMovieCanvas.electrodeDistance coords i j = JS.Fin d /\ (0 < d)%R.

(** The invariant of the loops of [calculateMinElectrodeDistance]:
    after the pairs [ps], [minDist] is still [Infinity] and no pair was a
    positive distance apart, or it is the least positive distance among
    them. *)
Definition leastApart (coords : list R) (ps : list (nat * nat))
    (minDist : JS.jsnum) : Prop :=
  match minDist with
  | JS.PInf => forall p d, p ∈ ps -> ~ apart coords p.1 p.2 d
  | JS.Fin r =>
      (0 < r)%R
      /\ (exists p, p ∈ ps
                    /\ MEAMovieCanvas.electrodeDistance coords p.1 p.2 = JS.Fin r)
      /\ (forall p d, p ∈ ps -> apart coords p.1 p.2 d -> (r <= d)%R)
  | _ => False
  end.

(** The data range of the colour step. *)
Definition dataRange (c : MEAMovieClient.t) : R :=
  (2 * Rmax (Rabs (MEAMovieClient.dataMax c - MEAMovieClient.dataMedian c))
         (Rabs (MEAMovieClient.dataMin c - MEAMovieClient.dataMedian c)))%R.

(** A number the colour maps accept: finite, between 0 and 1. *)
Definition unitInterval (x : JS.jsnum) : Prop :=
  exists v : R, x = JS.Fin v /\ (0 <= v <= 1)%R.

(** The playback state is consistent: a playing view has a client, both
    reference times and a registered callback; a stopped view has neither
    reference time nor a registered callback. *)
Definition anchored (st : MEAMovieView.State) : Prop :=
  if MEAMovieView.isPlaying st then
    is_Some (MEAMovieView.client st)
    /\ is_Some (MEAMovieView.playbackStartWallClockTime st)
    /\ is_Some (MEAMovieView.playbackStartDataTime st)
    /\ MEAMovieView.animationFrameRequested st = true
  else
    MEAMovieView.playbackStartWallClockTime st = None
    /\ MEAMovieView.playbackStartDataTime st = None
    /\ MEAMovieView.animationFrameRequested st = false.

(** A colour whose three channels are bytes. *)
Definition validColor (c : ColormapUtils.Rgb) : Prop :=
  (0 <= ColormapUtils.red c <= 255)%Z
  /\ (0 <= ColormapUtils.green c <= 255)%Z
  /\ (0 <= ColormapUtils.blue c <= 255)%Z.

(** Every channel of [c1] is at most that of [c2]. *)
Definition notBrighter (c1 c2 : ColormapUtils.Rgb) : Prop :=
  (ColormapUtils.red c1 <= ColormapUtils.red c2)%Z
  /\ (ColormapUtils.green c1 <= ColormapUtils.green c2)%Z
  /\ (ColormapUtils.blue c1 <= ColormapUtils.blue c2)%Z.

(** Electrode [i] of the layout is at ([x], [y]). *)
Definition electrodeAt (coords : list R) (i : nat) (x y : R) : Prop :=
  coords !! (i * 2)%nat = Some x /\ coords !! (i * 2 + 1)%nat = Some y.

(** * Properties *)

(** ** [Math.round] *)

Lemma Math_round_near (x : R) :
  (x - 1 / 2 < IZR (JS.Math_round x) <= x + 1 / 2)%R.
Proof.
  unfold JS.Math_round.
  destruct (base_Int_part (x + / 2)) as [Hle Hgt]. lra.
Qed.

Lemma Math_round_unique (x : R) (z : Z) :
  (x - 1 / 2 < IZR z <= x + 1 / 2)%R -> JS.Math_round x = z.
Proof.
  intros [Hlo Hhi]. unfold JS.Math_round. symmetry.
  apply Int_part_spec. lra.
Qed.

Lemma scenario_created :
  MEAMovieClient.create Scenario.group = Resolved Scenario.recording.
Proof. reflexivity. Qed.

(** ** Time and index conversion *)

Section conversions.
Import MEAMovieClient.
Variable c : MEAMovieClient.t.

(** The distance, counted in samples, between a position in
    [[0, numTimepoints]] and the index it is mapped to is at most one. *)
Lemma clamp_round_near (x : R) :
  (0 <= x <= IZR (numTimepoints c))%R ->
  (Rabs (IZR (Z.max 0 (Z.min (numTimepoints c - 1) (JS.Math_round x))) - x)
     <= 1)%R.
Proof.
  intros [Hx0 HxN].
  pose proof (Math_round_near x) as [Hlo Hhi].
  set (r := JS.Math_round x) in *.
  assert (0 <= r)%Z as Hr0.
  { apply Z.lt_succ_r, lt_IZR. rewrite succ_IZR in *. lra. }
  assert (r <= numTimepoints c)%Z as HrN.
  { apply Z.lt_succ_r, lt_IZR. rewrite succ_IZR. lra. }
  destruct (Z.eq_dec r (numTimepoints c)) as [Heq | Hne].
  - destruct (Z.eq_dec (numTimepoints c) 0%Z) as [H0 | H0].
    + replace (Z.max 0 (Z.min (numTimepoints c - 1) r)) with 0%Z by lia.
      rewrite H0 in HxN. apply Rabs_le. lra.
    + replace (Z.max 0 (Z.min (numTimepoints c - 1) r)) with (r - 1)%Z by lia.
      rewrite minus_IZR. rewrite <- Heq in HxN. apply Rabs_le. lra.
  - replace (Z.max 0 (Z.min (numTimepoints c - 1) r)) with r by lia.
    apply Rabs_le. lra.
Qed.

Lemma round_trip_error (t : R) :
  (0 < samplingFrequencyHz c)%R ->
  (startTimeSec c <= t <= endTimeSec c)%R ->
  (Rabs (getTimeFromIndex c (getIndexFromTime c t) - t)
     <= 1 / samplingFrequencyHz c)%R.
Proof.
  intros Hfs [Hlo Hhi].
  unfold endTimeSec in Hhi.
  set (fs := samplingFrequencyHz c) in *.
  set (x := ((t - startTimeSec c) * fs)%R).
  assert (0 <= x <= IZR (numTimepoints c))%R as Hx.
  { unfold x. split; [ nra | ].
    apply (Rmult_le_compat_r fs) in Hhi; [ | lra ].
    rewrite Rmult_plus_distr_r in Hhi.
    unfold Rdiv in Hhi. rewrite Rmult_assoc, Rinv_l in Hhi; lra. }
  pose proof (clamp_round_near x Hx) as Hnear.
  unfold getTimeFromIndex, getIndexFromTime. fold fs. fold x.
  set (i := IZR (Z.max 0 (Z.min (numTimepoints c - 1) (JS.Math_round x)))) in *.
  replace (startTimeSec c + i / fs - t)%R with ((i - x) / fs)%R
    by (unfold x; field; lra).
  unfold Rdiv at 1. rewrite Rabs_mult, (Rabs_pos_eq (/ fs)).
  - apply Rmult_le_compat_r; [ | lra ].
    apply Rlt_le, Rinv_0_lt_compat, Hfs.
  - apply Rlt_le, Rinv_0_lt_compat, Hfs.
Qed.

End conversions.

Lemma Rabs_le_bounds (x a : R) : (Rabs x <= a)%R -> (- a <= x <= a)%R.
Proof.
  intros H. pose proof (Rle_abs x) as Hx.
  pose proof (Rle_abs (- x)) as Hx'. rewrite Rabs_Ropp in Hx'. lra.
Qed.

Section rounded_conversions.
Variable rnd : R -> R.
Variable c : MEAMovieClient.t.

Lemma err_bounds (x : R) :
  (- Rounded.err rnd x <= rnd x - x <= Rounded.err rnd x)%R.
Proof.
  unfold Rounded.err. split.
  - pose proof (Rle_abs (- (rnd x - x))) as H. rewrite Rabs_Ropp in H. lra.
  - apply Rle_abs.
Qed.

(** Counted in samples: a position [x >= 0] that exceeds the number of
    samples by at most [F], and the index obtained from a value [p]
    within [E] of it, are at most [1 + E + F] apart. *)
Lemma clamp_round_near_rounded (n : Z) (x p E F : R) :
  (0 <= x <= IZR n + F)%R -> (0 <= F)%R -> (Rabs (p - x) <= E)%R ->
  (Rabs (IZR (Z.max 0 (Z.min (n - 1) (JS.Math_round p))) - x)
     <= 1 + E + F)%R.
Proof.
  intros [Hx0 HxN] HF Hp. apply Rabs_le_bounds in Hp.
  pose proof (Math_round_near p) as [Hlo Hhi].
  set (k := JS.Math_round p) in *.
  destruct (Z_lt_le_dec k 0) as [Hneg | Hnonneg].
  - replace (Z.max 0 (Z.min (n - 1) k)) with 0%Z by lia.
    assert (IZR k <= -1)%R by (apply (IZR_le k (-1)); lia).
    apply Rabs_le. lra.
  - destruct (Z_le_gt_dec k (n - 1)) as [Hin | Hout].
    + replace (Z.max 0 (Z.min (n - 1) k)) with k by lia.
      apply Rabs_le. lra.
    + destruct (Z_le_gt_dec 1 n) as [Hn | Hn].
      * replace (Z.max 0 (Z.min (n - 1) k)) with (n - 1)%Z by lia.
        assert (IZR n <= IZR k)%R by (apply IZR_le; lia).
        rewrite minus_IZR. apply Rabs_le. lra.
      * replace (Z.max 0 (Z.min (n - 1) k)) with 0%Z by lia.
        assert (IZR n <= 0)%R by (apply (IZR_le n 0); lia).
        apply Rabs_le. lra.
Qed.

(** The round trip with rounding: one sample period and the errors of
    the six roundings on the way, that of the product counted in
    samples. *)
Lemma round_trip_error_rounded (t : R) :
  let fs := MEAMovieClient.samplingFrequencyHz c in
  let start := MEAMovieClient.startTimeSec c in
  let n := MEAMovieClient.numTimepoints c in
  let i := Rounded.getIndexFromTime rnd c t in
  (0 < fs)%R ->
  (start <= t <= Rounded.endTimeSec rnd c)%R ->
  (Rabs (Rounded.getTimeFromIndex rnd c i - t)
   <= 1 / fs
      + Rounded.err rnd (t - start)
      + Rounded.err rnd (rnd (t - start) * fs) / fs
      + Rounded.err rnd (IZR i / fs)
      + Rounded.err rnd (start + rnd (IZR i / fs))
      + Rounded.err rnd (IZR n / fs)
      + Rounded.err rnd (start + rnd (IZR n / fs)))%R.
Proof.
  intros fs start n i Hfs [Hlo Hhi].
  unfold Rounded.endTimeSec in Hhi. fold fs start n in Hhi.
  unfold Rounded.getTimeFromIndex. fold fs start.
  pose proof (err_bounds (t - start)) as H1.
  pose proof (err_bounds (rnd (t - start) * fs)) as H2.
  pose proof (err_bounds (IZR i / fs)) as H3.
  pose proof (err_bounds (start + rnd (IZR i / fs))) as H4.
  pose proof (err_bounds (IZR n / fs)) as H5.
  pose proof (err_bounds (start + rnd (IZR n / fs))) as H6.
  set (e1 := Rounded.err rnd (t - start)) in *.
  set (e2 := Rounded.err rnd (rnd (t - start) * fs)) in *.
  set (e3 := Rounded.err rnd (IZR i / fs)) in *.
  set (e4 := Rounded.err rnd (start + rnd (IZR i / fs))) in *.
  set (e5 := Rounded.err rnd (IZR n / fs)) in *.
  set (e6 := Rounded.err rnd (start + rnd (IZR n / fs))) in *.
  assert (0 < / fs)%R as Hinv by (apply Rinv_0_lt_compat, Hfs).
  assert (/ fs * fs = 1)%R as Hone by (apply Rinv_l; lra).
  set (x := ((t - start) * fs)%R).
  set (a := rnd (t - start)) in *.
  set (p := rnd (a * fs)) in *.
  assert (Rabs (p - x) <= e2 + e1 * fs)%R as Hp.
  { apply Rabs_le. unfold x.
    assert (- (e1 * fs) <= (a - (t - start)) * fs <= e1 * fs)%R by nra.
    lra. }
  assert (0 <= x <= IZR n + (e5 + e6) * fs)%R as Hx.
  { unfold x. split; [ nra | ].
    assert (IZR n / fs * fs = IZR n)%R as Hq by (field; lra).
    set (q := (IZR n / fs)%R) in *.
    assert ((t - start) * fs <= (q + e5 + e6) * fs)%R by nra.
    lra. }
  assert (0 <= (e5 + e6) * fs)%R as HF by nra.
  pose proof (clamp_round_near_rounded n x p _ _ Hx HF Hp) as Hnear.
  change (Z.max 0 (Z.min (n - 1) (JS.Math_round p))) with i in Hnear.
  apply Rabs_le_bounds in Hnear.
  assert (IZR i / fs + start - t = (IZR i - x) * / fs)%R as Hd
    by (unfold x; field; lra).
  set (d := (IZR i - x)%R) in *.
  set (B := (1 + (e2 + e1 * fs) + (e5 + e6) * fs)%R) in *.
  assert (- (B * / fs) <= d * / fs <= B * / fs)%R as Hscaled by nra.
  assert (B * / fs = 1 / fs + e1 + e2 / fs + e5 + e6)%R as HB
    by (unfold B; field; lra).
  apply Rabs_le. lra.
Qed.

Lemma err_exact (x : R) :
  (forall y, rnd y = y) -> Rounded.err rnd x = 0%R.
Proof.
  intros Hid. unfold Rounded.err. rewrite Hid.
  replace (x - x)%R with 0%R by ring. apply Rabs_R0.
Qed.

End rounded_conversions.

(** C2, as the code has it.  [getIndexFromTime t] is [Math.round] of the
    computed product [(t - startTimeSec) * samplingFrequencyHz], clamped
    by [Math.max 0 (Math.min (numTimepoints - 1) _)], for every [t] and
    whatever the rounding of the arithmetic: the rounded value lies
    within half a sample of the computed product, the result is the
    rounded value when that lies in [[0, numTimepoints - 1]], the nearer
    end of the interval otherwise, and always lies in the interval.  For
    every [t] between the start and the computed end of the recording,
    [getTimeFromIndex (getIndexFromTime t)] differs from [t] by at most
    one sample period [1 / samplingFrequencyHz] plus the rounding errors
    of the six operations involved (the subtraction and the product of
    [getIndexFromTime], the quotient and the sum of [getTimeFromIndex]
    and of [endTimeSec]), the error of the product being counted in
    samples.  Without rounding error the bound is the sample period, and
    the conversions are the exact ones. *)
Theorem getIndexFromTime_clamped_round
    (rnd : R -> R) (c : MEAMovieClient.t) (t : R) :
  let fs := MEAMovieClient.samplingFrequencyHz c in
  let start := MEAMovieClient.startTimeSec c in
  let n := MEAMovieClient.numTimepoints c in
  let x := rnd (rnd (t - start) * fs)%R in
  let i := Rounded.getIndexFromTime rnd c t in
  (x - 1 / 2 < IZR (JS.Math_round x) <= x + 1 / 2)%R
  /\ ((0 <= JS.Math_round x <= n - 1)%Z -> i = JS.Math_round x)
  /\ ((JS.Math_round x < 0)%Z -> i = 0%Z)
  /\ ((1 <= n)%Z ->
      ((n - 1 < JS.Math_round x)%Z -> i = (n - 1)%Z) /\ (0 <= i <= n - 1)%Z)
  /\ ((0 < fs)%R ->
      (start <= t <= Rounded.endTimeSec rnd c)%R ->
      (Rabs (Rounded.getTimeFromIndex rnd c i - t)
       <= 1 / fs
          + Rounded.err rnd (t - start)
          + Rounded.err rnd (rnd (t - start) * fs) / fs
          + Rounded.err rnd (IZR i / fs)
          + Rounded.err rnd (start + rnd (IZR i / fs))
          + Rounded.err rnd (IZR n / fs)
          + Rounded.err rnd (start + rnd (IZR n / fs)))%R)
  /\ ((forall y, rnd y = y) ->
      i = MEAMovieClient.getIndexFromTime c t
      /\ Rounded.getTimeFromIndex rnd c i = MEAMovieClient.getTimeFromIndex c i
      /\ Rounded.endTimeSec rnd c = MEAMovieClient.endTimeSec c
      /\ ((0 < fs)%R ->
          (start <= t <= MEAMovieClient.endTimeSec c)%R ->
          (Rabs (MEAMovieClient.getTimeFromIndex c
                   (MEAMovieClient.getIndexFromTime c t) - t)
           <= 1 / fs)%R)).
Proof.
  cbv zeta. split; [ apply Math_round_near | ].
  split; [ unfold Rounded.getIndexFromTime; lia | ].
  split; [ unfold Rounded.getIndexFromTime; lia | ].
  split; [ unfold Rounded.getIndexFromTime; lia | ].
  split.
  - intros Hfs Ht. apply (round_trip_error_rounded rnd c t Hfs Ht).
  - intros Hid.
    unfold Rounded.getIndexFromTime, Rounded.getTimeFromIndex,
      Rounded.endTimeSec.
    rewrite !Hid.
    split; [ reflexivity | ]. split; [ reflexivity | ].
    split; [ reflexivity | ].
    intros Hfs Ht. apply (round_trip_error c t Hfs Ht).
Qed.

(** On the scenario recording, in exact arithmetic, a quarter of a
    second is sample 5000 and the round trip is exact to within one
    sample period. *)
Lemma getIndexFromTime_clamped_round_witness :
  Rounded.getIndexFromTime id Scenario.recording (1 / 4) = 5000%Z
  /\ (Rabs (Rounded.getTimeFromIndex id Scenario.recording
             (Rounded.getIndexFromTime id Scenario.recording (1 / 4))
           - 1 / 4) <= 1 / 20000)%R.
Proof.
  pose proof (getIndexFromTime_clamped_round id Scenario.recording (1 / 4))
    as H.
  cbv zeta in H. destruct H as (_ & Hin & _ & _ & Hrt & _).
  assert (JS.Math_round (id (id (1 / 4 - 0) * 20000)) = 5000%Z) as Hr.
  { apply Math_round_unique. unfold id. lra. }
  split.
  - rewrite Hin; simpl; rewrite Hr; [ reflexivity | lia ].
  - eapply Rle_trans.
    + apply Hrt; simpl; unfold Rounded.endTimeSec, id; simpl; lra.
    + rewrite !(err_exact id) by reflexivity. simpl. lra.
Defined.

(** In binary64 the round trip exceeds the sample period at the end of
    a recording of 40000 samples at 20 kHz that starts at 0: the end
    time is 2, its index is the last one, 39999, whose time
    [0 + 39999 / 20000] is rounded down, so that it is farther from 2
    than [1 / 20000], both as the code would compare them and
    exactly. *)
Lemma round_trip_exceeds_sample_period :
  let c := Scenario.twoSeconds in
  let t := Binary64.endTimeSec c in
  let t' := Binary64.getTimeFromIndex c (Binary64.getIndexFromTime c t) in
  t = Binary64.of_Z 2
  /\ Binary64.getIndexFromTime c t = Binary64.of_Z 39999
  /\ PrimFloat.leb (PrimFloat.abs (PrimFloat.sub t' t))
       (PrimFloat.div (Binary64.of_Z 1) (Binary64.samplingFrequencyHz c))
     = false
  /\ Binary64.toR t = 2%R
  /\ (1 / 20000 < Binary64.toR t - Binary64.toR t')%R.
Proof.
  cbv zeta.
  split; [ vm_compute; reflexivity | ].
  split; [ vm_compute; reflexivity | ].
  split; [ vm_compute; reflexivity | ].
  assert (FloatOps.Prim2SF (Binary64.endTimeSec Scenario.twoSeconds)
          = SpecFloat.S754_finite false 4503599627370496 (-51)) as Ht
    by (vm_compute; reflexivity).
  assert (FloatOps.Prim2SF
            (Binary64.getTimeFromIndex Scenario.twoSeconds
               (Binary64.getIndexFromTime Scenario.twoSeconds
                  (Binary64.endTimeSec Scenario.twoSeconds)))
          = SpecFloat.S754_finite false 9006974074759623 (-52)) as Ht'
    by (vm_compute; reflexivity).
  unfold Binary64.toR. rewrite Ht, Ht'.
  cbv beta iota zeta.
  change (0 <=? -51)%Z with false. change (0 <=? -52)%Z with false.
  change (2 ^ (- -51))%Z with 2251799813685248%Z.
  change (2 ^ (- -52))%Z with 4503599627370496%Z.
  cbv iota.
  split; lra.
Qed.

(** ** Frame access *)

(** C8.  [getFrameData timeIndex] is rejected exactly when [timeIndex <
    0] or [timeIndex >= numTimepoints], and then with the out-of-range
    error; for every other index it resolves to the store's answer to the
    one request for rows [[timeIndex, timeIndex + 1)] and columns [[0,
    numChannels)], handed on unchanged.  On the 20000-sample recording
    index 20000 is rejected, indices 0 and 19999 resolve. *)
Theorem getFrameData_range (c : MEAMovieClient.t) (timeIndex : Z) :
  let n := MEAMovieClient.numTimepoints c in
  ((exists e, MEAMovieClient.getFrameData c timeIndex = Rejected e)
   <-> (timeIndex < 0 \/ timeIndex >= n)%Z)
  /\ ((timeIndex < 0 \/ timeIndex >= n)%Z ->
      MEAMovieClient.getFrameData c timeIndex
      = Rejected (TimeIndexOutOfRange timeIndex n))
  /\ ((0 <= timeIndex < n)%Z ->
      MEAMovieClient.getFrameData c timeIndex
      = Resolved
          (Zarr.getData (MEAMovieClient.rawDataDataset c)
             (Zarr.mkOptions
                (Some [(timeIndex, timeIndex + 1)%Z;
                       (0%Z, MEAMovieClient.numChannels c)]))))
  /\ MEAMovieClient.getFrameData Scenario.recording 20000
     = Rejected (TimeIndexOutOfRange 20000 20000)
  /\ MEAMovieClient.getFrameData Scenario.recording 0
     = Resolved [0; 1; 2; 3]%Z
  /\ MEAMovieClient.getFrameData Scenario.recording 19999
     = Resolved [199990; 199991; 199992; 199993]%Z.
Proof.
  cbv zeta. unfold MEAMovieClient.getFrameData.
  split; [ | split; [ | split ] ].
  - split.
    + intros [e He].
      destruct (bool_decide (timeIndex < 0)%Z) eqn:Hlo;
        [ apply bool_decide_eq_true in Hlo; lia | ].
      destruct (bool_decide (timeIndex >= MEAMovieClient.numTimepoints c)%Z)
        eqn:Hhi; [ apply bool_decide_eq_true in Hhi; lia | ].
      discriminate He.
    + intros H. eexists.
      destruct H as [H | H].
      * rewrite (bool_decide_eq_true_2 _ H). reflexivity.
      * rewrite (bool_decide_eq_true_2 _ H), orb_true_r. reflexivity.
  - intros [H | H].
    + rewrite (bool_decide_eq_true_2 _ H). reflexivity.
    + rewrite (bool_decide_eq_true_2 _ H), orb_true_r. reflexivity.
  - intros [Hlo Hhi].
    rewrite !bool_decide_eq_false_2 by lia. reflexivity.
  - repeat split; reflexivity.
Qed.

(** The three indices of scenario D, through the general statement. *)
Lemma getFrameData_range_witness :
  MEAMovieClient.getFrameData Scenario.recording 20000
  = Rejected (TimeIndexOutOfRange 20000 20000)
  /\ MEAMovieClient.getFrameData Scenario.recording 19999
     = Resolved
         (Zarr.getData Scenario.rawData
            (Zarr.mkOptions (Some [(19999, 20000)%Z; (0, 4)%Z]))).
Proof.
  split.
  - destruct (getFrameData_range Scenario.recording 20000) as (_ & Hout & _).
    apply Hout. simpl. lia.
  - destruct (getFrameData_range Scenario.recording 19999) as (_ & _ & Hin & _).
    apply Hin. simpl. lia.
Defined.

(** ** Playback clock *)

Section playback.
Import MEAMovieView.

(** What [animate] leaves of the state when the end is reached. *)
Lemma animate_at_end c w d speed now st :
  (d + IZR (now - w) / 1000 * speed >= MEAMovieClient.endTimeSec c)%R ->
  animate c w d speed now st
  = mkState (client st) false (playbackSpeed st) (contrast st) None None
      (Some (MEAMovieClient.endTimeSec c)) false.
Proof.
  intros H. unfold animate. rewrite (bool_decide_eq_true_2 _ H). reflexivity.
Qed.

(** What it leaves before the end. *)
Lemma animate_before_end c w d speed now st :
  (d + IZR (now - w) / 1000 * speed < MEAMovieClient.endTimeSec c)%R ->
  animate c w d speed now st
  = mkState (client st) (isPlaying st) (playbackSpeed st) (contrast st)
      (playbackStartWallClockTime st) (playbackStartDataTime st)
      (Some (d + IZR (now - w) / 1000 * speed)%R) true.
Proof.
  intros H. unfold animate.
  rewrite bool_decide_eq_false_2 by lra. reflexivity.
Qed.

(** A stopped view does not move at a rendering opportunity. *)
Lemma advance_not_requested now st :
  animationFrameRequested st = false -> advance now st = st.
Proof. intros H. unfold advance. rewrite H. reflexivity. Qed.

End playback.

(** C1.  In the playing state (a client, both reference times, a
    registered animation callback) the advance at wall-clock time [now]
    computes [newDataTime = playbackStartDataTime + (now -
    playbackStartWallClockTime) / 1000 * playbackSpeed].  If that is at or
    past the end time, the current time becomes exactly the end time, the
    view stops, both reference times are cleared, no callback is
    registered and no later rendering opportunity changes the state;
    otherwise the current time becomes [newDataTime] unchanged, the view
    keeps playing from the same reference times and the next callback is
    registered.  On the recording with 20000 samples at 20000 Hz from time
    0, pressing play at speed 1 and advancing 250 ms later gives the
    current time 0.25, which is sample 5000. *)
Theorem advance_while_playing (st : MEAMovieView.State)
    (c : MEAMovieClient.t) (w : Z) (d : R) (now : Z) :
  MEAMovieView.client st = Some c ->
  MEAMovieView.isPlaying st = true ->
  MEAMovieView.playbackStartWallClockTime st = Some w ->
  MEAMovieView.playbackStartDataTime st = Some d ->
  MEAMovieView.animationFrameRequested st = true ->
  let newDataTime := (d + IZR (now - w) / 1000 * MEAMovieView.playbackSpeed st)%R in
  let st' := MEAMovieView.advance now st in
  ((newDataTime >= MEAMovieClient.endTimeSec c)%R ->
     MEAMovieView.currentTime st' = Some (MEAMovieClient.endTimeSec c)
     /\ MEAMovieView.isPlaying st' = false
     /\ MEAMovieView.playbackStartWallClockTime st' = None
     /\ MEAMovieView.playbackStartDataTime st' = None
     /\ MEAMovieView.animationFrameRequested st' = false
     /\ (forall later, MEAMovieView.advance later st' = st'))
  /\ ((newDataTime < MEAMovieClient.endTimeSec c)%R ->
     MEAMovieView.currentTime st' = Some newDataTime
     /\ MEAMovieView.isPlaying st' = true
     /\ MEAMovieView.playbackStartWallClockTime st' = Some w
     /\ MEAMovieView.playbackStartDataTime st' = Some d
     /\ MEAMovieView.animationFrameRequested st' = true)
  /\ MEAMovieView.playbackSpeed st' = MEAMovieView.playbackSpeed st
  /\ MEAMovieView.client st' = Some c
  /\ (forall t0 : Z,
        let playing :=
          MEAMovieView.handlePlayPause t0
            (MEAMovieView.handleSpeedChange 1 t0
               (MEAMovieView.loaded Scenario.recording)) in
        MEAMovieClient.endTimeSec Scenario.recording = 1%R
        /\ MEAMovieView.isPlaying playing = true
        /\ MEAMovieView.currentTime (MEAMovieView.advance (t0 + 250) playing)
           = Some (25 / 100)%R
        /\ MEAMovieClient.getIndexFromTime Scenario.recording (25 / 100)
           = 5000%Z).
Proof.
  intros Hc Hp Hw Hd Hr. cbv zeta.
  assert (MEAMovieView.advance now st
          = MEAMovieView.animate c w d (MEAMovieView.playbackSpeed st) now st)
    as Hadv.
  { unfold MEAMovieView.advance. rewrite Hr, Hc, Hw, Hd. reflexivity. }
  rewrite Hadv.
  split; [ | split; [ | split; [ | split ] ] ].
  - intros Hend. rewrite (animate_at_end _ _ _ _ _ _ Hend). simpl.
    split; [ reflexivity | ]. split; [ reflexivity | ].
    split; [ reflexivity | ]. split; [ reflexivity | ].
    split; [ reflexivity | ].
    intros later. apply advance_not_requested. reflexivity.
  - intros Hlt. rewrite (animate_before_end _ _ _ _ _ _ Hlt). simpl.
    repeat split; assumption.
  - unfold MEAMovieView.animate. case_bool_decide; reflexivity.
  - unfold MEAMovieView.animate. case_bool_decide; simpl; assumption.
  - intros t0. cbv zeta.
    assert (MEAMovieClient.endTimeSec Scenario.recording = 1%R) as Hend.
    { unfold MEAMovieClient.endTimeSec. simpl. field. }
    split; [ exact Hend | ].
    assert (MEAMovieView.handlePlayPause t0
              (MEAMovieView.handleSpeedChange 1 t0
                 (MEAMovieView.loaded Scenario.recording))
            = MEAMovieView.mkState (Some Scenario.recording) true 1
                MEAMovieView.DEFAULT_CONTRAST (Some t0) (Some 0%R)
                (Some 0%R) true) as Hplay.
    { unfold MEAMovieView.handlePlayPause, MEAMovieView.handleSpeedChange.
      simpl. rewrite bool_decide_eq_false_2 by (rewrite Hend; lra).
      reflexivity. }
    rewrite Hplay. split; [ reflexivity | ]. split.
    + unfold MEAMovieView.advance. simpl.
      rewrite animate_before_end.
      * simpl. f_equal. replace (t0 + 250 - t0)%Z with 250%Z by lia. lra.
      * rewrite Hend. replace (t0 + 250 - t0)%Z with 250%Z by lia. lra.
    + unfold MEAMovieClient.getIndexFromTime. simpl.
      rewrite (Math_round_unique _ 5000); [ reflexivity | lra ].
Qed.

(** Scenario A through the general statement: the view playing at speed
    1 from wall-clock time 1000, advanced at 1250. *)
Lemma advance_while_playing_witness :
  MEAMovieView.currentTime
    (MEAMovieView.advance 1250
       (MEAMovieView.mkState (Some Scenario.recording) true 1 50
          (Some 1000%Z) (Some 0%R) (Some 0%R) true))
  = Some (0 + IZR (1250 - 1000) / 1000 * 1)%R.
Proof.
  refine (proj1 (proj1 (proj2
    (advance_while_playing
       (MEAMovieView.mkState (Some Scenario.recording) true 1 50
          (Some 1000%Z) (Some 0%R) (Some 0%R) true)
       Scenario.recording 1000 0 1250
       eq_refl eq_refl eq_refl eq_refl eq_refl)) _)).
  unfold MEAMovieClient.endTimeSec. cbn -[IZR Z.sub].
  replace (1250 - 1000)%Z with 250%Z by lia. lra.
Defined.

(** C4.  Pressing pause while playing clears both reference times and
    the registered callback and changes nothing else: the current time,
    the speed, the contrast and the client are as before.  When the
    position is strictly before the end, pressing play again at that very
    instant re-anchors at (that instant, the current time), and the
    advance at that instant reports the time that was reported before the
    pause. *)
Theorem pause_then_resume (st : MEAMovieView.State) (c : MEAMovieClient.t)
    (t : R) (now : Z) :
  MEAMovieView.client st = Some c ->
  MEAMovieView.currentTime st = Some t ->
  MEAMovieView.isPlaying st = true ->
  let paused := MEAMovieView.handlePlayPause now st in
  let resumed := MEAMovieView.handlePlayPause now paused in
  (paused
   = MEAMovieView.mkState (MEAMovieView.client st) false
       (MEAMovieView.playbackSpeed st) (MEAMovieView.contrast st)
       None None (MEAMovieView.currentTime st) false)
  /\ ((t < MEAMovieClient.endTimeSec c)%R ->
      MEAMovieView.isPlaying resumed = true
      /\ MEAMovieView.playbackStartWallClockTime resumed = Some now
      /\ MEAMovieView.playbackStartDataTime resumed = Some t
      /\ MEAMovieView.currentTime resumed = Some t
      /\ MEAMovieView.animationFrameRequested resumed = true
      /\ MEAMovieView.currentTime (MEAMovieView.advance now resumed) = Some t).
Proof.
  intros Hc Ht Hp.
  destruct st as [cl pl speed contrast w d ct req].
  simpl in Hc, Ht, Hp. subst cl ct pl. cbv zeta.
  assert (MEAMovieView.handlePlayPause now
            (MEAMovieView.mkState (Some c) true speed contrast w d (Some t) req)
          = MEAMovieView.mkState (Some c) false speed contrast None None
              (Some t) false) as Hpause by reflexivity.
  rewrite Hpause. split; [ reflexivity | ].
  intros Hlt.
  assert (MEAMovieView.handlePlayPause now
            (MEAMovieView.mkState (Some c) false speed contrast None None
               (Some t) false)
          = MEAMovieView.mkState (Some c) true speed contrast
              (Some now) (Some t) (Some t) true) as Hresume.
  { unfold MEAMovieView.handlePlayPause. simpl.
    rewrite bool_decide_eq_false_2 by lra. reflexivity. }
  rewrite Hresume. simpl.
  repeat (split; [ reflexivity | ]).
  unfold MEAMovieView.advance. simpl.
  rewrite animate_before_end.
  - simpl. f_equal. rewrite Z.sub_diag. lra.
  - rewrite Z.sub_diag. lra.
Qed.

(** The scenario recording, playing at time 0.25 and paused and resumed
    at wall-clock time 1250. *)
Lemma pause_then_resume_witness :
  MEAMovieView.currentTime
    (MEAMovieView.advance 1250
       (MEAMovieView.handlePlayPause 1250
          (MEAMovieView.handlePlayPause 1250
             (MEAMovieView.mkState (Some Scenario.recording) true 1 50
                (Some 1000%Z) (Some 0%R) (Some (25 / 100)%R) true))))
  = Some (25 / 100)%R.
Proof.
  destruct (pause_then_resume
              (MEAMovieView.mkState (Some Scenario.recording) true 1 50
                 (Some 1000%Z) (Some 0%R) (Some (25 / 100)%R) true)
              Scenario.recording (25 / 100) 1250 eq_refl eq_refl eq_refl)
    as [_ Hresume].
  apply Hresume.
  unfold MEAMovieClient.endTimeSec. cbn -[IZR]. lra.
Defined.

(** ** Spike overlay tracker *)

Section overlay.
Import MEAMovieCanvas.

Lemma persistenceDurationMs_value : persistenceDurationMs = 500%R.
Proof. unfold persistenceDurationMs, SPIKE_PERSISTENCE_DURATION_SEC. lra. Qed.

Lemma expired_true now timestamp :
  expired now timestamp = true <-> (now - timestamp > 500)%Z.
Proof.
  unfold expired. rewrite bool_decide_eq_true, persistenceDurationMs_value.
  split; intros H.
  - apply Z.lt_gt, lt_IZR. lra.
  - apply Z.gt_lt, IZR_lt in H. lra.
Qed.

Lemma expired_false now timestamp :
  expired now timestamp = false <-> (now - timestamp <= 500)%Z.
Proof.
  rewrite <- not_true_iff_false, expired_true. lia.
Qed.

(** The tracked map after a refresh: the entries that have not expired. *)
Lemma updateSpikingChannels_lookup now st (ch : option Z) (timestamp : Z) :
  recentSpikes (updateSpikingChannels now st) !! ch = Some timestamp
  <-> recentSpikes st !! ch = Some timestamp /\ expired now timestamp = false.
Proof.
  unfold updateSpikingChannels. simpl.
  rewrite lookup_foldr_delete_Some. split.
  - intros [Hnot Hin]. split; [ exact Hin | ].
    destruct (expired now timestamp) eqn:Hex; [ | reflexivity ].
    exfalso. apply Hnot.
    apply list_elem_of_fmap. exists (ch, timestamp). split; [ reflexivity | ].
    apply list_elem_of_filter. split; [ exact Hex | ].
    apply elem_of_map_to_list, Hin.
  - intros [Hin Hex]. split; [ | exact Hin ].
    intros Hmem. apply list_elem_of_fmap in Hmem as ([ch' ts'] & Heq & Hmem).
    simpl in Heq. subst ch'.
    apply list_elem_of_filter in Hmem as [Hex' Hmem]. simpl in Hex'.
    apply elem_of_map_to_list in Hmem.
    rewrite Hin in Hmem. injection Hmem as <-. congruence.
Qed.

(** The displayed channels after a refresh: the keys of those entries. *)
Lemma updateSpikingChannels_active now st (ch : option Z) :
  ch ∈ spikingChannels (updateSpikingChannels now st)
  <-> exists timestamp,
        recentSpikes st !! ch = Some timestamp /\ expired now timestamp = false.
Proof.
  unfold updateSpikingChannels. simpl.
  rewrite list_elem_of_fmap. split.
  - intros ([ch' ts] & Heq & Hmem). simpl in Heq. subst ch'.
    apply list_elem_of_filter in Hmem as [Hex Hmem].
    apply elem_of_map_to_list in Hmem. eauto.
  - intros (ts & Hin & Hex). exists (ch, ts). split; [ reflexivity | ].
    apply list_elem_of_filter. split; [ exact Hex | ].
    apply elem_of_map_to_list, Hin.
Qed.

Lemma ringOpacity_playing (m : gmap (option Z) Z) now ch timestamp :
  m !! ch = Some timestamp ->
  ringOpacity true m now ch = (9 / 10 * (1 - IZR (now - timestamp) / 500))%R.
Proof.
  intros H. unfold ringOpacity. rewrite H, persistenceDurationMs_value.
  reflexivity.
Qed.

End overlay.

(** C3.  For a tracked entry first seen at [timestamp], rendered while
    playing at wall-clock time [now], the age in seconds being [a = (now -
    timestamp) / 1000]: the opacity is [0.9 * (1 - a / 0.5)]; it is
    strictly smaller at any later time; it is 0 exactly when the age is
    the 0.5 s window (500 ms); a refresh at an age above the window
    removes the entry from the tracked map and from the displayed
    channels, and a refresh at an age within the window keeps it in both.
    When not playing the opacity is 0.9 whatever the map and the time. *)
Theorem spike_overlay_fade (st : MEAMovieCanvas.State) (ch : option Z)
    (timestamp now : Z) :
  MEAMovieCanvas.recentSpikes st !! ch = Some timestamp ->
  let m := MEAMovieCanvas.recentSpikes st in
  let a := (IZR (now - timestamp) / 1000)%R in
  let st' := MEAMovieCanvas.updateSpikingChannels now st in
  MEAMovieCanvas.ringOpacity true m now ch
  = (9 / 10 * (1 - a / MEAMovieCanvas.SPIKE_PERSISTENCE_DURATION_SEC))%R
  /\ (forall later, (now < later)%Z ->
        (MEAMovieCanvas.ringOpacity true m later ch
         < MEAMovieCanvas.ringOpacity true m now ch)%R)
  /\ (MEAMovieCanvas.ringOpacity true m now ch = 0%R
      <-> a = MEAMovieCanvas.SPIKE_PERSISTENCE_DURATION_SEC)
  /\ ((a > MEAMovieCanvas.SPIKE_PERSISTENCE_DURATION_SEC)%R ->
      MEAMovieCanvas.recentSpikes st' !! ch = None
      /\ ch ∉ MEAMovieCanvas.spikingChannels st')
  /\ ((a <= MEAMovieCanvas.SPIKE_PERSISTENCE_DURATION_SEC)%R ->
      MEAMovieCanvas.recentSpikes st' !! ch = Some timestamp
      /\ ch ∈ MEAMovieCanvas.spikingChannels st')
  /\ (forall m' now', MEAMovieCanvas.ringOpacity false m' now' ch = (9 / 10)%R).
Proof.
  intros Hin. cbv zeta.
  unfold MEAMovieCanvas.SPIKE_PERSISTENCE_DURATION_SEC.
  rewrite (ringOpacity_playing _ now _ _ Hin).
  assert (forall z : Z, (IZR z / 1000 > 5 / 10)%R <-> (z > 500)%Z) as Hgt.
  { intros z. split; intros H.
    - apply Z.lt_gt, lt_IZR. lra.
    - apply Z.gt_lt, IZR_lt in H. lra. }
  split; [ lra | ]. split.
  { intros later Hlater. rewrite (ringOpacity_playing _ later _ _ Hin).
    assert (IZR (now - timestamp) < IZR (later - timestamp))%R
      by (apply IZR_lt; lia).
    lra. }
  split; [ split; intros H; lra | ]. split.
  - intros Hold. apply Hgt in Hold.
    apply expired_true in Hold. split.
    + destruct (MEAMovieCanvas.recentSpikes
                  (MEAMovieCanvas.updateSpikingChannels now st) !! ch)
        as [ts | ] eqn:Hlook; [ | reflexivity ].
      apply updateSpikingChannels_lookup in Hlook as [Hts Hex].
      rewrite Hin in Hts. injection Hts as <-. congruence.
    + intros Hmem. apply updateSpikingChannels_active in Hmem as (ts & Hts & Hex).
      rewrite Hin in Hts. injection Hts as <-. congruence.
  - split.
    + intros Hyoung.
      assert (MEAMovieCanvas.expired now timestamp = false) as Hex.
      { apply expired_false.
        destruct (Z_le_gt_dec (now - timestamp) 500) as [Hle | Hg];
          [ exact Hle | ].
        apply Hgt in Hg. lra. }
      split.
      * apply updateSpikingChannels_lookup. split; assumption.
      * apply updateSpikingChannels_active. eauto.
    + intros m' now'. unfold MEAMovieCanvas.ringOpacity.
      destruct (m' !! ch); reflexivity.
Qed.

(** In scenario B channel 3 is tracked from wall-clock time 1000. *)
Lemma spikeSeen_tracked :
  MEAMovieCanvas.recentSpikes Scenario.spikeSeen !! Some 3%Z = Some 1000%Z.
Proof.
  change Scenario.spikeSeen
    with (MEAMovieCanvas.updateSpikingChannels 1000
            (MEAMovieCanvas.mkState Scenario.showing100
               (Some [1000; 1001; 1002; 1003]%Z) [] None
               (<[Some 3%Z := 1000%Z]> ∅) [])).
  apply updateSpikingChannels_lookup. split.
  - reflexivity.
  - apply expired_false. lia.
Qed.

(** Scenario B through the general statement: opacity 0.45 after 250 ms,
    0 after 500 ms, eviction by the refresh at 501 ms. *)
Lemma spike_overlay_fade_witness :
  MEAMovieCanvas.ringOpacity true
    (MEAMovieCanvas.recentSpikes Scenario.spikeSeen) 1250 (Some 3%Z)
  = (45 / 100)%R
  /\ MEAMovieCanvas.ringOpacity true
       (MEAMovieCanvas.recentSpikes Scenario.spikeSeen) 1500 (Some 3%Z)
     = 0%R
  /\ MEAMovieCanvas.recentSpikes
       (MEAMovieCanvas.updateSpikingChannels 1501 Scenario.spikeSeen)
       !! Some 3%Z = None.
Proof.
  split; [ | split ].
  - destruct (spike_overlay_fade Scenario.spikeSeen (Some 3%Z) 1000 1250
                spikeSeen_tracked) as (Hop & _).
    rewrite Hop. unfold MEAMovieCanvas.SPIKE_PERSISTENCE_DURATION_SEC.
    replace (1250 - 1000)%Z with 250%Z by lia. lra.
  - destruct (spike_overlay_fade Scenario.spikeSeen (Some 3%Z) 1000 1500
                spikeSeen_tracked) as (_ & _ & Hzero & _).
    apply Hzero. unfold MEAMovieCanvas.SPIKE_PERSISTENCE_DURATION_SEC.
    replace (1500 - 1000)%Z with 500%Z by lia. lra.
  - destruct (spike_overlay_fade Scenario.spikeSeen (Some 3%Z) 1000 1501
                spikeSeen_tracked) as (_ & _ & _ & Hevict & _).
    apply Hevict. unfold MEAMovieCanvas.SPIKE_PERSISTENCE_DURATION_SEC.
    replace (1501 - 1000)%Z with 501%Z by lia. lra.
Defined.

(** ** Loading a recording *)

Section loading.
Import Zarr MEAMovieClient.

(** A resolved [create] returns a complete client. *)
Lemma create_resolved (g : ZarrGroup) (c : MEAMovieClient.t) :
  create g = Resolved c -> loadedFrom g c.
Proof.
  unfold create, loadedFrom.
  destruct (getDataset g "raw_data") as [raw | ]; simpl; [ | discriminate ].
  destruct (attrsInt g !! "num_timepoints") as [nt | ]; [ | discriminate ].
  destruct (attrsInt g !! "num_channels") as [nc | ]; [ | discriminate ].
  destruct (attrsNum g !! "sampling_frequency_hz") as [fs | ]; [ | discriminate ].
  destruct (attrsNum g !! "start_time_sec") as [st | ]; [ | discriminate ].
  destruct (attrsNum g !! "data_min") as [dmin | ]; [ | discriminate ].
  destruct (attrsNum g !! "data_max") as [dmax | ]; [ | discriminate ].
  destruct (attrsNum g !! "data_median") as [dmed | ]; [ | discriminate ].
  set (ns := default 0%Z (attrsInt g !! "num_spikes")).
  unfold spikesLoaded.
  destruct (bool_decide (ns > 0)%Z) eqn:Hns.
  - unfold loadSpikeData. simpl.
    destruct (getDataset g "spike_channel_indices") as [chds | ]; simpl;
      [ | discriminate ].
    destruct (getDataset g "spike_frame_indices") as [frds | ]; simpl;
      [ | discriminate ].
    intros [= <-]. simpl. fold ns. rewrite Hns.
    repeat (split; [ reflexivity | ]).
    exists chds, frds. repeat split; reflexivity.
  - intros [= <-]. simpl. fold ns. rewrite Hns.
    repeat split; reflexivity.
Qed.

(** A rejected [create] rejects with one of four errors. *)
Lemma create_rejected (g : ZarrGroup) (e : Error) :
  create g = Rejected e ->
  e = NoRawDataDataset \/ e = MissingRequiredAttributes
  \/ e = NoSpikeChannelIndicesDataset \/ e = NoSpikeFrameIndicesDataset.
Proof.
  unfold create.
  destruct (getDataset g "raw_data") as [raw | ]; simpl;
    [ | intros [= <-]; auto ].
  destruct (attrsInt g !! "num_timepoints"); [ | intros [= <-]; auto ].
  destruct (attrsInt g !! "num_channels"); [ | intros [= <-]; auto ].
  destruct (attrsNum g !! "sampling_frequency_hz"); [ | intros [= <-]; auto ].
  destruct (attrsNum g !! "start_time_sec"); [ | intros [= <-]; auto ].
  destruct (attrsNum g !! "data_min"); [ | intros [= <-]; auto ].
  destruct (attrsNum g !! "data_max"); [ | intros [= <-]; auto ].
  destruct (attrsNum g !! "data_median"); [ | intros [= <-]; auto ].
  case_bool_decide; [ | discriminate ].
  unfold loadSpikeData. simpl.
  destruct (getDataset g "spike_channel_indices"); simpl;
    [ | intros [= <-]; auto ].
  destruct (getDataset g "spike_frame_indices"); simpl;
    [ discriminate | intros [= <-]; auto ].
Qed.

(** With an attribute missing, [create] rejects: for want of the raw
    data set if the group has none, for want of the attribute otherwise. *)
Lemma create_missing (g : ZarrGroup) :
  missingAttribute g ->
  create g
  = match getDataset g "raw_data" with
    | None => Rejected NoRawDataDataset
    | Some _ => Rejected MissingRequiredAttributes
    end.
Proof.
  unfold missingAttribute, create.
  intros Hmiss.
  destruct (getDataset g "raw_data") as [raw | ]; simpl; [ | reflexivity ].
  destruct Hmiss as [H | [H | [H | [H | [H | [H | H]]]]]]; rewrite H;
    repeat (match goal with
            | |- context [match ?x with Some _ => _ | None => _ end] =>
                destruct x
            end); reflexivity.
Qed.

End loading.

(** C7, as the code has it.  With a required attribute missing [create]
    always rejects, but the raw data set is looked up before the
    attributes are checked: the error is the missing-attributes error
    when the group has a [raw_data] data set and the missing-data-set
    error when it has none.  Whatever the group, [create] either rejects
    with one of its four load errors or resolves to a complete client:
    the seven attributes and the raw data set of the group, and the spike
    arrays with their index when the spike count is positive. *)
Theorem create_all_or_nothing (g : Zarr.ZarrGroup) :
  (missingAttribute g ->
   MEAMovieClient.create g
   = match Zarr.getDataset g "raw_data" with
     | None => Rejected NoRawDataDataset
     | Some _ => Rejected MissingRequiredAttributes
     end)
  /\ (forall c, MEAMovieClient.create g = Resolved c -> loadedFrom g c)
  /\ (forall e, MEAMovieClient.create g = Rejected e ->
        e = NoRawDataDataset \/ e = MissingRequiredAttributes
        \/ e = NoSpikeChannelIndicesDataset \/ e = NoSpikeFrameIndicesDataset).
Proof.
  split; [ apply create_missing | ].
  split; [ apply create_resolved | apply create_rejected ].
Qed.

(** The scenario store without its median is rejected for the missing
    attribute; the full scenario store yields a complete client. *)
Lemma create_all_or_nothing_witness :
  MEAMovieClient.create Scenario.noMedianGroup
  = Rejected MissingRequiredAttributes
  /\ loadedFrom Scenario.group Scenario.recording.
Proof.
  split.
  - refine (proj1 (create_all_or_nothing Scenario.noMedianGroup) _).
    unfold missingAttribute. do 6 right. reflexivity.
  - exact (proj1 (proj2 (create_all_or_nothing Scenario.group))
             Scenario.recording eq_refl).
Defined.

(** C7 as stated fails on a group that has neither the attributes nor
    the raw data set: the rejection is not the missing-attributes error. *)
Lemma create_missing_attribute_other_error :
  missingAttribute Scenario.emptyGroup
  /\ MEAMovieClient.create Scenario.emptyGroup = Rejected NoRawDataDataset
  /\ MEAMovieClient.create Scenario.emptyGroup
     <> Rejected MissingRequiredAttributes.
Proof.
  split; [ left; reflexivity | ].
  split; [ reflexivity | discriminate ].
Qed.

(** ** The spike index *)

Section spike_index.
Import Zarr MEAMovieClient.

Lemma set_add_elem (x y : option Z) (s : list (option Z)) :
  y ∈ JS.set_add x s <-> y = x \/ y ∈ s.
Proof.
  unfold JS.set_add. case_bool_decide as Hin.
  - split; [ auto | ]. intros [-> | H]; assumption.
  - rewrite elem_of_app, list_elem_of_singleton. tauto.
Qed.

Lemma set_add_NoDup (x : option Z) (s : list (option Z)) :
  NoDup s -> NoDup (JS.set_add x s).
Proof.
  intros Hs. unfold JS.set_add. case_bool_decide as Hin; [ exact Hs | ].
  apply NoDup_app. split; [ exact Hs | ]. split.
  - intros y Hy Hy'. apply list_elem_of_singleton in Hy'. subst y. auto.
  - apply NoDup_singleton.
Qed.

(** The set at key [f] after one more iteration of the loop. *)
Lemma addSpike_lookup (frames channels : TypedArray)
    (m : gmap (option Z) (list (option Z))) (i : nat) (f : option Z) :
  default [] (addSpike frames channels m i !! f)
  = if decide (JS.read frames i = f)
    then JS.set_add (JS.read channels i) (default [] (m !! f))
    else default [] (m !! f).
Proof.
  unfold addSpike. cbv zeta.
  set (k := JS.read frames i).
  destruct (decide (k = f)) as [-> | Hne].
  - rewrite lookup_insert_eq. simpl.
    case_bool_decide as Hsome; [ reflexivity | ].
    rewrite lookup_insert_eq. simpl.
    apply eq_None_not_Some in Hsome. rewrite Hsome. reflexivity.
  - rewrite lookup_insert_ne by exact Hne.
    case_bool_decide; [ reflexivity | ].
    rewrite lookup_insert_ne by exact Hne. reflexivity.
Qed.

Lemma buildSpikesByFrame_S (frames channels : TypedArray) (n : nat) :
  fold_left (addSpike frames channels) (seq 0 (S n)) ∅
  = addSpike frames channels
      (fold_left (addSpike frames channels) (seq 0 n) ∅) n.
Proof. rewrite seq_S, fold_left_app. reflexivity. Qed.

(** The loop invariant: after [n] iterations the set at key [f] holds
    the channels read at the positions below [n] whose frame is [f]. *)
Lemma buildSpikesByFrame_elem (frames channels : TypedArray) (n : nat)
    (f x : option Z) :
  x ∈ default [] (fold_left (addSpike frames channels) (seq 0 n) ∅ !! f)
  <-> exists k : nat,
        (k < n)%nat /\ JS.read frames k = f /\ JS.read channels k = x.
Proof.
  induction n as [ | n IH].
  - simpl. rewrite lookup_empty. simpl. split.
    + intros H. inversion H.
    + intros (k & Hk & _). lia.
  - rewrite buildSpikesByFrame_S, addSpike_lookup.
    destruct (decide (JS.read frames n = f)) as [Hf | Hf].
    + rewrite set_add_elem, IH. split.
      * intros [-> | (k & Hk & Hfk & Hck)].
        -- exists n. split; [ lia | ]. split; [ exact Hf | reflexivity ].
        -- exists k. split; [ lia | ]. split; assumption.
      * intros (k & Hk & Hfk & Hck).
        destruct (decide (k = n)) as [-> | Hkn]; [ left; auto | right ].
        exists k. split; [ lia | ]. split; assumption.
    + rewrite IH. split.
      * intros (k & Hk & Hfk & Hck). exists k. split; [ lia | ].
        split; assumption.
      * intros (k & Hk & Hfk & Hck).
        destruct (decide (k = n)) as [-> | Hkn]; [ contradiction | ].
        exists k. split; [ lia | ]. split; assumption.
Qed.

Lemma buildSpikesByFrame_NoDup (frames channels : TypedArray) (n : nat)
    (f : option Z) :
  NoDup (default [] (fold_left (addSpike frames channels) (seq 0 n) ∅ !! f)).
Proof.
  induction n as [ | n IH].
  - simpl. rewrite lookup_empty. simpl. apply NoDup_nil_2.
  - rewrite buildSpikesByFrame_S, addSpike_lookup.
    destruct (decide (JS.read frames n = f)); [ | exact IH ].
    apply set_add_NoDup, IH.
Qed.

Lemma getSpikingChannels_default (c : MEAMovieClient.t) (frameIndex : Z) :
  getSpikingChannels c frameIndex
  = match spikesByFrame c with
    | None => []
    | Some m => default [] (m !! Some frameIndex)
    end.
Proof.
  unfold getSpikingChannels. destruct (spikesByFrame c) as [m | ];
    [ | reflexivity ].
  destruct (m !! Some frameIndex); reflexivity.
Qed.

End spike_index.

(** C9.  For a client obtained from [create] and every frame index,
    [getSpikingChannels] lists, without repetition, exactly the values
    [x] for which some position [k < numSpikes] has [spikeFrameIndices[k]]
    equal to the frame index and [spikeChannelIndices[k]] equal to [x]
    (the arrays being those of the store when there are spikes).  The
    list is empty when no position below [numSpikes] holds the frame
    index, and when the recording has no spikes ([numSpikes <= 0]). *)
Theorem getSpikingChannels_exact (g : Zarr.ZarrGroup) (c : MEAMovieClient.t)
    (frameIndex : Z) :
  MEAMovieClient.create g = Resolved c ->
  let frames := default [] (MEAMovieClient.spikeFrameIndices c) in
  let channels := default [] (MEAMovieClient.spikeChannelIndices c) in
  let n := MEAMovieClient.numSpikes c in
  (forall x : option Z,
     x ∈ MEAMovieClient.getSpikingChannels c frameIndex
     <-> exists k : nat,
           (Z.of_nat k < n)%Z
           /\ JS.read frames k = Some frameIndex
           /\ JS.read channels k = x)
  /\ NoDup (MEAMovieClient.getSpikingChannels c frameIndex)
  /\ ((forall k : nat, (Z.of_nat k < n)%Z ->
         JS.read frames k <> Some frameIndex) ->
      MEAMovieClient.getSpikingChannels c frameIndex = [])
  /\ ((n <= 0)%Z -> MEAMovieClient.getSpikingChannels c frameIndex = [])
  /\ spikesLoaded g n c.
Proof.
  intros Hcreate. cbv zeta.
  apply create_resolved in Hcreate.
  destruct Hcreate as (_ & _ & _ & _ & _ & _ & _ & _ & _ & _ & Hspikes).
  assert (forall x : option Z,
            x ∈ MEAMovieClient.getSpikingChannels c frameIndex
            <-> exists k : nat,
                  (Z.of_nat k < MEAMovieClient.numSpikes c)%Z
                  /\ JS.read (default [] (MEAMovieClient.spikeFrameIndices c)) k
                     = Some frameIndex
                  /\ JS.read (default [] (MEAMovieClient.spikeChannelIndices c)) k
                     = x) as Hexact.
  { intros x. rewrite getSpikingChannels_default.
    unfold spikesLoaded in Hspikes.
    destruct (bool_decide (MEAMovieClient.numSpikes c > 0)%Z) eqn:Hn.
    - destruct Hspikes as (chds & frds & _ & _ & -> & -> & ->). simpl.
      unfold MEAMovieClient.buildSpikesByFrame.
      rewrite buildSpikesByFrame_elem.
      apply bool_decide_eq_true in Hn.
      split; intros (k & Hk & Hrest); exists k; (split; [ lia | exact Hrest ]).
    - destruct Hspikes as (-> & -> & ->). simpl.
      apply bool_decide_eq_false in Hn. split.
      + intros H. inversion H.
      + intros (k & Hk & _). lia. }
  assert (NoDup (MEAMovieClient.getSpikingChannels c frameIndex)) as Hnodup.
  { rewrite getSpikingChannels_default.
    unfold spikesLoaded in Hspikes.
    destruct (bool_decide (MEAMovieClient.numSpikes c > 0)%Z).
    - destruct Hspikes as (chds & frds & _ & _ & _ & _ & ->).
      apply buildSpikesByFrame_NoDup.
    - destruct Hspikes as (_ & _ & ->). apply NoDup_nil_2. }
  assert ((forall k : nat,
             (Z.of_nat k < MEAMovieClient.numSpikes c)%Z ->
             JS.read (default [] (MEAMovieClient.spikeFrameIndices c)) k
             <> Some frameIndex) ->
          MEAMovieClient.getSpikingChannels c frameIndex = []) as Hnone.
  { intros Hno.
    destruct (MEAMovieClient.getSpikingChannels c frameIndex) as [ | x l] eqn:Hl;
      [ reflexivity | ].
    exfalso.
    assert (x ∈ x :: l) as Hx by apply list_elem_of_here.
    apply Hexact in Hx as (k & Hk & Hf & _).
    exact (Hno k Hk Hf). }
  split; [ exact Hexact | ]. split; [ exact Hnodup | ].
  split; [ exact Hnone | ]. split; [ | exact Hspikes ].
  intros Hle. apply Hnone. intros k Hk. lia.
Qed.

(** On the scenario recording the channels spiking at sample 100 are
    channel 3 alone, read at position 0 of the two arrays. *)
Lemma getSpikingChannels_exact_witness :
  Some 3%Z ∈ MEAMovieClient.getSpikingChannels Scenario.recording 100
  /\ MEAMovieClient.getSpikingChannels Scenario.recording 101 = [].
Proof.
  split.
  - apply (proj1 (getSpikingChannels_exact Scenario.group Scenario.recording
                    100 scenario_created)).
    exists 0%nat. simpl. split; [ lia | ]. split; reflexivity.
  - apply (proj1 (proj2 (proj2
             (getSpikingChannels_exact Scenario.group Scenario.recording
                101 scenario_created)))).
    intros k Hk. simpl in Hk.
    destruct k as [ | k]; [ discriminate | lia ].
Defined.

(** ** Marker radius *)

Section radius.
Import MEAMovieCanvas.
Variable coords : list R.

Lemma electrodeDistance_read (i j : nat) (x1 y1 x2 y2 : R) :
  coords !! (i * 2)%nat = Some x1 -> coords !! (i * 2 + 1)%nat = Some y1 ->
  coords !! (j * 2)%nat = Some x2 -> coords !! (j * 2 + 1)%nat = Some y2 ->
  electrodeDistance coords i j
  = JS.Fin (sqrt ((x2 - x1) ^ 2 + (y2 - y1) ^ 2)).
Proof.
  intros H1 H2 H3 H4. unfold electrodeDistance, coord, JS.read.
  rewrite H1, H2, H3, H4. simpl.
  rewrite bool_decide_eq_false_2.
  - do 2 f_equal. ring.
  - pose proof (Rle_0_sqr (x2 + - x1)). pose proof (Rle_0_sqr (y2 + - y1)).
    unfold Rsqr in *. lra.
Qed.

(** A distance is [NaN] (a coordinate is missing) or a finite number
    that is not negative. *)
Lemma electrodeDistance_shape (i j : nat) :
  electrodeDistance coords i j = JS.NaN
  \/ exists d, (0 <= d)%R /\ electrodeDistance coords i j = JS.Fin d.
Proof.
  unfold electrodeDistance, coord, JS.read.
  destruct (coords !! (i * 2)%nat) as [x1 | ]; simpl;
  destruct (coords !! (i * 2 + 1)%nat) as [y1 | ]; simpl;
  destruct (coords !! (j * 2)%nat) as [x2 | ]; simpl;
  destruct (coords !! (j * 2 + 1)%nat) as [y2 | ]; simpl; auto.
  case_bool_decide; [ auto | ].
  right. eexists. split; [ apply sqrt_pos | reflexivity ].
Qed.

Lemma leastApart_nil : leastApart coords [] JS.PInf.
Proof. intros p d Hp. inversion Hp. Qed.

Lemma leastApart_step (ps : list (nat * nat)) (minDist : JS.jsnum) (i j : nat) :
  leastApart coords ps minDist ->
  leastApart coords (ps ++ [(i, j)]) (closer coords i minDist j).
Proof.
  intros Hinv. unfold closer. cbv zeta.
  destruct (electrodeDistance_shape i j) as [Hnan | (d & Hd & Hfin)].
  - (* a missing coordinate: the pair is skipped *)
    rewrite Hnan. simpl.
    destruct minDist as [r | | | ]; simpl in *; try contradiction.
    + destruct Hinv as (Hr & (p & Hp & Hpr) & Hmin). split; [ exact Hr | ].
      split.
      * exists p. split; [ apply elem_of_app; auto | exact Hpr ].
      * intros q e Hq Hqe. apply elem_of_app in Hq as [Hq | Hq];
          [ exact (Hmin q e Hq Hqe) | ].
        apply list_elem_of_singleton in Hq. subst q.
        destruct Hqe as [Hqe _]. simpl in Hqe. congruence.
    + intros q e Hq Hqe. apply elem_of_app in Hq as [Hq | Hq];
        [ exact (Hinv q e Hq Hqe) | ].
      apply list_elem_of_singleton in Hq. subst q.
      destruct Hqe as [Hqe _]. simpl in Hqe. congruence.
  - rewrite Hfin. unfold JS.js_gt. simpl.
    destruct minDist as [r | | | ]; simpl in *; try contradiction.
    + destruct Hinv as (Hr & (p & Hp & Hpr) & Hmin).
      case_bool_decide as Hpos; simpl; [ case_bool_decide as Hlt | ]; simpl.
      * split; [ exact Hpos | ]. split.
        -- exists (i, j). split; [ apply elem_of_app; right; left | exact Hfin ].
        -- intros q e Hq Hqe. apply elem_of_app in Hq as [Hq | Hq].
           ++ pose proof (Hmin q e Hq Hqe). lra.
           ++ apply list_elem_of_singleton in Hq. subst q.
              destruct Hqe as [Hqe _]. simpl in Hqe.
              rewrite Hfin in Hqe. injection Hqe as <-. lra.
      * split; [ exact Hr | ]. split.
        -- exists p. split; [ apply elem_of_app; auto | exact Hpr ].
        -- intros q e Hq Hqe. apply elem_of_app in Hq as [Hq | Hq];
             [ exact (Hmin q e Hq Hqe) | ].
           apply list_elem_of_singleton in Hq. subst q.
           destruct Hqe as [Hqe _]. simpl in Hqe.
           rewrite Hfin in Hqe. injection Hqe as <-. lra.
      * split; [ exact Hr | ]. split.
        -- exists p. split; [ apply elem_of_app; auto | exact Hpr ].
        -- intros q e Hq Hqe. apply elem_of_app in Hq as [Hq | Hq];
             [ exact (Hmin q e Hq Hqe) | ].
           apply list_elem_of_singleton in Hq. subst q.
           destruct Hqe as [Hqe He]. simpl in Hqe.
           rewrite Hfin in Hqe. injection Hqe as <-. lra.
    + case_bool_decide as Hpos; simpl.
      * split; [ exact Hpos | ]. split.
        -- exists (i, j). split; [ apply elem_of_app; right; left | exact Hfin ].
        -- intros q e Hq Hqe. apply elem_of_app in Hq as [Hq | Hq].
           ++ exfalso. exact (Hinv q e Hq Hqe).
           ++ apply list_elem_of_singleton in Hq. subst q.
              destruct Hqe as [Hqe _]. simpl in Hqe.
              rewrite Hfin in Hqe. injection Hqe as <-. lra.
      * intros q e Hq Hqe. apply elem_of_app in Hq as [Hq | Hq];
          [ exact (Hinv q e Hq Hqe) | ].
        apply list_elem_of_singleton in Hq. subst q.
        destruct Hqe as [Hqe He]. simpl in Hqe.
        rewrite Hfin in Hqe. injection Hqe as <-. lra.
Qed.

Lemma leastApart_fold (ps : list (nat * nat)) :
  leastApart coords ps
    (fold_left (fun m p => closer coords p.1 m p.2) ps JS.PInf).
Proof.
  induction ps as [ | [i j] ps IH] using rev_ind.
  - apply leastApart_nil.
  - rewrite fold_left_app. simpl. apply leastApart_step, IH.
Qed.

End radius.

Section radius_loops.
Import MEAMovieCanvas.

(** The two nested loops visit [electrodePairs] in order. *)
Lemma nested_fold_pairs {A} (f : nat -> A -> nat -> A) (g : nat -> list nat)
    (l : list nat) (init : A) :
  fold_left (fun m i => fold_left (f i) (g i) m) l init
  = fold_left (fun m p => f p.1 m p.2)
      (flat_map (fun i => pair i <$> g i) l) init.
Proof.
  revert init. induction l as [ | i l IH]; intros init; [ reflexivity | ].
  simpl. rewrite fold_left_app, IH. f_equal.
  generalize init. induction (g i) as [ | j js IHj]; intros m;
    [ reflexivity | ].
  simpl. apply IHj.
Qed.

Lemma electrodePairs_elem (n i j : nat) :
  (i, j) ∈ electrodePairs n <-> (i < j < n)%nat.
Proof.
  unfold electrodePairs. rewrite list_elem_of_In, in_flat_map. split.
  - intros (k & Hk & Hin). apply in_seq in Hk.
    apply list_elem_of_In, list_elem_of_fmap in Hin as (j' & [= -> ->] & Hj).
    apply list_elem_of_In, in_seq in Hj. lia.
  - intros Hij. exists i. split; [ apply in_seq; lia | ].
    apply list_elem_of_In, list_elem_of_fmap. exists j.
    split; [ reflexivity | ]. apply list_elem_of_In, in_seq. lia.
Qed.

Lemma calculateMinElectrodeDistance_pairs (coords : list R) :
  calculateMinElectrodeDistance coords
  = match fold_left (fun m p => closer coords p.1 m p.2)
            (electrodePairs (electrodeCount coords)) JS.PInf with
    | JS.PInf => JS.Fin 10
    | m => m
    end.
Proof.
  unfold calculateMinElectrodeDistance, electrodePairs. cbv zeta.
  rewrite (nested_fold_pairs (closer coords)
             (fun i => seq (i + 1) (electrodeCount coords - (i + 1)))).
  destruct (fold_left _ _ _); reflexivity.
Qed.

(** What [calculateMinElectrodeDistance] returns: the least positive
    distance over the pairs of electrodes, or 10 when no pair is a
    positive distance apart. *)
Lemma calculateMinElectrodeDistance_least (coords : list R) :
  exists minDist : R,
    calculateMinElectrodeDistance coords = JS.Fin minDist
    /\ (0 < minDist)%R
    /\ ((exists i j, (i < j < electrodeCount coords)%nat
                     /\ electrodeDistance coords i j = JS.Fin minDist)
        \/ (minDist = 10%R
            /\ forall i j d, (i < j < electrodeCount coords)%nat ->
                 ~ apart coords i j d))
    /\ (forall i j d, (i < j < electrodeCount coords)%nat ->
          apart coords i j d -> (minDist <= d)%R).
Proof.
  rewrite calculateMinElectrodeDistance_pairs.
  pose proof (leastApart_fold coords (electrodePairs (electrodeCount coords)))
    as Hinv.
  destruct (fold_left _ _ _) as [r | | | ]; simpl in Hinv; try contradiction.
  - destruct Hinv as (Hr & ([i j] & Hp & Hpr) & Hmin).
    exists r. split; [ reflexivity | ]. split; [ exact Hr | ]. split.
    + left. exists i, j. split; [ apply electrodePairs_elem, Hp | exact Hpr ].
    + intros i' j' d Hij Hd.
      apply (Hmin (i', j') d); [ apply electrodePairs_elem, Hij | exact Hd ].
  - exists 10%R. split; [ reflexivity | ]. split; [ lra | ]. split.
    + right. split; [ reflexivity | ]. intros i j d Hij.
      apply (Hinv (i, j) d), electrodePairs_elem, Hij.
    + intros i j d Hij Hd. exfalso.
      apply (Hinv (i, j) d); [ apply electrodePairs_elem, Hij | exact Hd ].
Qed.

(** The distance between two drawn centres is the distance between the
    electrodes times the scale. *)
Lemma drawn_distance (scale offsetX offsetY x1 y1 x2 y2 : R) :
  (0 <= scale)%R ->
  sqrt (((x2 * scale + offsetX) - (x1 * scale + offsetX)) ^ 2
        + ((y2 * scale + offsetY) - (y1 * scale + offsetY)) ^ 2)
  = (sqrt ((x2 - x1) ^ 2 + (y2 - y1) ^ 2) * scale)%R.
Proof.
  intros Hs.
  replace (((x2 * scale + offsetX) - (x1 * scale + offsetX)) ^ 2
           + ((y2 * scale + offsetY) - (y1 * scale + offsetY)) ^ 2)%R
    with (((x2 - x1) ^ 2 + (y2 - y1) ^ 2) * (scale * scale))%R by ring.
  rewrite sqrt_mult_alt.
  - rewrite (sqrt_square scale Hs). reflexivity.
  - pose proof (pow2_ge_0 (x2 - x1)). pose proof (pow2_ge_0 (y2 - y1)). lra.
Qed.

Lemma distinct_positions_apart (x1 y1 x2 y2 : R) :
  (x1, y1) <> (x2, y2) -> (0 < sqrt ((x2 - x1) ^ 2 + (y2 - y1) ^ 2))%R.
Proof.
  intros Hne. apply sqrt_lt_R0.
  destruct (Req_dec x1 x2) as [-> | Hx].
  - destruct (Req_dec y1 y2) as [-> | Hy]; [ contradiction Hne; reflexivity | ].
    assert (0 < (y2 - y1) ^ 2)%R
      by (rewrite <- Rsqr_pow2; apply Rlt_0_sqr; lra).
    pose proof (pow2_ge_0 (x2 - x2)). lra.
  - assert (0 < (x2 - x1) ^ 2)%R
      by (rewrite <- Rsqr_pow2; apply Rlt_0_sqr; lra).
    pose proof (pow2_ge_0 (y2 - y1)). lra.
Qed.

End radius_loops.

Section radius_examples.
Import MEAMovieCanvas.

Lemma electrodeRadius_value (coords : list R) (minDist : R) :
  calculateMinElectrodeDistance coords = JS.Fin minDist ->
  electrodeRadius coords = JS.Fin (minDist * (95 / 100) / 2).
Proof.
  intros H. unfold electrodeRadius. rewrite H. simpl.
  rewrite bool_decide_eq_false_2 by lra. reflexivity.
Qed.

Lemma sqrt_2_gt_1 : (1 < sqrt 2)%R.
Proof. rewrite <- sqrt_1 at 1. apply sqrt_lt_1; lra. Qed.

Lemma three_electrode_pairs (i j : nat) :
  (i < j < 3)%nat ->
  (i = 0 /\ j = 1)%nat \/ (i = 0 /\ j = 2)%nat \/ (i = 1 /\ j = 2)%nat.
Proof. lia. Qed.

Lemma corner_distances :
  electrodeDistance Scenario.corner 0 1 = JS.Fin 1
  /\ electrodeDistance Scenario.corner 0 2 = JS.Fin 1
  /\ electrodeDistance Scenario.corner 1 2 = JS.Fin (sqrt 2).
Proof.
  repeat split;
    (erewrite electrodeDistance_read by reflexivity; f_equal).
  - transitivity (sqrt 1); [ f_equal; ring | apply sqrt_1 ].
  - transitivity (sqrt 1); [ f_equal; ring | apply sqrt_1 ].
  - f_equal. ring.
Qed.

Lemma coincident_distances :
  electrodeDistance Scenario.coincident 0 1 = JS.Fin 0
  /\ electrodeDistance Scenario.coincident 0 2 = JS.Fin 1
  /\ electrodeDistance Scenario.coincident 1 2 = JS.Fin 1.
Proof.
  repeat split;
    (erewrite electrodeDistance_read by reflexivity; f_equal).
  - transitivity (sqrt 0); [ f_equal; ring | apply sqrt_0 ].
  - transitivity (sqrt 1); [ f_equal; ring | apply sqrt_1 ].
  - transitivity (sqrt 1); [ f_equal; ring | apply sqrt_1 ].
Qed.

(** Scenario C: the least distance is 1. *)
Lemma corner_minDist :
  calculateMinElectrodeDistance Scenario.corner = JS.Fin 1.
Proof.
  destruct corner_distances as (H01 & H02 & H12).
  destruct (calculateMinElectrodeDistance_least Scenario.corner)
    as (m & Hm & Hpos & Hattained & Hleast).
  change (electrodeCount Scenario.corner) with 3%nat in *.
  assert (m <= 1)%R as Hle.
  { apply (Hleast 0%nat 1%nat); [ lia | ]. split; [ exact H01 | lra ]. }
  rewrite Hm. f_equal.
  destruct Hattained as [(i & j & Hij & Hd) | [_ Hnone]].
  - destruct (three_electrode_pairs i j Hij) as [[-> ->] | [[-> ->] | [-> ->]]].
    + rewrite H01 in Hd. injection Hd as <-. reflexivity.
    + rewrite H02 in Hd. injection Hd as <-. reflexivity.
    + rewrite H12 in Hd. injection Hd as <-.
      pose proof sqrt_2_gt_1. lra.
  - exfalso. apply (Hnone 0%nat 1%nat 1%R); [ lia | ].
    split; [ exact H01 | lra ].
Qed.

(** With two electrodes on one spot the least distance is still 1: the
    pair at distance 0 does not count. *)
Lemma coincident_minDist :
  calculateMinElectrodeDistance Scenario.coincident = JS.Fin 1.
Proof.
  destruct coincident_distances as (H01 & H02 & H12).
  destruct (calculateMinElectrodeDistance_least Scenario.coincident)
    as (m & Hm & Hpos & Hattained & Hleast).
  change (electrodeCount Scenario.coincident) with 3%nat in *.
  assert (m <= 1)%R as Hle.
  { apply (Hleast 0%nat 2%nat); [ lia | ]. split; [ exact H02 | lra ]. }
  rewrite Hm. f_equal.
  destruct Hattained as [(i & j & Hij & Hd) | [_ Hnone]].
  - destruct (three_electrode_pairs i j Hij) as [[-> ->] | [[-> ->] | [-> ->]]].
    + rewrite H01 in Hd. injection Hd as <-. lra.
    + rewrite H02 in Hd. injection Hd as <-. reflexivity.
    + rewrite H12 in Hd. injection Hd as <-. reflexivity.
  - exfalso. apply (Hnone 0%nat 2%nat 1%R); [ lia | ].
    split; [ exact H02 | lra ].
Qed.

End radius_examples.

(** C5, as the code has it.  For every layout
    [calculateMinElectrodeDistance] returns a positive number [minDist]
    and the radius is [minDist * 0.95 / 2].  [minDist] is the least
    distance over the pairs of electrodes that are a positive distance
    apart (a pair at distance 0, or with a missing coordinate, does not
    count); it is 10, the radius being then 4.75, only when there is no
    such pair, and always then (fewer than two electrodes, or all
    distances zero).  Hence the markers
    of two electrodes at different positions, drawn at any positive scale
    and any offset, never overlap: twice the drawn radius is less than the
    distance between the drawn centres.  For the corner layout (0,0),
    (1,0), (0,1) the least distance is 1 and the radius 0.475. *)
Theorem marker_radius (coords : list R) :
  let n := MEAMovieCanvas.electrodeCount coords in
  exists minDist : R,
    MEAMovieCanvas.calculateMinElectrodeDistance coords = JS.Fin minDist
    /\ (0 < minDist)%R
    /\ MEAMovieCanvas.electrodeRadius coords = JS.Fin (minDist * (95 / 100) / 2)
    /\ ((exists i j, (i < j < n)%nat
                     /\ MEAMovieCanvas.electrodeDistance coords i j
                        = JS.Fin minDist)
        \/ (minDist = 10%R
            /\ MEAMovieCanvas.electrodeRadius coords = JS.Fin (475 / 100)
            /\ forall i j d, (i < j < n)%nat -> ~ apart coords i j d))
    /\ ((forall i j d, (i < j < n)%nat -> ~ apart coords i j d) ->
        minDist = 10%R)
    /\ ((n < 2)%nat -> minDist = 10%R)
    /\ (forall i j d, (i < j < n)%nat -> apart coords i j d ->
          (minDist <= d)%R)
    /\ (forall i j x1 y1 x2 y2 scale offsetX offsetY,
          (i < j < n)%nat ->
          coords !! (i * 2)%nat = Some x1 ->
          coords !! (i * 2 + 1)%nat = Some y1 ->
          coords !! (j * 2)%nat = Some x2 ->
          coords !! (j * 2 + 1)%nat = Some y2 ->
          (x1, y1) <> (x2, y2) ->
          (0 < scale)%R ->
          (2 * (minDist * (95 / 100) / 2 * scale)
           < sqrt (((x2 * scale + offsetX) - (x1 * scale + offsetX)) ^ 2
                   + ((y2 * scale + offsetY) - (y1 * scale + offsetY)) ^ 2))%R)
    /\ MEAMovieCanvas.calculateMinElectrodeDistance Scenario.corner = JS.Fin 1
    /\ MEAMovieCanvas.electrodeRadius Scenario.corner = JS.Fin (475 / 1000).
Proof.
  cbv zeta.
  destruct (calculateMinElectrodeDistance_least coords)
    as (m & Hm & Hpos & Hattained & Hleast).
  pose proof (electrodeRadius_value coords m Hm) as Hradius.
  assert ((forall i j d,
             (i < j < MEAMovieCanvas.electrodeCount coords)%nat ->
             ~ apart coords i j d) -> m = 10%R) as Hdefault.
  { intros Hnone. destruct Hattained as [(i & j & Hij & Hd) | [H10 _]];
      [ | exact H10 ].
    exfalso. apply (Hnone i j m Hij). split; assumption. }
  exists m. split; [ exact Hm | ]. split; [ exact Hpos | ].
  split; [ exact Hradius | ]. split.
  { destruct Hattained as [Hpair | [H10 Hnone]]; [ left; exact Hpair | right ].
    split; [ exact H10 | ]. split; [ | exact Hnone ].
    rewrite Hradius. f_equal. lra. }
  split; [ exact Hdefault | ]. split.
  { intros Hfew. apply Hdefault. intros i j d Hij. lia. }
  split; [ exact Hleast | ]. split.
  { intros i j x1 y1 x2 y2 scale offsetX offsetY Hij H1 H2 H3 H4 Hne Hscale.
    rewrite drawn_distance by lra.
    pose proof (distinct_positions_apart x1 y1 x2 y2 Hne) as Hd.
    assert (m <= sqrt ((x2 - x1) ^ 2 + (y2 - y1) ^ 2))%R as Hle.
    { apply (Hleast i j _ Hij). split; [ | exact Hd ].
      apply electrodeDistance_read; assumption. }
    nra. }
  split; [ exact corner_minDist | ].
  rewrite (electrodeRadius_value _ _ corner_minDist). f_equal. lra.
Qed.

(** On the corner layout the least distance is at most the distance 1
    between the electrodes at (0,0) and (1,0), and their markers, drawn at
    scale 100, do not overlap. *)
Lemma marker_radius_witness :
  exists minDist : R,
    MEAMovieCanvas.calculateMinElectrodeDistance Scenario.corner
    = JS.Fin minDist
    /\ (minDist <= 1)%R
    /\ (2 * (minDist * (95 / 100) / 2 * 100)
        < sqrt (((1 * 100 + 30) - (0 * 100 + 30)) ^ 2
                + ((0 * 100 + 30) - (0 * 100 + 30)) ^ 2))%R.
Proof.
  pose proof (marker_radius Scenario.corner) as H. cbv zeta in H.
  change (MEAMovieCanvas.electrodeCount Scenario.corner) with 3%nat in H.
  destruct H as (m & Hm & _ & _ & _ & _ & _ & Hleast & Hapart & _).
  exists m. split; [ exact Hm | ]. split.
  - apply (Hleast 0%nat 1%nat); [ lia | ].
    split; [ apply corner_distances | lra ].
  - apply (Hapart 0%nat 1%nat 0%R 0%R 1%R 0%R 100%R 30%R 30%R);
      try reflexivity; [ lia | | lra ].
    intros [= H]. lra.
Defined.

(** C5 as stated fails on a layout with two electrodes on one spot: the
    minimum pairwise distance is 0, yet the radius is 0.475 and not 0,
    and the markers of the two electrodes, both centred on (0,0), overlap. *)
Lemma coincident_markers_overlap :
  MEAMovieCanvas.electrodeDistance Scenario.coincident 0 1 = JS.Fin 0
  /\ MEAMovieCanvas.electrodeRadius Scenario.coincident = JS.Fin (475 / 1000)
  /\ JS.Fin (475 / 1000) <> JS.Fin (0 * (95 / 100) / 2)
  /\ (0 < 2 * (475 / 1000))%R.
Proof.
  split; [ apply coincident_distances | ].
  split.
  - rewrite (electrodeRadius_value _ _ coincident_minDist). f_equal. lra.
  - split; [ | lra ]. intros [= H]. lra.
Qed.

(** ** Colour step *)

Section colour.
Import MEAMovieCanvas.

(** The clamp, the inversion and the remapping, on a finite number. *)
Lemma remap_finite (s : R) :
  unitInterval
    (JS.js_div
       (JS.js_add
          (JS.js_neg (JS.Math_max (JS.Fin (-1)) (JS.Math_min (JS.Fin 1) (JS.Fin s))))
          (JS.Fin 1))
       (JS.Fin 2)).
Proof.
  unfold unitInterval. simpl.
  case_bool_decide as H1; simpl; case_bool_decide as H2; simpl;
    rewrite bool_decide_eq_false_2 by lra;
    eexists; (split; [ reflexivity | lra ]).
Qed.

(** With a data range that is not zero every sample is mapped into the
    unit interval. *)
Lemma colorValue_regular (c : MEAMovieClient.t) (contrast v : R) :
  dataRange c <> 0%R ->
  unitInterval (colorValue c contrast (JS.Fin v)).
Proof.
  intros Hrange. unfold colorValue. cbv zeta. fold (dataRange c).
  simpl. rewrite (bool_decide_eq_false_2 _ Hrange). simpl.
  apply remap_finite.
Qed.

Lemma sign_of_pos (r : R) : (0 < r)%R -> JS.sign_of r = JS.Pos.
Proof.
  intros H. unfold JS.sign_of.
  rewrite bool_decide_eq_false_2 by lra.
  rewrite bool_decide_eq_true_2 by lra. reflexivity.
Qed.

Lemma sign_of_neg (r : R) : (r < 0)%R -> JS.sign_of r = JS.Neg.
Proof.
  intros H. unfold JS.sign_of.
  rewrite bool_decide_eq_true_2 by lra. reflexivity.
Qed.

Lemma sign_of_zero : JS.sign_of 0 = JS.Zero.
Proof.
  unfold JS.sign_of. rewrite !bool_decide_eq_false_2 by lra. reflexivity.
Qed.

(** The clamp, the inversion and the remapping, on an infinity. *)
Lemma remap_infinite (x : JS.jsnum) :
  x = JS.PInf \/ x = JS.NInf ->
  unitInterval
    (JS.js_div
       (JS.js_add
          (JS.js_neg (JS.Math_max (JS.Fin (-1)) (JS.Math_min (JS.Fin 1) x)))
          (JS.Fin 1))
       (JS.Fin 2)).
Proof.
  unfold unitInterval. intros [-> | ->]; simpl.
  - rewrite (bool_decide_eq_true_2 (-1 < 1)%R) by lra. simpl.
    rewrite bool_decide_eq_false_2 by lra.
    eexists. split; [ reflexivity | lra ].
  - rewrite bool_decide_eq_false_2 by lra.
    eexists. split; [ reflexivity | lra ].
Qed.

(** With a zero data range a sample away from the median is sent to an
    end of the unit interval. *)
Lemma colorValue_zero_range_off_median (c : MEAMovieClient.t)
    (contrast v : R) :
  dataRange c = 0%R -> v <> MEAMovieClient.dataMedian c ->
  unitInterval (colorValue c contrast (JS.Fin v)).
Proof.
  intros Hrange Hv. unfold colorValue. cbv zeta. fold (dataRange c).
  pose proof (exp_pos ((contrast - 40) / 10)) as Hexp.
  cbn [JS.js_sub JS.js_neg JS.js_add JS.js_div].
  rewrite (bool_decide_eq_true_2 _ Hrange).
  apply remap_infinite.
  destruct (Rtotal_order v (MEAMovieClient.dataMedian c)) as [Hlt | [Heq | Hgt]];
    [ | contradiction | ].
  - right. rewrite sign_of_neg by lra.
    cbn [JS.inf_of JS.js_add JS.js_sub JS.js_neg JS.js_mul JS.jsign JS.sign_mul].
    rewrite (sign_of_pos 2) by lra.
    cbn [JS.inf_of JS.js_add JS.js_sub JS.js_neg JS.js_mul JS.jsign JS.sign_mul].
    rewrite (sign_of_pos _ Hexp). reflexivity.
  - left. rewrite sign_of_pos by lra.
    cbn [JS.inf_of JS.js_add JS.js_sub JS.js_neg JS.js_mul JS.jsign JS.sign_mul].
    rewrite (sign_of_pos 2) by lra.
    cbn [JS.inf_of JS.js_add JS.js_sub JS.js_neg JS.js_mul JS.jsign JS.sign_mul].
    rewrite (sign_of_pos _ Hexp). reflexivity.
Qed.

(** With a zero data range the sample at the median is [0 / 0]. *)
Lemma colorValue_zero_range_at_median (c : MEAMovieClient.t) (contrast : R) :
  dataRange c = 0%R ->
  colorValue c contrast (JS.Fin (MEAMovieClient.dataMedian c)) = JS.NaN.
Proof.
  intros Hrange. unfold colorValue. cbv zeta. fold (dataRange c).
  cbn [JS.js_sub JS.js_neg JS.js_add JS.js_div].
  rewrite (bool_decide_eq_true_2 _ Hrange).
  replace (MEAMovieClient.dataMedian c + - MEAMovieClient.dataMedian c)%R
    with 0%R by ring.
  rewrite sign_of_zero. reflexivity.
Qed.

End colour.

(** C6 on a recording whose samples are all 0.  The store yields the
    client with minimum, maximum and median 0; its frame 0 is four zeros;
    the data range is 0, the normalisation computes [0.5 + 0 / 0], and the
    value handed to the colour map for channel 0 at contrast 50 is [NaN],
    which is not a number of the unit interval.  This is the only way the
    colour step leaves the unit interval: the value is [NaN] whenever the
    data range is 0 and the sample is the median, and lies in [[0, 1]] for
    every other sample, statistic triple and contrast. *)
Theorem colorValue_flat_recording :
  MEAMovieClient.create Scenario.flatGroup = Resolved Scenario.flatRecording
  /\ MEAMovieClient.getFrameData Scenario.flatRecording 0
     = Resolved [0; 0; 0; 0]%Z
  /\ MEAMovieCanvas.colorValue Scenario.flatRecording 50
       (MEAMovieCanvas.sample [0; 0; 0; 0]%Z 0)
     = JS.NaN
  /\ ~ unitInterval
         (MEAMovieCanvas.colorValue Scenario.flatRecording 50
            (MEAMovieCanvas.sample [0; 0; 0; 0]%Z 0))
  /\ (forall (c : MEAMovieClient.t) (contrast : R),
        dataRange c = 0%R ->
        MEAMovieCanvas.colorValue c contrast
          (JS.Fin (MEAMovieClient.dataMedian c)) = JS.NaN)
  /\ (forall (c : MEAMovieClient.t) (contrast v : R),
        dataRange c <> 0%R \/ v <> MEAMovieClient.dataMedian c ->
        unitInterval (MEAMovieCanvas.colorValue c contrast (JS.Fin v))).
Proof.
  split; [ reflexivity | ]. split; [ reflexivity | ].
  assert (MEAMovieCanvas.colorValue Scenario.flatRecording 50
            (MEAMovieCanvas.sample [0; 0; 0; 0]%Z 0) = JS.NaN) as Hnan.
  { apply (colorValue_zero_range_at_median Scenario.flatRecording 50).
    unfold dataRange. simpl.
    replace (0 - 0)%R with 0%R by ring.
    rewrite Rabs_R0, Rmax_left by lra. ring. }
  split; [ exact Hnan | ]. split.
  { rewrite Hnan. intros (v & Hv & _). discriminate Hv. }
  split; [ exact colorValue_zero_range_at_median | ].
  intros c contrast v Hok.
  destruct (Req_dec (dataRange c) 0) as [Hzero | Hrange].
  - destruct Hok as [Hrange | Hv]; [ contradiction | ].
    apply colorValue_zero_range_off_median; assumption.
  - apply colorValue_regular, Hrange.
Qed.

(** ** Frame loader *)

Section loader.
Import MEAMovieCanvas.

(** Settling a fetch touches neither the props nor the other requests. *)
Lemma loadFrameSettled_frame req now now' st :
  props (loadFrameSettled req now now' st) = props st
  /\ inflight (loadFrameSettled req now now' st) = inflight st.
Proof.
  unfold loadFrameSettled.
  destruct (MEAMovieClient.getFrameData _ _); [ | split; reflexivity ].
  destruct (isPlaying req); split; reflexivity.
Qed.

(** A fetch that resolves is displayed. *)
Lemma loadFrameSettled_resolved req now now' st data :
  MEAMovieClient.getFrameData (client req) (currentTimeIndex req)
  = Resolved data ->
  frameData (loadFrameSettled req now now' st) = Some data.
Proof.
  intros H. unfold loadFrameSettled. rewrite H.
  destruct (isPlaying req); reflexivity.
Qed.

(** The requests in flight settling one after the other, oldest first;
    [times] are the clock readings at each. *)
Lemma settle_in_order (times : list (Z * Z)) :
  forall (st : State) (older : list Request) (data : Zarr.TypedArray),
    inflight st = older ++ [props st] ->
    length times = S (length older) ->
    MEAMovieClient.getFrameData (client (props st))
      (currentTimeIndex (props st)) = Resolved data ->
    let st' := run ((fun t => FetchSettled 0 t.1 t.2) <$> times) st in
    frameData st' = Some data /\ inflight st' = [] /\ props st' = props st.
Proof.
  induction times as [ | t times IH]; intros st older data Hin Hlen Hdata;
    [ discriminate Hlen | ].
  cbv zeta. unfold run. simpl. fold (run ((fun t => FetchSettled 0 t.1 t.2) <$> times)).
  rewrite Hin.
  destruct older as [ | r older]; simpl.
  - destruct times; [ | discriminate Hlen ]. simpl.
    split; [ apply loadFrameSettled_resolved, Hdata | ].
    destruct (loadFrameSettled_frame (props st) t.1 t.2
                (mkState (props st) (frameData st) (spikingChannels st)
                   (error st) (recentSpikes st) [])) as [Hp Hi].
    split; assumption.
  - destruct (loadFrameSettled_frame r t.1 t.2
                (mkState (props st) (frameData st) (spikingChannels st)
                   (error st) (recentSpikes st) (older ++ [props st])))
      as [Hp Hi]. simpl in Hp, Hi.
    specialize (IH (loadFrameSettled r t.1 t.2
                      (mkState (props st) (frameData st) (spikingChannels st)
                         (error st) (recentSpikes st) (older ++ [props st])))
                   older data).
    rewrite Hp, Hi in IH. cbv zeta in IH.
    apply IH; [ reflexivity | simpl in Hlen; lia | exact Hdata ].
Qed.

End loader.

(** C10, as the code has it.  When the fetch of a request in flight
    resolves, its frame is displayed and, when the request was made while
    not playing, its spikes replace the displayed ones and the tracked map
    is emptied, whether or not the request is the one of the current
    props; the props and the other requests in flight are left as they
    are.  The displayed frame is therefore the one of the fetch that
    settled last: when the requests in flight, the last of which is the
    one of the current props, settle oldest first, the frame displayed in
    the end is the one of the current props. *)
Theorem fetch_settled_applied (st : MEAMovieCanvas.State) (k : nat)
    (req : MEAMovieCanvas.Request) (now now' : Z) (data : Zarr.TypedArray) :
  MEAMovieCanvas.inflight st !! k = Some req ->
  MEAMovieClient.getFrameData (MEAMovieCanvas.client req)
    (MEAMovieCanvas.currentTimeIndex req) = Resolved data ->
  let st' := MEAMovieCanvas.step (MEAMovieCanvas.FetchSettled k now now') st in
  MEAMovieCanvas.frameData st' = Some data
  /\ MEAMovieCanvas.props st' = MEAMovieCanvas.props st
  /\ MEAMovieCanvas.inflight st' = delete k (MEAMovieCanvas.inflight st)
  /\ (MEAMovieCanvas.isPlaying req = false ->
      MEAMovieCanvas.spikingChannels st'
      = MEAMovieClient.getSpikingChannels (MEAMovieCanvas.client req)
          (MEAMovieCanvas.currentTimeIndex req)
      /\ MEAMovieCanvas.recentSpikes st' = ∅)
  /\ (forall (times : list (Z * Z)) (older : list MEAMovieCanvas.Request)
        (current : Zarr.TypedArray),
        MEAMovieCanvas.inflight st = older ++ [MEAMovieCanvas.props st] ->
        length times = S (length older) ->
        MEAMovieClient.getFrameData
          (MEAMovieCanvas.client (MEAMovieCanvas.props st))
          (MEAMovieCanvas.currentTimeIndex (MEAMovieCanvas.props st))
        = Resolved current ->
        MEAMovieCanvas.frameData
          (MEAMovieCanvas.run
             ((fun t => MEAMovieCanvas.FetchSettled 0 t.1 t.2) <$> times) st)
        = Some current).
Proof.
  intros Hk Hdata. cbv zeta. simpl. rewrite Hk.
  split; [ apply loadFrameSettled_resolved, Hdata | ].
  match goal with
  | |- context [MEAMovieCanvas.loadFrameSettled req now now' ?s] =>
      destruct (loadFrameSettled_frame req now now' s) as [Hp Hi]
  end.
  split; [ exact Hp | ]. split; [ exact Hi | ].
  split.
  - intros Hpaused. unfold MEAMovieCanvas.loadFrameSettled.
    rewrite Hdata, Hpaused. split; reflexivity.
  - intros times older current Hin Hlen Hcur.
    apply (settle_in_order times st older current Hin Hlen Hcur).
Qed.

(** While the slider is on sample 1, the late frame of sample 0 is
    displayed when it arrives. *)
Lemma fetch_settled_applied_witness :
  MEAMovieCanvas.frameData
    (MEAMovieCanvas.step (MEAMovieCanvas.FetchSettled 0 1001 1001)
       Scenario.scrubbed)
  = Some [0; 1; 2; 3]%Z.
Proof.
  exact (proj1 (fetch_settled_applied Scenario.scrubbed 0 Scenario.scrub0
                  1001 1001 [0; 1; 2; 3]%Z eq_refl eq_refl)).
Defined.

(** C10 as stated fails while scrubbing: sample 1 is selected and
    displayed, the request still in flight is the one for sample 0, and
    when it settles the displayed frame changes to that of sample 0. *)
Lemma stale_frame_displayed :
  MEAMovieCanvas.currentTimeIndex (MEAMovieCanvas.props Scenario.scrubbed)
  = 1%Z
  /\ MEAMovieCanvas.frameData Scenario.scrubbed = Some [10; 11; 12; 13]%Z
  /\ MEAMovieCanvas.inflight Scenario.scrubbed = [Scenario.scrub0]
  /\ MEAMovieCanvas.currentTimeIndex Scenario.scrub0 = 0%Z
  /\ MEAMovieCanvas.frameData
       (MEAMovieCanvas.step (MEAMovieCanvas.FetchSettled 0 1001 1001)
          Scenario.scrubbed)
     = Some [0; 1; 2; 3]%Z
  /\ MEAMovieCanvas.currentTimeIndex
       (MEAMovieCanvas.props
          (MEAMovieCanvas.step (MEAMovieCanvas.FetchSettled 0 1001 1001)
             Scenario.scrubbed))
     = 1%Z.
Proof. repeat split. Qed.

(** * Further properties of the modelled code *)

(** ** Time and index conversion, continued *)

Lemma Math_round_monotone (x y : R) :
  (x <= y)%R -> (JS.Math_round x <= JS.Math_round y)%Z.
Proof.
  intros Hxy.
  pose proof (Math_round_near x) as [_ Hx].
  pose proof (Math_round_near y) as [Hy _].
  apply Z.lt_succ_r, lt_IZR. rewrite succ_IZR. lra.
Qed.

(** X1.  With a sampling frequency that is not negative,
    [getIndexFromTime] never decreases when the time increases. *)
Theorem getIndexFromTime_monotone (c : MEAMovieClient.t) (t1 t2 : R) :
  (0 <= MEAMovieClient.samplingFrequencyHz c)%R ->
  (t1 <= t2)%R ->
  (MEAMovieClient.getIndexFromTime c t1
   <= MEAMovieClient.getIndexFromTime c t2)%Z.
Proof.
  intros Hfs Ht. unfold MEAMovieClient.getIndexFromTime. cbv zeta.
  assert (JS.Math_round
            ((t1 - MEAMovieClient.startTimeSec c)
             * MEAMovieClient.samplingFrequencyHz c)
          <= JS.Math_round
               ((t2 - MEAMovieClient.startTimeSec c)
                * MEAMovieClient.samplingFrequencyHz c))%Z as Hr.
  { apply Math_round_monotone. nra. }
  lia.
Qed.

Lemma getIndexFromTime_monotone_witness :
  (MEAMovieClient.getIndexFromTime Scenario.recording (1 / 4)
   <= MEAMovieClient.getIndexFromTime Scenario.recording (1 / 2))%Z.
Proof.
  apply getIndexFromTime_monotone; simpl; lra.
Defined.

(** Index to time to index, before the clamp is simplified. *)
Lemma index_round_trip (c : MEAMovieClient.t) (i : Z) :
  MEAMovieClient.samplingFrequencyHz c <> 0%R ->
  MEAMovieClient.getIndexFromTime c (MEAMovieClient.getTimeFromIndex c i)
  = Z.max 0 (Z.min (MEAMovieClient.numTimepoints c - 1) i).
Proof.
  intros Hfs.
  unfold MEAMovieClient.getIndexFromTime, MEAMovieClient.getTimeFromIndex.
  cbv zeta.
  rewrite (Math_round_unique _ i); [ reflexivity | ].
  replace ((MEAMovieClient.startTimeSec c
            + IZR i / MEAMovieClient.samplingFrequencyHz c
            - MEAMovieClient.startTimeSec c)
           * MEAMovieClient.samplingFrequencyHz c)%R
    with (IZR i) by (field; exact Hfs).
  lra.
Qed.

(** X2.  With a sampling frequency that is not zero, the index of the
    time of an index is that index clamped to [[0, numTimepoints - 1]]:
    every position of the slider is mapped back to itself. *)
Theorem index_of_time_of_index (c : MEAMovieClient.t) (i : Z) :
  MEAMovieClient.samplingFrequencyHz c <> 0%R ->
  MEAMovieClient.getIndexFromTime c (MEAMovieClient.getTimeFromIndex c i)
  = Z.max 0 (Z.min (MEAMovieClient.numTimepoints c - 1) i)
  /\ ((0 <= i <= MEAMovieClient.numTimepoints c - 1)%Z ->
      MEAMovieClient.getIndexFromTime c (MEAMovieClient.getTimeFromIndex c i)
      = i).
Proof.
  intros Hfs. pose proof (index_round_trip c i Hfs) as Heq.
  split; [ exact Heq | ]. intros Hi. rewrite Heq. lia.
Qed.

Lemma index_of_time_of_index_witness :
  MEAMovieClient.getIndexFromTime Scenario.recording
    (MEAMovieClient.getTimeFromIndex Scenario.recording 19999)
  = 19999%Z.
Proof.
  apply index_of_time_of_index; simpl; [ lra | lia ].
Defined.

(** X3.  With a positive sampling frequency the time of an index grows
    strictly with the index, index 0 is the start time and index
    [numTimepoints] the end time; so every index the slider can take lies
    at or after the start and strictly before the end. *)
Theorem getTimeFromIndex_within_recording (c : MEAMovieClient.t) (i j : Z) :
  (0 < MEAMovieClient.samplingFrequencyHz c)%R ->
  ((i < j)%Z ->
   (MEAMovieClient.getTimeFromIndex c i
    < MEAMovieClient.getTimeFromIndex c j)%R)
  /\ MEAMovieClient.getTimeFromIndex c 0 = MEAMovieClient.startTimeSec c
  /\ MEAMovieClient.getTimeFromIndex c (MEAMovieClient.numTimepoints c)
     = MEAMovieClient.endTimeSec c
  /\ ((0 <= i < MEAMovieClient.numTimepoints c)%Z ->
      (MEAMovieClient.startTimeSec c <= MEAMovieClient.getTimeFromIndex c i
       < MEAMovieClient.endTimeSec c)%R).
Proof.
  intros Hfs.
  pose proof (Rinv_0_lt_compat _ Hfs) as Hinv.
  unfold MEAMovieClient.getTimeFromIndex, MEAMovieClient.endTimeSec, Rdiv.
  split; [ | split; [ | split ] ].
  - intros Hij. apply IZR_lt in Hij. nra.
  - lra.
  - reflexivity.
  - intros [H0 HN]. apply IZR_le in H0. apply IZR_lt in HN. nra.
Qed.

Lemma getTimeFromIndex_within_recording_witness :
  (MEAMovieClient.startTimeSec Scenario.recording
   <= MEAMovieClient.getTimeFromIndex Scenario.recording 19999
   < MEAMovieClient.endTimeSec Scenario.recording)%R.
Proof.
  apply (getTimeFromIndex_within_recording Scenario.recording 19999 0);
    simpl; [ lra | lia ].
Defined.

(** X4.  On a recording with at least one sample the frame of the index
    of any time can be fetched: [getFrameData (getIndexFromTime t)] is
    never rejected.  On a recording without samples it always is. *)
Theorem frame_of_any_time (c : MEAMovieClient.t) (t : R) :
  ((1 <= MEAMovieClient.numTimepoints c)%Z ->
   exists data,
     MEAMovieClient.getFrameData c (MEAMovieClient.getIndexFromTime c t)
     = Resolved data)
  /\ ((MEAMovieClient.numTimepoints c <= 0)%Z ->
      MEAMovieClient.getFrameData c (MEAMovieClient.getIndexFromTime c t)
      = Rejected (TimeIndexOutOfRange 0 (MEAMovieClient.numTimepoints c))).
Proof.
  unfold MEAMovieClient.getFrameData, MEAMovieClient.getIndexFromTime.
  cbv zeta. split; intros Hn.
  - rewrite !bool_decide_eq_false_2 by lia. simpl. eexists. reflexivity.
  - replace (Z.max 0 (Z.min (MEAMovieClient.numTimepoints c - 1) _))
      with 0%Z by lia.
    rewrite (bool_decide_eq_false_2 (0 < 0)%Z) by lia.
    rewrite bool_decide_eq_true_2 by lia. reflexivity.
Qed.

Lemma frame_of_any_time_witness :
  exists data,
    MEAMovieClient.getFrameData Scenario.recording
      (MEAMovieClient.getIndexFromTime Scenario.recording 7)
    = Resolved data.
Proof.
  apply (frame_of_any_time Scenario.recording 7). simpl. lia.
Defined.

(** ** Loading a recording, continued *)

(** X5.  [create] resolves exactly when the group has the [raw_data]
    data set, none of the seven required attributes is missing and, when
    the spike count is positive, both spike data sets.  With everything
    else in place and a positive spike count, a missing
    [spike_channel_indices] rejects with its error, and a missing
    [spike_frame_indices] (the channel data set being there) with its
    own. *)
Theorem create_resolves_iff (g : Zarr.ZarrGroup) :
  let numSpikes := default 0%Z (Zarr.attrsInt g !! "num_spikes") in
  ((exists c, MEAMovieClient.create g = Resolved c)
   <-> is_Some (Zarr.getDataset g "raw_data")
       /\ ~ missingAttribute g
       /\ ((numSpikes > 0)%Z ->
           is_Some (Zarr.getDataset g "spike_channel_indices")
           /\ is_Some (Zarr.getDataset g "spike_frame_indices")))
  /\ (is_Some (Zarr.getDataset g "raw_data") -> ~ missingAttribute g ->
      (numSpikes > 0)%Z ->
      (Zarr.getDataset g "spike_channel_indices" = None ->
       MEAMovieClient.create g = Rejected NoSpikeChannelIndicesDataset)
      /\ (is_Some (Zarr.getDataset g "spike_channel_indices") ->
          Zarr.getDataset g "spike_frame_indices" = None ->
          MEAMovieClient.create g = Rejected NoSpikeFrameIndicesDataset)).
Proof.
  cbv zeta. unfold missingAttribute, MEAMovieClient.create.
  destruct (Zarr.getDataset g "raw_data") as [raw | ]; simpl.
  2:{ split.
      - split; [ intros [c Hc]; discriminate Hc | ].
        intros ([x Hx] & _). discriminate Hx.
      - intros [x Hx]. discriminate Hx. }
  destruct (Zarr.attrsInt g !! "num_timepoints") as [nt | ].
  2:{ split.
      - split; [ intros [c Hc]; discriminate Hc | ].
        intros (_ & Hno & _). exfalso. apply Hno. auto.
      - intros _ Hno. exfalso. apply Hno. auto. }
  destruct (Zarr.attrsInt g !! "num_channels") as [nc | ].
  2:{ split.
      - split; [ intros [c Hc]; discriminate Hc | ].
        intros (_ & Hno & _). exfalso. apply Hno. auto.
      - intros _ Hno. exfalso. apply Hno. auto. }
  destruct (Zarr.attrsNum g !! "sampling_frequency_hz") as [fs | ].
  2:{ split.
      - split; [ intros [c Hc]; discriminate Hc | ].
        intros (_ & Hno & _). exfalso. apply Hno. auto.
      - intros _ Hno. exfalso. apply Hno. auto. }
  destruct (Zarr.attrsNum g !! "start_time_sec") as [st | ].
  2:{ split.
      - split; [ intros [c Hc]; discriminate Hc | ].
        intros (_ & Hno & _). exfalso. apply Hno. auto.
      - intros _ Hno. exfalso. apply Hno. auto. }
  destruct (Zarr.attrsNum g !! "data_min") as [dmin | ].
  2:{ split.
      - split; [ intros [c Hc]; discriminate Hc | ].
        intros (_ & Hno & _). exfalso. apply Hno. auto 10.
      - intros _ Hno. exfalso. apply Hno. auto 10. }
  destruct (Zarr.attrsNum g !! "data_max") as [dmax | ].
  2:{ split.
      - split; [ intros [c Hc]; discriminate Hc | ].
        intros (_ & Hno & _). exfalso. apply Hno. auto 10.
      - intros _ Hno. exfalso. apply Hno. auto 10. }
  destruct (Zarr.attrsNum g !! "data_median") as [dmed | ].
  2:{ split.
      - split; [ intros [c Hc]; discriminate Hc | ].
        intros (_ & Hno & _). exfalso. apply Hno. auto 10.
      - intros _ Hno. exfalso. apply Hno. auto 10. }
  set (ns := default 0%Z (Zarr.attrsInt g !! "num_spikes")).
  assert (~ (Some nt = None \/ Some nc = None \/ Some fs = None
             \/ Some st = None \/ Some dmin = None \/ Some dmax = None
             \/ Some dmed = None)) as Hpresent.
  { intros [H | [H | [H | [H | [H | [H | H]]]]]]; discriminate H. }
  unfold MEAMovieClient.loadSpikeData. simpl.
  case_bool_decide as Hns.
  - destruct (Zarr.getDataset g "spike_channel_indices") as [chds | ]; simpl.
    + destruct (Zarr.getDataset g "spike_frame_indices") as [frds | ]; simpl.
      * split.
        -- split; [ intros _ | intros _; eexists; reflexivity ].
           split; [ eauto | ]. split; [ exact Hpresent | ]. intros _.
           split; eauto.
        -- intros _ _ _. split; [ discriminate | ].
           intros _ H. discriminate H.
      * split.
        -- split; [ intros [c Hc]; discriminate Hc | ].
           intros (_ & _ & Hds). destruct (Hds Hns) as [_ [x Hx]].
           discriminate Hx.
        -- intros _ _ _. split; [ discriminate | reflexivity ].
    + split.
      * split; [ intros [c Hc]; discriminate Hc | ].
        intros (_ & _ & Hds). destruct (Hds Hns) as [[x Hx] _].
        discriminate Hx.
      * intros _ _ _. split; [ reflexivity | ].
        intros [x Hx]. discriminate Hx.
  - split.
    + split; [ intros _ | intros _; eexists; reflexivity ].
      split; [ eauto | ]. split; [ exact Hpresent | ]. intros H. lia.
    + intros _ _ H. lia.
Qed.

(** The scenario store satisfies the three conditions. *)
Lemma create_resolves_iff_witness :
  exists c, MEAMovieClient.create Scenario.group = Resolved c.
Proof.
  apply (proj1 (create_resolves_iff Scenario.group)).
  split; [ eexists; reflexivity | ]. split.
  - unfold missingAttribute.
    intros [H | [H | [H | [H | [H | [H | H]]]]]]; discriminate H.
  - intros _. split; eexists; reflexivity.
Defined.

(** ** Playback clock, continued *)

Section playback_more.
Import MEAMovieView.

(** In a playing state the rendering opportunity runs [animate] from
    the reference times. *)
Lemma advance_animate st c w d now :
  client st = Some c ->
  playbackStartWallClockTime st = Some w ->
  playbackStartDataTime st = Some d ->
  animationFrameRequested st = true ->
  advance now st = animate c w d (playbackSpeed st) now st.
Proof.
  intros Hc Hw Hd Hr. unfold advance. rewrite Hr, Hc, Hw, Hd. reflexivity.
Qed.

(** The published time is the extrapolated one cut off at the end. *)
Lemma animate_currentTime c w d speed now st :
  currentTime (animate c w d speed now st)
  = Some (Rmin (d + IZR (now - w) / 1000 * speed) (MEAMovieClient.endTimeSec c)).
Proof.
  unfold animate. case_bool_decide as H; simpl; f_equal.
  - rewrite Rmin_right by lra. reflexivity.
  - rewrite Rmin_left by lra. reflexivity.
Qed.

Lemma playbackEffect_anchored st :
  (isPlaying st = true ->
   is_Some (client st) /\ is_Some (playbackStartWallClockTime st)
   /\ is_Some (playbackStartDataTime st)) ->
  (isPlaying st = false ->
   playbackStartWallClockTime st = None /\ playbackStartDataTime st = None) ->
  anchored (playbackEffect st).
Proof.
  destruct st as [cl pl speed contrast w d ct req]. simpl.
  intros Hplay Hstop. unfold anchored, playbackEffect. simpl.
  destruct pl; simpl.
  - destruct (Hplay eq_refl) as ([c ->] & [w' ->] & [d' ->]). simpl.
    repeat split; eauto.
  - destruct (Hstop eq_refl) as [-> ->]. repeat split.
Qed.

Lemma dispatch_anchored a st : anchored st -> anchored (dispatch a st).
Proof.
  destruct st as [cl pl speed contrast w d ct req].
  unfold anchored. simpl. intros Hst.
  destruct a as [now | timeIndex now | newSpeed now | now | value | now]; simpl.
  - (* play / pause *)
    unfold handlePlayPause. simpl.
    destruct cl as [c | ], ct as [t | ]; simpl; try (destruct pl; exact Hst).
    apply playbackEffect_anchored.
    + destruct pl; simpl; [ discriminate | ].
      case_bool_decide; simpl; intros _; repeat split; eauto.
    + destruct pl; simpl; [ auto | ].
      case_bool_decide; simpl; discriminate.
  - (* slider *)
    unfold handleTimeChange. simpl.
    destruct cl as [c | ]; simpl; [ | destruct pl; exact Hst ].
    destruct pl; simpl; [ | exact Hst ].
    repeat split; eauto.
  - (* speed *)
    unfold handleSpeedChange. simpl.
    apply playbackEffect_anchored.
    + destruct pl; [ | discriminate ]. destruct Hst as (Hc & Hw & Hd & _).
      destruct ct; simpl; intros _; repeat split; eauto.
    + destruct pl; [ destruct ct; discriminate | ]. simpl. tauto.
  - (* rewind *)
    unfold handleRewindOneMs. simpl.
    destruct cl as [c | ], ct as [t | ]; simpl; try (destruct pl; exact Hst).
    destruct pl; simpl; [ | exact Hst ].
    repeat split; eauto.
  - (* contrast *)
    destruct pl; exact Hst.
  - (* rendering opportunity *)
    unfold advance. simpl.
    destruct req; [ | destruct pl; exact Hst ].
    destruct pl; [ | destruct Hst as (_ & _ & H); discriminate H ].
    destruct Hst as ([c ->] & [w' ->] & [d' ->] & _). simpl.
    unfold animate. case_bool_decide; simpl; repeat split; eauto.
Qed.

Lemma dispatch_client a st : client (dispatch a st) = client st.
Proof.
  destruct st as [cl pl speed contrast w d ct req].
  destruct a as [now | timeIndex now | newSpeed now | now | value | now]; simpl.
  - unfold handlePlayPause. simpl.
    destruct cl as [c | ], ct as [t | ]; simpl; try reflexivity.
    destruct pl; simpl; [ reflexivity | ].
    case_bool_decide; reflexivity.
  - unfold handleTimeChange. simpl.
    destruct cl as [c | ]; simpl; [ | reflexivity ].
    destruct pl; reflexivity.
  - unfold handleSpeedChange. simpl.
    destruct pl, ct, cl, w, d; reflexivity.
  - unfold handleRewindOneMs. simpl.
    destruct cl as [c | ], ct as [t | ]; simpl; try reflexivity.
    destruct pl; reflexivity.
  - reflexivity.
  - unfold advance. simpl. destruct req; [ | reflexivity ].
    destruct cl as [c | ], w, d; simpl; try reflexivity.
    unfold animate. case_bool_decide; reflexivity.
Qed.

End playback_more.

(** X6.  Pressing play on a stopped view anchors playback at the press:
    from a position at or past the end the current time is first reset to
    the start time and the anchor is (now, start time); from any other
    position the current time stays and the anchor is (now, current
    time).  In both cases the view plays and a callback is registered. *)
Theorem play_from_stopped (st : MEAMovieView.State) (c : MEAMovieClient.t)
    (t : R) (now : Z) :
  MEAMovieView.client st = Some c ->
  MEAMovieView.currentTime st = Some t ->
  MEAMovieView.isPlaying st = false ->
  ((t >= MEAMovieClient.endTimeSec c)%R ->
   MEAMovieView.handlePlayPause now st
   = MEAMovieView.mkState (Some c) true (MEAMovieView.playbackSpeed st)
       (MEAMovieView.contrast st) (Some now)
       (Some (MEAMovieClient.startTimeSec c))
       (Some (MEAMovieClient.startTimeSec c)) true)
  /\ ((t < MEAMovieClient.endTimeSec c)%R ->
      MEAMovieView.handlePlayPause now st
      = MEAMovieView.mkState (Some c) true (MEAMovieView.playbackSpeed st)
          (MEAMovieView.contrast st) (Some now) (Some t) (Some t) true).
Proof.
  intros Hc Ht Hp. destruct st as [cl pl speed contrast w d ct req].
  simpl in Hc, Ht, Hp. subst cl ct pl.
  unfold MEAMovieView.handlePlayPause. simpl.
  split; intros Hend.
  - rewrite bool_decide_eq_true_2 by exact Hend. reflexivity.
  - rewrite bool_decide_eq_false_2 by lra. reflexivity.
Qed.

(** The scenario recording stopped at its end (time 1) restarts from 0. *)
Lemma play_from_stopped_witness :
  MEAMovieView.handlePlayPause 5000
    (MEAMovieView.mkState (Some Scenario.recording) false 1 50 None None
       (Some 1%R) false)
  = MEAMovieView.mkState (Some Scenario.recording) true 1 50
      (Some 5000%Z) (Some 0%R) (Some 0%R) true.
Proof.
  apply (proj1 (play_from_stopped
                  (MEAMovieView.mkState (Some Scenario.recording) false 1 50
                     None None (Some 1%R) false)
                  Scenario.recording 1 5000 eq_refl eq_refl eq_refl)).
  unfold MEAMovieClient.endTimeSec. cbn -[IZR]. lra.
Defined.

(** X7.  Moving the slider to index [i] sets the current time to the
    time of that index and leaves the speed and the play state alone.
    On a stopped view nothing else changes.  On a playing view the
    anchor becomes (now, that time), so a later advance that stays before
    the end reports that time plus the elapsed time times the speed.  With
    a sampling frequency that is not zero and an index of the recording,
    the slider then shows [i]. *)
Theorem seek_by_slider (st : MEAMovieView.State) (c : MEAMovieClient.t)
    (i now : Z) :
  MEAMovieView.client st = Some c ->
  let t := MEAMovieClient.getTimeFromIndex c i in
  let st' := MEAMovieView.handleTimeChange i now st in
  MEAMovieView.currentTime st' = Some t
  /\ MEAMovieView.isPlaying st' = MEAMovieView.isPlaying st
  /\ MEAMovieView.playbackSpeed st' = MEAMovieView.playbackSpeed st
  /\ (MEAMovieView.isPlaying st = false ->
      st' = MEAMovieView.setCurrentTime t st)
  /\ (MEAMovieView.isPlaying st = true ->
      MEAMovieView.playbackStartWallClockTime st' = Some now
      /\ MEAMovieView.playbackStartDataTime st' = Some t
      /\ MEAMovieView.animationFrameRequested st' = true
      /\ forall later,
           (t + IZR (later - now) / 1000 * MEAMovieView.playbackSpeed st
            < MEAMovieClient.endTimeSec c)%R ->
           MEAMovieView.currentTime (MEAMovieView.advance later st')
           = Some (t + IZR (later - now) / 1000
                       * MEAMovieView.playbackSpeed st)%R)
  /\ (MEAMovieClient.samplingFrequencyHz c <> 0%R ->
      (0 <= i <= MEAMovieClient.numTimepoints c - 1)%Z ->
      MEAMovieView.currentTimeIndex st' = i).
Proof.
  intros Hc. destruct st as [cl pl speed contrast w d ct req].
  simpl in Hc. subst cl. cbv zeta.
  unfold MEAMovieView.handleTimeChange. simpl.
  destruct pl; simpl.
  - split; [ reflexivity | ]. split; [ reflexivity | ].
    split; [ reflexivity | ]. split; [ discriminate | ].
    split.
    + intros _. repeat (split; [ reflexivity | ]).
      intros later Hlater. unfold MEAMovieView.advance. simpl.
      rewrite animate_before_end by exact Hlater. reflexivity.
    + intros Hfs Hi. unfold MEAMovieView.currentTimeIndex. simpl.
      rewrite index_round_trip by assumption. lia.
  - split; [ reflexivity | ]. split; [ reflexivity | ].
    split; [ reflexivity | ]. split; [ reflexivity | ].
    split; [ discriminate | ].
    intros Hfs Hi. unfold MEAMovieView.currentTimeIndex. simpl.
    rewrite index_round_trip by assumption. lia.
Qed.

(** The scenario view, playing at speed 1, is moved to sample 10000 (half
    a second); a quarter of a second later it reports that time plus a
    quarter of a second. *)
Lemma seek_by_slider_witness :
  MEAMovieView.currentTime
    (MEAMovieView.advance 2250
       (MEAMovieView.handleTimeChange 10000 2000
          (MEAMovieView.mkState (Some Scenario.recording) true 1 50
             (Some 1000%Z) (Some 0%R) (Some 0%R) true)))
  = Some (MEAMovieClient.getTimeFromIndex Scenario.recording 10000
          + IZR (2250 - 2000) / 1000 * 1)%R.
Proof.
  destruct (seek_by_slider
              (MEAMovieView.mkState (Some Scenario.recording) true 1 50
                 (Some 1000%Z) (Some 0%R) (Some 0%R) true)
              Scenario.recording 10000 2000 eq_refl)
    as (_ & _ & _ & _ & Hplaying & _).
  destruct (Hplaying eq_refl) as (_ & _ & _ & Hlater).
  apply Hlater.
  unfold MEAMovieClient.getTimeFromIndex, MEAMovieClient.endTimeSec.
  cbn -[IZR Z.sub]. replace (2250 - 2000)%Z with 250%Z by lia. lra.
Defined.

(** X8.  Choosing a new speed on a playing view re-anchors at (now,
    current time): the current time is not moved, and a later advance that
    stays before the end reports the current time plus the time elapsed
    since the change times the new speed.  On a stopped view only the
    speed changes (and no callback is registered). *)
Theorem speed_change_keeps_position (st : MEAMovieView.State)
    (c : MEAMovieClient.t) (t newSpeed : R) (now : Z) :
  MEAMovieView.client st = Some c ->
  MEAMovieView.currentTime st = Some t ->
  let st' := MEAMovieView.handleSpeedChange newSpeed now st in
  MEAMovieView.playbackSpeed st' = newSpeed
  /\ MEAMovieView.currentTime st' = Some t
  /\ MEAMovieView.isPlaying st' = MEAMovieView.isPlaying st
  /\ (MEAMovieView.isPlaying st = true ->
      MEAMovieView.playbackStartWallClockTime st' = Some now
      /\ MEAMovieView.playbackStartDataTime st' = Some t
      /\ forall later,
           (t + IZR (later - now) / 1000 * newSpeed
            < MEAMovieClient.endTimeSec c)%R ->
           MEAMovieView.currentTime (MEAMovieView.advance later st')
           = Some (t + IZR (later - now) / 1000 * newSpeed)%R)
  /\ (MEAMovieView.isPlaying st = false ->
      st' = MEAMovieView.mkState (Some c) false newSpeed
              (MEAMovieView.contrast st)
              (MEAMovieView.playbackStartWallClockTime st)
              (MEAMovieView.playbackStartDataTime st) (Some t) false).
Proof.
  intros Hc Ht. destruct st as [cl pl speed contrast w d ct req].
  simpl in Hc, Ht. subst cl ct. cbv zeta.
  unfold MEAMovieView.handleSpeedChange. simpl.
  destruct pl; simpl.
  - split; [ reflexivity | ]. split; [ reflexivity | ].
    split; [ reflexivity | ]. split; [ | discriminate ].
    intros _. split; [ reflexivity | ]. split; [ reflexivity | ].
    intros later Hlater. unfold MEAMovieView.advance. simpl.
    rewrite animate_before_end by exact Hlater. reflexivity.
  - unfold MEAMovieView.playbackEffect. simpl.
    split; [ reflexivity | ]. split; [ reflexivity | ].
    split; [ reflexivity | ]. split; [ discriminate | ].
    intros _. reflexivity.
Qed.

(** The scenario view playing at speed 1 at time 0.25 is switched to
    speed 2: 100 ms later it reports 0.45. *)
Lemma speed_change_keeps_position_witness :
  MEAMovieView.currentTime
    (MEAMovieView.advance 1350
       (MEAMovieView.handleSpeedChange 2 1250
          (MEAMovieView.mkState (Some Scenario.recording) true 1 50
             (Some 1000%Z) (Some 0%R) (Some (25 / 100)%R) true)))
  = Some (25 / 100 + IZR (1350 - 1250) / 1000 * 2)%R.
Proof.
  destruct (speed_change_keeps_position
              (MEAMovieView.mkState (Some Scenario.recording) true 1 50
                 (Some 1000%Z) (Some 0%R) (Some (25 / 100)%R) true)
              Scenario.recording (25 / 100) 2 1250 eq_refl eq_refl)
    as (_ & _ & _ & Hplaying & _).
  destruct (Hplaying eq_refl) as (_ & _ & Hlater).
  apply Hlater.
  unfold MEAMovieClient.endTimeSec.
  cbn -[IZR Z.sub]. replace (1350 - 1250)%Z with 100%Z by lia. lra.
Defined.

(** X9.  The rewind button moves the current time back by one
    millisecond but never before the start time: the new time is the
    larger of [currentTime - 0.001] and the start time.  On a playing view
    playback is re-anchored at (now, new time); on a stopped view nothing
    else changes. *)
Theorem rewind_one_millisecond (st : MEAMovieView.State)
    (c : MEAMovieClient.t) (t : R) (now : Z) :
  MEAMovieView.client st = Some c ->
  MEAMovieView.currentTime st = Some t ->
  let newTime := Rmax (t - 1 / 1000) (MEAMovieClient.startTimeSec c) in
  let st' := MEAMovieView.handleRewindOneMs now st in
  MEAMovieView.currentTime st' = Some newTime
  /\ (MEAMovieClient.startTimeSec c <= newTime)%R
  /\ ((MEAMovieClient.startTimeSec c + 1 / 1000 <= t)%R ->
      newTime = (t - 1 / 1000)%R)
  /\ ((MEAMovieClient.startTimeSec c <= t)%R -> (newTime <= t)%R)
  /\ MEAMovieView.isPlaying st' = MEAMovieView.isPlaying st
  /\ (MEAMovieView.isPlaying st = true ->
      MEAMovieView.playbackStartWallClockTime st' = Some now
      /\ MEAMovieView.playbackStartDataTime st' = Some newTime)
  /\ (MEAMovieView.isPlaying st = false ->
      st' = MEAMovieView.setCurrentTime newTime st).
Proof.
  intros Hc Ht. destruct st as [cl pl speed contrast w d ct req].
  simpl in Hc, Ht. subst cl ct. cbv zeta.
  unfold MEAMovieView.handleRewindOneMs. simpl.
  assert (MEAMovieClient.startTimeSec c
          <= Rmax (t - 1 / 1000) (MEAMovieClient.startTimeSec c))%R as Hlow
    by apply Rmax_r.
  assert ((MEAMovieClient.startTimeSec c + 1 / 1000 <= t)%R ->
          Rmax (t - 1 / 1000) (MEAMovieClient.startTimeSec c)
          = (t - 1 / 1000)%R) as Hback
    by (intros H; apply Rmax_left; lra).
  assert ((MEAMovieClient.startTimeSec c <= t)%R ->
          (Rmax (t - 1 / 1000) (MEAMovieClient.startTimeSec c) <= t)%R)
    as Hnot_forward
    by (intros H; apply Rmax_lub; lra).
  destruct pl; simpl.
  - repeat (split; [ first [ reflexivity | assumption ] | ]).
    split; [ intros _; split; reflexivity | discriminate ].
  - repeat (split; [ first [ reflexivity | assumption ] | ]).
    split; [ discriminate | reflexivity ].
Qed.

(** Half a millisecond into the scenario recording the button stops at
    the start time. *)
Lemma rewind_one_millisecond_witness :
  MEAMovieView.currentTime
    (MEAMovieView.handleRewindOneMs 1000
       (MEAMovieView.mkState (Some Scenario.recording) false 1 50 None None
          (Some (5 / 10000)%R) false))
  = Some 0%R.
Proof.
  destruct (rewind_one_millisecond
              (MEAMovieView.mkState (Some Scenario.recording) false 1 50
                 None None (Some (5 / 10000)%R) false)
              Scenario.recording (5 / 10000) 1000 eq_refl eq_refl)
    as (Htime & _).
  rewrite Htime. f_equal. simpl. apply Rmax_right. lra.
Defined.

(** X10.  Each advance recomputes the position from the anchor and not
    from the previous position: while playing, an advance that came before
    the end leaves no trace in the state a later advance produces. *)
Theorem advance_recomputes_from_anchor (st : MEAMovieView.State)
    (c : MEAMovieClient.t) (w : Z) (d : R) (now1 now2 : Z) :
  MEAMovieView.client st = Some c ->
  MEAMovieView.playbackStartWallClockTime st = Some w ->
  MEAMovieView.playbackStartDataTime st = Some d ->
  MEAMovieView.animationFrameRequested st = true ->
  (d + IZR (now1 - w) / 1000 * MEAMovieView.playbackSpeed st
   < MEAMovieClient.endTimeSec c)%R ->
  MEAMovieView.advance now2 (MEAMovieView.advance now1 st)
  = MEAMovieView.advance now2 st.
Proof.
  intros Hc Hw Hd Hr Hbefore.
  destruct st as [cl pl speed contrast w' d' ct req].
  simpl in Hc, Hw, Hd, Hr, Hbefore. subst cl w' d' req.
  unfold MEAMovieView.advance at 2. simpl.
  rewrite animate_before_end by exact Hbefore. simpl.
  unfold MEAMovieView.advance. simpl.
  unfold MEAMovieView.animate. case_bool_decide; reflexivity.
Qed.

Lemma advance_recomputes_from_anchor_witness :
  MEAMovieView.advance 1500
    (MEAMovieView.advance 1250
       (MEAMovieView.mkState (Some Scenario.recording) true 1 50
          (Some 1000%Z) (Some 0%R) (Some 0%R) true))
  = MEAMovieView.advance 1500
      (MEAMovieView.mkState (Some Scenario.recording) true 1 50
         (Some 1000%Z) (Some 0%R) (Some 0%R) true).
Proof.
  apply (advance_recomputes_from_anchor _ Scenario.recording 1000 0);
    try reflexivity.
  unfold MEAMovieClient.endTimeSec.
  cbn -[IZR Z.sub]. replace (1250 - 1000)%Z with 250%Z by lia. lra.
Defined.

(** X11.  While playing, the published time is the extrapolated time cut
    off at the end time, so it never exceeds the end; with a speed that
    is not negative it does not decrease from one wall-clock time to a
    later one, and from the anchor's wall-clock time on it is at least
    the smaller of the anchor's data time and the end time. *)
Theorem playback_monotone_and_bounded (st : MEAMovieView.State)
    (c : MEAMovieClient.t) (w : Z) (d : R) (now1 now2 : Z) :
  MEAMovieView.client st = Some c ->
  MEAMovieView.playbackStartWallClockTime st = Some w ->
  MEAMovieView.playbackStartDataTime st = Some d ->
  MEAMovieView.animationFrameRequested st = true ->
  (0 <= MEAMovieView.playbackSpeed st)%R ->
  (w <= now1 <= now2)%Z ->
  exists t1 t2,
    MEAMovieView.currentTime (MEAMovieView.advance now1 st) = Some t1
    /\ MEAMovieView.currentTime (MEAMovieView.advance now2 st) = Some t2
    /\ t1 = Rmin (d + IZR (now1 - w) / 1000 * MEAMovieView.playbackSpeed st)
              (MEAMovieClient.endTimeSec c)
    /\ (Rmin d (MEAMovieClient.endTimeSec c) <= t1)%R
    /\ (t1 <= t2)%R
    /\ (t2 <= MEAMovieClient.endTimeSec c)%R.
Proof.
  intros Hc Hw Hd Hr Hspeed [Hw1 H12].
  rewrite !(advance_animate st c w d) by assumption.
  rewrite !animate_currentTime.
  eexists. eexists. split; [ reflexivity | ]. split; [ reflexivity | ].
  split; [ reflexivity | ].
  assert (0 <= IZR (now1 - w))%R as H1 by (apply IZR_le; lia).
  assert (IZR (now1 - w) <= IZR (now2 - w))%R as H2 by (apply IZR_le; lia).
  set (speed := MEAMovieView.playbackSpeed st) in *.
  set (e := MEAMovieClient.endTimeSec c).
  assert (d <= d + IZR (now1 - w) / 1000 * speed)%R as Ha by nra.
  assert (d + IZR (now1 - w) / 1000 * speed
          <= d + IZR (now2 - w) / 1000 * speed)%R as Hb by nra.
  split; [ | split ].
  - apply Rmin_glb; [ | apply Rmin_r ].
    pose proof (Rmin_l d e). lra.
  - apply Rmin_glb; [ | apply Rmin_r ].
    pose proof (Rmin_l (d + IZR (now1 - w) / 1000 * speed) e). lra.
  - apply Rmin_r.
Qed.

Lemma playback_monotone_and_bounded_witness :
  exists t1 t2,
    MEAMovieView.currentTime
      (MEAMovieView.advance 1250
         (MEAMovieView.mkState (Some Scenario.recording) true 1 50
            (Some 1000%Z) (Some 0%R) (Some 0%R) true)) = Some t1
    /\ MEAMovieView.currentTime
         (MEAMovieView.advance 9000
            (MEAMovieView.mkState (Some Scenario.recording) true 1 50
               (Some 1000%Z) (Some 0%R) (Some 0%R) true)) = Some t2
    /\ (t1 <= t2)%R
    /\ (t2 <= MEAMovieClient.endTimeSec Scenario.recording)%R.
Proof.
  destruct (playback_monotone_and_bounded
              (MEAMovieView.mkState (Some Scenario.recording) true 1 50
                 (Some 1000%Z) (Some 0%R) (Some 0%R) true)
              Scenario.recording 1000 0 1250 9000
              eq_refl eq_refl eq_refl eq_refl)
    as (t1 & t2 & H1 & H2 & _ & _ & Hle & Hend).
  - simpl. lra.
  - lia.
  - exists t1, t2. repeat split; assumption.
Defined.

(** X12.  From the loaded view, whatever the buttons, the sliders, the
    speed menu and the rendering opportunities do, in any order: the
    client stays, a playing view always has both reference times and a
    registered callback, a stopped view has neither reference time nor a
    registered callback, and a rendering opportunity does not change a
    stopped view. *)
Theorem playback_state_consistent (c : MEAMovieClient.t)
    (actions : list MEAMovieView.Action) :
  let st := MEAMovieView.dispatchAll actions (MEAMovieView.loaded c) in
  MEAMovieView.client st = Some c
  /\ anchored st
  /\ (MEAMovieView.isPlaying st = false ->
      forall now, MEAMovieView.advance now st = st).
Proof.
  cbv zeta.
  assert (MEAMovieView.client
            (MEAMovieView.dispatchAll actions (MEAMovieView.loaded c)) = Some c
          /\ anchored
               (MEAMovieView.dispatchAll actions (MEAMovieView.loaded c)))
    as [Hclient Hanchored].
  { unfold MEAMovieView.dispatchAll.
    induction actions as [ | a actions IH] using rev_ind.
    - split; [ reflexivity | ]. unfold anchored. simpl. auto.
    - rewrite fold_left_app. simpl. destruct IH as [IHc IHa]. split.
      + rewrite dispatch_client. exact IHc.
      + apply dispatch_anchored, IHa. }
  split; [ exact Hclient | ]. split; [ exact Hanchored | ].
  intros Hstopped now. apply advance_not_requested.
  unfold anchored in Hanchored. rewrite Hstopped in Hanchored.
  apply Hanchored.
Qed.

(** ** Spike overlay tracker, continued *)

Section overlay_more.
Import MEAMovieCanvas.

Lemma trackSpikes_lookup (now : Z) (spikes : list (option Z))
    (m : gmap (option Z) Z) (ch : option Z) :
  trackSpikes now spikes m !! ch
  = match m !! ch with
    | Some timestamp => Some timestamp
    | None => if bool_decide (ch ∈ spikes) then Some now else None
    end.
Proof.
  unfold trackSpikes. revert m.
  induction spikes as [ | x spikes IH]; intros m; simpl.
  - destruct (m !! ch); reflexivity.
  - rewrite IH. clear IH.
    destruct (decide (is_Some (m !! x))) as [Hx | Hx].
    + rewrite (bool_decide_eq_true_2 _ Hx).
      destruct (m !! ch) as [ts | ] eqn:Hch; [ reflexivity | ].
      assert (ch <> x) as Hne.
      { intros ->. destruct Hx as [ts Hts]. congruence. }
      destruct (decide (ch ∈ spikes)) as [Hin | Hin].
      * rewrite !bool_decide_eq_true_2; [ reflexivity | right | ]; assumption.
      * rewrite !bool_decide_eq_false_2; [ reflexivity | | assumption ].
        intros [? | ?]%elem_of_cons; contradiction.
    + rewrite (bool_decide_eq_false_2 _ Hx).
      apply eq_None_not_Some in Hx.
      destruct (decide (ch = x)) as [-> | Hne].
      * rewrite lookup_insert_eq, Hx.
        rewrite bool_decide_eq_true_2 by left. reflexivity.
      * rewrite lookup_insert_ne by congruence.
        destruct (m !! ch); [ reflexivity | ].
        destruct (decide (ch ∈ spikes)) as [Hin | Hin].
        -- rewrite !bool_decide_eq_true_2; [ reflexivity | right | ];
             assumption.
        -- rewrite !bool_decide_eq_false_2; [ reflexivity | | assumption ].
           intros [? | ?]%elem_of_cons; contradiction.
Qed.

End overlay_more.

(** X13.  The loop that records the spikes of a displayed frame keeps
    the wall-clock time at which a channel was first seen: a channel that
    is already tracked keeps its timestamp even when it spikes again, a
    spiking channel that is not tracked is recorded at [now], and no other
    channel is added. *)
Theorem spikes_tracked_from_first_sight (now : Z) (spikes : list (option Z))
    (m : gmap (option Z) Z) (ch : option Z) :
  (forall timestamp,
     m !! ch = Some timestamp ->
     MEAMovieCanvas.trackSpikes now spikes m !! ch = Some timestamp)
  /\ (m !! ch = None -> ch ∈ spikes ->
      MEAMovieCanvas.trackSpikes now spikes m !! ch = Some now)
  /\ (m !! ch = None -> ch ∉ spikes ->
      MEAMovieCanvas.trackSpikes now spikes m !! ch = None).
Proof.
  rewrite trackSpikes_lookup. split; [ | split ].
  - intros ts ->. reflexivity.
  - intros -> Hin. rewrite bool_decide_eq_true_2 by exact Hin. reflexivity.
  - intros -> Hin. rewrite bool_decide_eq_false_2 by exact Hin. reflexivity.
Qed.

(** Channel 3, tracked since 1000, spikes again at 1400: it stays at 1000. *)
Lemma spikes_tracked_from_first_sight_witness :
  MEAMovieCanvas.trackSpikes 1400 [Some 3%Z] (<[Some 3%Z := 1000%Z]> ∅)
    !! Some 3%Z = Some 1000%Z.
Proof.
  apply (proj1 (spikes_tracked_from_first_sight 1400 [Some 3%Z]
                  (<[Some 3%Z := 1000%Z]> ∅) (Some 3%Z))).
  reflexivity.
Defined.

(** After a refresh the displayed channels are the tracked ones. *)
Lemma updateSpikingChannels_shown (now : Z) (st : MEAMovieCanvas.State)
    (ch : option Z) :
  ch ∈ MEAMovieCanvas.spikingChannels
         (MEAMovieCanvas.updateSpikingChannels now st)
  <-> is_Some (MEAMovieCanvas.recentSpikes
                 (MEAMovieCanvas.updateSpikingChannels now st) !! ch).
Proof.
  rewrite updateSpikingChannels_active. split.
  - intros (ts & Hts & Hex). exists ts.
    apply updateSpikingChannels_lookup. split; assumption.
  - intros [ts Hts]. apply updateSpikingChannels_lookup in Hts. eauto.
Qed.

(** X14.  After a refresh at wall-clock time [now] the displayed
    channels are exactly the tracked ones, each listed once; every tracked
    entry was tracked before with the same timestamp and is at most 500 ms
    old, so that, first seen no later than [now], it is drawn with an
    opacity between 0 and 0.9; a second refresh at the same time removes
    nothing more; the frame, the props, the error and the requests in
    flight are untouched. *)
Theorem refresh_displays_tracked (now : Z) (st : MEAMovieCanvas.State) :
  let st' := MEAMovieCanvas.updateSpikingChannels now st in
  (forall ch : option Z,
     ch ∈ MEAMovieCanvas.spikingChannels st'
     <-> is_Some (MEAMovieCanvas.recentSpikes st' !! ch))
  /\ NoDup (MEAMovieCanvas.spikingChannels st')
  /\ (forall (ch : option Z) (timestamp : Z),
        MEAMovieCanvas.recentSpikes st' !! ch = Some timestamp ->
        MEAMovieCanvas.recentSpikes st !! ch = Some timestamp
        /\ (now - timestamp <= 500)%Z
        /\ ((timestamp <= now)%Z ->
            (0 <= MEAMovieCanvas.ringOpacity true
                    (MEAMovieCanvas.recentSpikes st') now ch <= 9 / 10)%R))
  /\ MEAMovieCanvas.recentSpikes (MEAMovieCanvas.updateSpikingChannels now st')
     = MEAMovieCanvas.recentSpikes st'
  /\ MEAMovieCanvas.frameData st' = MEAMovieCanvas.frameData st
  /\ MEAMovieCanvas.props st' = MEAMovieCanvas.props st
  /\ MEAMovieCanvas.error st' = MEAMovieCanvas.error st
  /\ MEAMovieCanvas.inflight st' = MEAMovieCanvas.inflight st.
Proof.
  cbv zeta. split; [ | split; [ | split; [ | split ] ] ].
  - intros ch. apply updateSpikingChannels_shown.
  - unfold MEAMovieCanvas.updateSpikingChannels. simpl.
    apply (sublist_NoDup _ ((map_to_list (MEAMovieCanvas.recentSpikes st)).*1)).
    + apply NoDup_fst_map_to_list.
    + apply fmap_sublist, sublist_filter.
  - intros ch ts Hts.
    pose proof Hts as Hts'.
    apply updateSpikingChannels_lookup in Hts' as [Hbefore Hex].
    apply expired_false in Hex.
    split; [ exact Hbefore | ]. split; [ exact Hex | ].
    intros Hseen. rewrite (ringOpacity_playing _ now ch ts Hts).
    assert (0 <= IZR (now - ts) <= 500)%R.
    { split; [ apply (IZR_le 0) | apply (IZR_le _ 500) ]; lia. }
    lra.
  - apply map_eq. intros ch. apply option_eq. intros ts.
    rewrite updateSpikingChannels_lookup. split; [ tauto | ].
    intros Hts. split; [ exact Hts | ].
    apply updateSpikingChannels_lookup in Hts. tauto.
  - repeat split.
Qed.

(** X15.  When the frame of a request made while playing arrives, read
    at [now] and refreshed at [now']: a channel is tracked afterwards
    exactly when it was tracked before, or spikes at the frame and was not
    tracked (its timestamp then being [now]), and is at most 500 ms old at
    [now']; the displayed channels are the tracked ones.  So a spiking
    channel that was not tracked is displayed when the refresh follows
    within 500 ms, while a spiking channel whose earlier entry is more
    than 500 ms old is dropped and not displayed. *)
Theorem frame_while_playing (st : MEAMovieCanvas.State)
    (req : MEAMovieCanvas.Request) (now now' : Z) (data : Zarr.TypedArray) :
  MEAMovieClient.getFrameData (MEAMovieCanvas.client req)
    (MEAMovieCanvas.currentTimeIndex req) = Resolved data ->
  MEAMovieCanvas.isPlaying req = true ->
  let spikes :=
    MEAMovieClient.getSpikingChannels (MEAMovieCanvas.client req)
      (MEAMovieCanvas.currentTimeIndex req) in
  let st' := MEAMovieCanvas.loadFrameSettled req now now' st in
  (forall (ch : option Z) (timestamp : Z),
     MEAMovieCanvas.recentSpikes st' !! ch = Some timestamp
     <-> (MEAMovieCanvas.recentSpikes st !! ch = Some timestamp
          \/ (MEAMovieCanvas.recentSpikes st !! ch = None
              /\ ch ∈ spikes /\ timestamp = now))
         /\ (now' - timestamp <= 500)%Z)
  /\ (forall ch : option Z,
        ch ∈ MEAMovieCanvas.spikingChannels st'
        <-> is_Some (MEAMovieCanvas.recentSpikes st' !! ch))
  /\ (forall ch : option Z,
        ch ∈ spikes -> MEAMovieCanvas.recentSpikes st !! ch = None ->
        (now' - now <= 500)%Z ->
        ch ∈ MEAMovieCanvas.spikingChannels st')
  /\ (forall (ch : option Z) (timestamp : Z),
        ch ∈ spikes ->
        MEAMovieCanvas.recentSpikes st !! ch = Some timestamp ->
        (now' - timestamp > 500)%Z ->
        ch ∉ MEAMovieCanvas.spikingChannels st')
  /\ MEAMovieCanvas.frameData st' = Some data.
Proof.
  intros Hdata Hplaying. cbv zeta.
  unfold MEAMovieCanvas.loadFrameSettled. rewrite Hdata, Hplaying.
  set (spikes := MEAMovieClient.getSpikingChannels _ _).
  set (tracked := MEAMovieCanvas.mkState _ _ _ _ _ _).
  assert (forall (ch : option Z) (ts : Z),
            MEAMovieCanvas.recentSpikes
              (MEAMovieCanvas.updateSpikingChannels now' tracked) !! ch
            = Some ts
            <-> (MEAMovieCanvas.recentSpikes st !! ch = Some ts
                 \/ (MEAMovieCanvas.recentSpikes st !! ch = None
                     /\ ch ∈ spikes /\ ts = now))
                /\ (now' - ts <= 500)%Z) as Hlookup.
  { intros ch ts. rewrite updateSpikingChannels_lookup, expired_false.
    unfold tracked. simpl. rewrite trackSpikes_lookup.
    destruct (MEAMovieCanvas.recentSpikes st !! ch) as [ts0 | ].
    - split.
      + intros [[= ->] Hage]. split; [ left; reflexivity | exact Hage ].
      + intros [[H | (H & _)] Hage]; [ | discriminate H ].
        split; [ exact H | exact Hage ].
    - case_bool_decide as Hin.
      + split.
        * intros [[= <-] Hage]. split; [ right; auto | exact Hage ].
        * intros [[H | (_ & _ & ->)] Hage]; [ discriminate H | ].
          split; [ reflexivity | exact Hage ].
      + split.
        * intros [H _]. discriminate H.
        * intros [[H | (_ & Hin' & _)] _]; [ discriminate H | contradiction ]. }
  pose proof (updateSpikingChannels_shown now' tracked) as Hshown.
  split; [ exact Hlookup | ]. split; [ exact Hshown | ]. split; [ | split ].
  - intros ch Hin Hnew Hsoon. apply Hshown. exists now.
    apply Hlookup. split; [ right; auto | exact Hsoon ].
  - intros ch ts Hin Hold Hage Hmem.
    apply Hshown in Hmem as [ts' Hts'].
    apply Hlookup in Hts' as [[H | (H & _)] Hage']; [ | congruence ].
    rewrite Hold in H. injection H as <-. lia.
  - reflexivity.
Qed.

(** Scenario B: sample 100 arrives while playing and channel 3, not
    tracked before, is displayed. *)
Lemma frame_while_playing_witness :
  Some 3%Z
  ∈ MEAMovieCanvas.spikingChannels
      (MEAMovieCanvas.loadFrameSettled Scenario.showing100 1000 1000
         (MEAMovieCanvas.mounted Scenario.showing100)).
Proof.
  destruct (frame_while_playing (MEAMovieCanvas.mounted Scenario.showing100)
              Scenario.showing100 1000 1000 [1000; 1001; 1002; 1003]%Z
              eq_refl eq_refl)
    as (_ & _ & Hnew & _).
  apply Hnew; [ | reflexivity | lia ].
  apply list_elem_of_here.
Defined.

(** X16.  The opacity of a tracked entry is not clamped: while playing
    it lies between 0 and 0.9 exactly when the age lies between 0 and
    500 ms, and it is negative for an entry older than that (one the
    refresh has not removed yet). *)
Theorem ringOpacity_range (m : gmap (option Z) Z) (ch : option Z)
    (timestamp now : Z) :
  m !! ch = Some timestamp ->
  ((0 <= MEAMovieCanvas.ringOpacity true m now ch <= 9 / 10)%R
   <-> (0 <= now - timestamp <= 500)%Z)
  /\ ((now - timestamp > 500)%Z ->
      (MEAMovieCanvas.ringOpacity true m now ch < 0)%R).
Proof.
  intros Hin. rewrite (ringOpacity_playing m now ch timestamp Hin).
  split.
  - split.
    + intros [Hlo Hhi]. split.
      * apply le_IZR. lra.
      * apply le_IZR. lra.
    + intros [Hlo Hhi]. apply IZR_le in Hlo, Hhi. lra.
  - intros Hold. apply Z.gt_lt, IZR_lt in Hold. lra.
Qed.

Lemma ringOpacity_range_witness :
  (MEAMovieCanvas.ringOpacity true (<[Some 3%Z := 1000%Z]> ∅) 1600 (Some 3%Z)
   < 0)%R.
Proof.
  destruct (ringOpacity_range (<[Some 3%Z := 1000%Z]> ∅) (Some 3%Z)
              1000 1600) as [_ Hold]; [ reflexivity | ].
  apply Hold. lia.
Defined.

(** ** Colour schemes *)

Section colormaps.
Import ColormapUtils.

Lemma Math_round_integer (z : Z) : JS.Math_round (IZR z) = z.
Proof. apply Math_round_unique. lra. Qed.

(** A number between 0 and 255 is rounded to a byte. *)
Lemma Math_round_byte (x : R) :
  (0 <= x <= 255)%R -> (0 <= JS.Math_round x <= 255)%Z.
Proof.
  intros [Hlo Hhi]. split.
  - rewrite <- (Math_round_integer 0). apply Math_round_monotone, Hlo.
  - rewrite <- (Math_round_integer 255). apply Math_round_monotone, Hhi.
Qed.

Lemma colorSchemes_lookup (name : string) (f : R -> Rgb) :
  colorSchemes !! name = Some f ->
  f = blueRed \/ f = viridis \/ f = hot \/ f = grayscale \/ f = cool.
Proof.
  unfold colorSchemes. intros H.
  repeat (apply lookup_insert_Some in H as [[_ <-] | [_ H]]; [ auto 10 | ]).
  rewrite lookup_empty in H. discriminate H.
Qed.

Lemma blueRed_valid (v : R) : (0 <= v <= 1)%R -> validColor (blueRed v).
Proof.
  intros Hv. unfold validColor, blueRed. simpl.
  split; [ apply Math_round_byte; lra | ].
  split; [ | apply Math_round_byte; lra ].
  apply Math_round_byte.
  unfold Rabs. destruct (Rcase_abs (v - 5 / 10)); lra.
Qed.

Lemma viridis_valid (v : R) : (0 <= v <= 1)%R -> validColor (viridis v).
Proof.
  intros Hv. unfold validColor, viridis.
  repeat case_bool_decide; simpl;
    repeat split; apply Math_round_byte; lra.
Qed.

Lemma hot_valid (v : R) : (0 <= v <= 1)%R -> validColor (hot v).
Proof.
  intros Hv. unfold validColor, hot.
  repeat case_bool_decide; simpl;
    repeat split; apply Math_round_byte; lra.
Qed.

Lemma grayscale_valid (v : R) : (0 <= v <= 1)%R -> validColor (grayscale v).
Proof.
  intros Hv. unfold validColor, grayscale. simpl.
  repeat split; apply Math_round_byte; lra.
Qed.

Lemma cool_valid (v : R) : (0 <= v <= 1)%R -> validColor (cool v).
Proof.
  intros Hv. unfold validColor, cool. simpl.
  repeat split; try lia; apply Math_round_byte; lra.
Qed.

End colormaps.

(** X17.  Every scheme of the table maps every value between 0 and 1 to
    a colour whose three channels are integers between 0 and 255. *)
Theorem colorSchemes_valid (name : string)
    (f : R -> ColormapUtils.Rgb) (v : R) :
  ColormapUtils.colorSchemes !! name = Some f ->
  (0 <= v <= 1)%R ->
  validColor (f v).
Proof.
  intros Hf Hv.
  destruct (colorSchemes_lookup name f Hf) as [-> | [-> | [-> | [-> | ->]]]].
  - apply blueRed_valid, Hv.
  - apply viridis_valid, Hv.
  - apply hot_valid, Hv.
  - apply grayscale_valid, Hv.
  - apply cool_valid, Hv.
Qed.

Lemma colorSchemes_valid_witness :
  validColor (ColormapUtils.viridis (3 / 10)).
Proof.
  apply (colorSchemes_valid "viridis" ColormapUtils.viridis (3 / 10));
    [ reflexivity | lra ].
Defined.

(** X18.  The grayscale and the hot scheme never get darker as the value
    grows: for [v1 <= v2] no channel of the colour of [v1] exceeds that of
    [v2]; both run from black, (0, 0, 0), at 0 to white, (255, 255, 255),
    at 1. *)
Theorem heat_schemes_monotone (v1 v2 : R) :
  (v1 <= v2)%R ->
  notBrighter (ColormapUtils.grayscale v1) (ColormapUtils.grayscale v2)
  /\ notBrighter (ColormapUtils.hot v1) (ColormapUtils.hot v2)
  /\ ColormapUtils.grayscale 0 = ColormapUtils.mkRgb 0 0 0
  /\ ColormapUtils.grayscale 1 = ColormapUtils.mkRgb 255 255 255
  /\ ColormapUtils.hot 0 = ColormapUtils.mkRgb 0 0 0
  /\ ColormapUtils.hot 1 = ColormapUtils.mkRgb 255 255 255.
Proof.
  intros Hv. split; [ | split ].
  - unfold notBrighter, ColormapUtils.grayscale. simpl.
    repeat split; apply Math_round_monotone; lra.
  - unfold notBrighter, ColormapUtils.hot.
    repeat case_bool_decide; simpl;
      repeat split; apply Math_round_monotone; lra.
  - split; [ | split; [ | split ] ].
    + unfold ColormapUtils.grayscale. simpl.
      rewrite (Math_round_unique (255 * 0) 0) by lra. reflexivity.
    + unfold ColormapUtils.grayscale. simpl.
      rewrite (Math_round_unique (255 * 1) 255) by lra. reflexivity.
    + unfold ColormapUtils.hot.
      rewrite (bool_decide_eq_true_2 (0 < 33 / 100)%R) by lra.
      rewrite (Math_round_unique (255 * (0 / (33 / 100))) 0) by lra.
      rewrite (Math_round_integer 0). reflexivity.
    + unfold ColormapUtils.hot.
      rewrite (bool_decide_eq_false_2 (1 < 33 / 100)%R) by lra.
      rewrite (bool_decide_eq_false_2 (1 < 67 / 100)%R) by lra.
      rewrite (Math_round_unique (255 * ((1 - 67 / 100) / (33 / 100))) 255)
        by lra.
      rewrite (Math_round_integer 255). reflexivity.
Qed.

Lemma heat_schemes_monotone_witness :
  notBrighter (ColormapUtils.hot (3 / 10)) (ColormapUtils.hot (7 / 10)).
Proof.
  apply (heat_schemes_monotone (3 / 10) (7 / 10)). lra.
Defined.

(** X19.  The blue-red and the cool scheme run in opposite directions
    on two channels: as the value grows, red never decreases while blue
    (blue-red) or green (cool) never increases, and the blue of cool is
    always 255.  The green of blue-red never decreases up to the middle
    value 0.5, never increases after it, and never exceeds 128.  Blue-red
    is blue (0, 0, 255) at 0, the grey (128, 128, 128) at 0.5 and red
    (255, 0, 0) at 1; cool is cyan (0, 255, 255) at 0 and magenta
    (255, 0, 255) at 1. *)
Theorem diverging_schemes_opposed (v1 v2 : R) :
  (v1 <= v2)%R ->
  (ColormapUtils.red (ColormapUtils.blueRed v1)
   <= ColormapUtils.red (ColormapUtils.blueRed v2))%Z
  /\ (ColormapUtils.blue (ColormapUtils.blueRed v2)
      <= ColormapUtils.blue (ColormapUtils.blueRed v1))%Z
  /\ ((v2 <= 5 / 10)%R ->
      (ColormapUtils.green (ColormapUtils.blueRed v1)
       <= ColormapUtils.green (ColormapUtils.blueRed v2))%Z)
  /\ ((5 / 10 <= v1)%R ->
      (ColormapUtils.green (ColormapUtils.blueRed v2)
       <= ColormapUtils.green (ColormapUtils.blueRed v1))%Z)
  /\ (ColormapUtils.green (ColormapUtils.blueRed v1) <= 128)%Z
  /\ (ColormapUtils.red (ColormapUtils.cool v1)
      <= ColormapUtils.red (ColormapUtils.cool v2))%Z
  /\ (ColormapUtils.green (ColormapUtils.cool v2)
      <= ColormapUtils.green (ColormapUtils.cool v1))%Z
  /\ ColormapUtils.blue (ColormapUtils.cool v1) = 255%Z
  /\ ColormapUtils.blueRed 0 = ColormapUtils.mkRgb 0 0 255
  /\ ColormapUtils.blueRed (5 / 10) = ColormapUtils.mkRgb 128 128 128
  /\ ColormapUtils.blueRed 1 = ColormapUtils.mkRgb 255 0 0
  /\ ColormapUtils.cool 0 = ColormapUtils.mkRgb 0 255 255
  /\ ColormapUtils.cool 1 = ColormapUtils.mkRgb 255 0 255.
Proof.
  intros Hv. unfold ColormapUtils.blueRed, ColormapUtils.cool. simpl.
  split; [ apply Math_round_monotone; lra | ].
  split; [ apply Math_round_monotone; lra | ].
  split.
  { intros Hlow. apply Math_round_monotone.
    rewrite (Rabs_left1 (v1 - 5 / 10)), (Rabs_left1 (v2 - 5 / 10)) by lra.
    lra. }
  split.
  { intros Hhigh. apply Math_round_monotone.
    rewrite (Rabs_pos_eq (v1 - 5 / 10)), (Rabs_pos_eq (v2 - 5 / 10)) by lra.
    lra. }
  split.
  { rewrite <- (Math_round_integer 128) at 2. apply Math_round_monotone.
    pose proof (Rabs_pos (v1 - 5 / 10)). lra. }
  split; [ apply Math_round_monotone; lra | ].
  split; [ apply Math_round_monotone; lra | ].
  split; [ reflexivity | ].
  split.
  { rewrite (Rabs_left (0 - 5 / 10)) by lra.
    rewrite (Math_round_unique (255 * 0) 0) by lra.
    rewrite (Math_round_unique (255 * (1 - 0)) 255) by lra.
    rewrite (Math_round_unique _ 0) by lra.
    reflexivity. }
  split.
  { replace (5 / 10 - 5 / 10)%R with 0%R by lra. rewrite Rabs_R0.
    rewrite (Math_round_unique (255 * (5 / 10)) 128) by lra.
    rewrite (Math_round_unique (255 * (1 - 5 / 10)) 128) by lra.
    rewrite (Math_round_unique (128 * (1 - 0 * 2)) 128) by lra.
    reflexivity. }
  split.
  { rewrite (Rabs_right (1 - 5 / 10)) by lra.
    rewrite (Math_round_unique (255 * 1) 255) by lra.
    rewrite (Math_round_unique (255 * (1 - 1)) 0) by lra.
    rewrite (Math_round_unique _ 0) by lra.
    reflexivity. }
  split.
  { rewrite (Math_round_unique (255 * 0) 0) by lra.
    rewrite (Math_round_unique (255 * (1 - 0)) 255) by lra.
    reflexivity. }
  rewrite (Math_round_unique (255 * 1) 255) by lra.
  rewrite (Math_round_unique (255 * (1 - 1)) 0) by lra.
  reflexivity.
Qed.

Lemma diverging_schemes_opposed_witness :
  (ColormapUtils.red (ColormapUtils.blueRed (1 / 10))
   <= ColormapUtils.red (ColormapUtils.blueRed (9 / 10)))%Z
  /\ (ColormapUtils.blue (ColormapUtils.blueRed (9 / 10))
      <= ColormapUtils.blue (ColormapUtils.blueRed (1 / 10)))%Z.
Proof.
  destruct (diverging_schemes_opposed (1 / 10) (9 / 10)) as (Hr & Hb & _);
    [ lra | ].
  split; [ exact Hr | exact Hb ].
Defined.

(** ** Layout step *)

Section layout_loops.
Import MEAMovieCanvas.

(** The loop [if (v < a) a = v] over the first [k] readings, started
    from the first one, ends on the least of them. *)
Lemma fold_lowest (v : nat -> JS.jsnum) (r : nat -> R) (k : nat) :
  (forall i, (i < k)%nat \/ i = 0%nat -> v i = JS.Fin (r i)) ->
  exists m : R,
    fold_left (fun a i => if JS.js_lt (v i) a then v i else a) (seq 0 k) (v 0%nat)
    = JS.Fin m
    /\ (m <= r 0%nat)%R
    /\ (forall i, (i < k)%nat -> (m <= r i)%R)
    /\ (exists i, ((i < k)%nat \/ i = 0%nat) /\ r i = m).
Proof.
  intros Hv. induction k as [ | k IH].
  - exists (r 0%nat). simpl. split; [ apply Hv; auto | ].
    split; [ lra | ]. split; [ intros i Hi; lia | ].
    exists 0%nat. auto.
  - destruct IH as (m & Hm & H0 & Hall & (j & Hj & Hjm)).
    { intros i Hi. apply Hv. destruct Hi; [ left; lia | auto ]. }
    rewrite seq_S, fold_left_app, Hm. simpl.
    rewrite (Hv k) by (left; lia). simpl.
    case_bool_decide as Hlt.
    + exists (r k). split; [ reflexivity | ]. split; [ lra | ]. split.
      * intros i Hi. destruct (decide (i = k)) as [-> | Hne]; [ lra | ].
        assert (m <= r i)%R by (apply Hall; lia). lra.
      * exists k. split; [ left; lia | reflexivity ].
    + exists m. split; [ reflexivity | ]. split; [ exact H0 | ]. split.
      * intros i Hi. destruct (decide (i = k)) as [-> | Hne]; [ lra | ].
        apply Hall. lia.
      * exists j. split; [ destruct Hj; [ left; lia | auto ] | exact Hjm ].
Qed.

(** The loop [if (v > a) a = v] ends on the greatest. *)
Lemma fold_highest (v : nat -> JS.jsnum) (r : nat -> R) (k : nat) :
  (forall i, (i < k)%nat \/ i = 0%nat -> v i = JS.Fin (r i)) ->
  exists m : R,
    fold_left (fun a i => if JS.js_gt (v i) a then v i else a) (seq 0 k) (v 0%nat)
    = JS.Fin m
    /\ (r 0%nat <= m)%R
    /\ (forall i, (i < k)%nat -> (r i <= m)%R)
    /\ (exists i, ((i < k)%nat \/ i = 0%nat) /\ r i = m).
Proof.
  intros Hv. induction k as [ | k IH].
  - exists (r 0%nat). simpl. split; [ apply Hv; auto | ].
    split; [ lra | ]. split; [ intros i Hi; lia | ].
    exists 0%nat. auto.
  - destruct IH as (m & Hm & H0 & Hall & (j & Hj & Hjm)).
    { intros i Hi. apply Hv. destruct Hi; [ left; lia | auto ]. }
    rewrite seq_S, fold_left_app, Hm. simpl.
    rewrite (Hv k) by (left; lia). unfold JS.js_gt. simpl.
    case_bool_decide as Hlt.
    + exists (r k). split; [ reflexivity | ]. split; [ lra | ]. split.
      * intros i Hi. destruct (decide (i = k)) as [-> | Hne]; [ lra | ].
        assert (r i <= m)%R by (apply Hall; lia). lra.
      * exists k. split; [ left; lia | reflexivity ].
    + exists m. split; [ reflexivity | ]. split; [ exact H0 | ]. split.
      * intros i Hi. destruct (decide (i = k)) as [-> | Hne]; [ lra | ].
        apply Hall. lia.
      * exists j. split; [ destruct Hj; [ left; lia | auto ] | exact Hjm ].
Qed.

(** The four sides of the box are widened independently. *)
Lemma fold_widen (coords : list R) (l : list nat) (b : Box) :
  fold_left (widen coords) l b
  = mkBox
      (fold_left (fun a i => if JS.js_lt (coord coords (i * 2)) a
                             then coord coords (i * 2) else a) l (minX b))
      (fold_left (fun a i => if JS.js_gt (coord coords (i * 2)) a
                             then coord coords (i * 2) else a) l (maxX b))
      (fold_left (fun a i => if JS.js_lt (coord coords (i * 2 + 1)) a
                             then coord coords (i * 2 + 1) else a) l (minY b))
      (fold_left (fun a i => if JS.js_gt (coord coords (i * 2 + 1)) a
                             then coord coords (i * 2 + 1) else a) l (maxY b)).
Proof.
  revert b. induction l as [ | i l IH]; intros b; simpl.
  - destruct b; reflexivity.
  - rewrite IH. reflexivity.
Qed.

Lemma electrodeCount_even (coords : list R) (n : nat) :
  length coords = (2 * n)%nat -> electrodeCount coords = n.
Proof.
  intros H. unfold electrodeCount. rewrite H.
  replace (2 * n + 1)%nat with (1 + n * 2)%nat by lia.
  rewrite Nat.div_add by lia. reflexivity.
Qed.

Lemma coord_read (coords : list R) (k : nat) :
  (k < length coords)%nat -> coord coords k = JS.Fin (nth k coords 0%R).
Proof.
  intros Hk. unfold coord, JS.read.
  destruct (lookup_lt_is_Some_2 coords k Hk) as [x Hx].
  rewrite Hx. simpl. f_equal. rewrite nth_lookup, Hx. reflexivity.
Qed.

Lemma electrodeAt_nth (coords : list R) (i : nat) (x y : R) :
  electrodeAt coords i x y ->
  (i * 2 + 1 < length coords)%nat
  /\ nth (i * 2) coords 0%R = x /\ nth (i * 2 + 1) coords 0%R = y.
Proof.
  intros [Hx Hy]. split.
  - apply lookup_lt_is_Some. eauto.
  - rewrite !nth_lookup, Hx, Hy. split; reflexivity.
Qed.

(** The bounding box of a layout of [n >= 1] complete electrodes: four
    finite sides that enclose every electrode and are each touched by
    one. *)
Lemma boundingBox_encloses (coords : list R) (n : nat) :
  length coords = (2 * n)%nat -> (1 <= n)%nat ->
  exists x0 x1 y0 y1 : R,
    boundingBox coords = mkBox (JS.Fin x0) (JS.Fin x1) (JS.Fin y0) (JS.Fin y1)
    /\ (forall i x y, electrodeAt coords i x y ->
          (x0 <= x <= x1)%R /\ (y0 <= y <= y1)%R)
    /\ (exists i y, electrodeAt coords i x0 y)
    /\ (exists i y, electrodeAt coords i x1 y)
    /\ (exists i x, electrodeAt coords i x y0)
    /\ (exists i x, electrodeAt coords i x y1).
Proof.
  intros Hlen Hn. unfold boundingBox.
  rewrite (electrodeCount_even coords n Hlen), fold_widen. simpl.
  assert (forall i, (i < n)%nat \/ i = 0%nat ->
            coord coords (i * 2) = JS.Fin (nth (i * 2) coords 0%R)) as Hxs.
  { intros i Hi. apply coord_read. lia. }
  assert (forall i, (i < n)%nat \/ i = 0%nat ->
            coord coords (i * 2 + 1) = JS.Fin (nth (i * 2 + 1) coords 0%R))
    as Hys.
  { intros i Hi. apply coord_read. lia. }
  assert (forall i, (i < n)%nat \/ i = 0%nat ->
            exists x y, electrodeAt coords i x y
                        /\ nth (i * 2) coords 0%R = x
                        /\ nth (i * 2 + 1) coords 0%R = y) as Hat.
  { intros i Hi. unfold electrodeAt.
    destruct (lookup_lt_is_Some_2 coords (i * 2)) as [x Hx]; [ lia | ].
    destruct (lookup_lt_is_Some_2 coords (i * 2 + 1)) as [y Hy]; [ lia | ].
    exists x, y. rewrite !nth_lookup, Hx, Hy. auto. }
  destruct (fold_lowest (fun i => coord coords (i * 2))
              (fun i => nth (i * 2) coords 0%R) n Hxs)
    as (x0 & Hx0 & _ & Hx0le & (ix0 & Hix0 & Hx0at)).
  destruct (fold_highest (fun i => coord coords (i * 2))
              (fun i => nth (i * 2) coords 0%R) n Hxs)
    as (x1 & Hx1 & _ & Hx1ge & (ix1 & Hix1 & Hx1at)).
  destruct (fold_lowest (fun i => coord coords (i * 2 + 1))
              (fun i => nth (i * 2 + 1) coords 0%R) n Hys)
    as (y0 & Hy0 & _ & Hy0le & (iy0 & Hiy0 & Hy0at)).
  destruct (fold_highest (fun i => coord coords (i * 2 + 1))
              (fun i => nth (i * 2 + 1) coords 0%R) n Hys)
    as (y1 & Hy1 & _ & Hy1ge & (iy1 & Hiy1 & Hy1at)).
  simpl in Hx0, Hx1, Hy0, Hy1.
  exists x0, x1, y0, y1. rewrite Hx0, Hx1, Hy0, Hy1.
  split; [ reflexivity | ]. split.
  { intros i x y Hi.
    destruct (electrodeAt_nth coords i x y Hi) as (Hlt & <- & <-).
    assert (i < n)%nat as Hin by lia.
    pose proof (Hx0le i Hin). pose proof (Hx1ge i Hin).
    pose proof (Hy0le i Hin). pose proof (Hy1ge i Hin). lra. }
  split; [ | split; [ | split ] ].
  - destruct (Hat ix0 Hix0) as (x & y & Hxy & Hx & _).
    exists ix0, y. rewrite <- Hx0at, Hx. exact Hxy.
  - destruct (Hat ix1 Hix1) as (x & y & Hxy & Hx & _).
    exists ix1, y. rewrite <- Hx1at, Hx. exact Hxy.
  - destruct (Hat iy0 Hiy0) as (x & y & Hxy & _ & Hy).
    exists iy0, x. rewrite <- Hy0at, Hy. exact Hxy.
  - destruct (Hat iy1 Hiy1) as (x & y & Hxy & _ & Hy).
    exists iy1, x. rewrite <- Hy1at, Hy. exact Hxy.
Qed.

End layout_loops.

Section layout_values.
Import MEAMovieCanvas.

Lemma js_div_Fin (a b : R) :
  b <> 0%R -> JS.js_div (JS.Fin a) (JS.Fin b) = JS.Fin (a / b).
Proof. intros Hb. simpl. rewrite bool_decide_eq_false_2 by exact Hb. reflexivity. Qed.

Lemma js_div_zero (a b : R) :
  b = 0%R -> (0 < a)%R -> JS.js_div (JS.Fin a) (JS.Fin b) = JS.PInf.
Proof.
  intros Hb Ha. simpl. rewrite bool_decide_eq_true_2 by exact Hb.
  rewrite sign_of_pos by exact Ha. reflexivity.
Qed.

Lemma Math_min_Fin (a b : R) :
  JS.Math_min (JS.Fin a) (JS.Fin b) = JS.Fin (Rmin a b).
Proof.
  simpl. case_bool_decide; f_equal.
  - rewrite Rmin_right by lra. reflexivity.
  - rewrite Rmin_left by lra. reflexivity.
Qed.

Lemma Math_max_Fin (a b : R) :
  JS.Math_max (JS.Fin a) (JS.Fin b) = JS.Fin (Rmax a b).
Proof.
  simpl. case_bool_decide; f_equal.
  - rewrite Rmax_right by lra. reflexivity.
  - rewrite Rmax_left by lra. reflexivity.
Qed.

(** The scale of a layout whose box has the sides [x0 <= x1] and [y0 <=
    y1], not both degenerate, on a canvas larger than the padding: the
    smaller of the two ratios, an infinite ratio not counting. *)
Lemma layout_scale (width height x0 x1 y0 y1 : R) :
  (x0 <= x1)%R -> (y0 <= y1)%R -> (x0 < x1 \/ y0 < y1)%R ->
  (60 < width)%R -> (60 < height)%R ->
  exists s : R,
    JS.Math_max (JS.Fin 0)
      (JS.Math_min
         (JS.js_div (JS.Fin (width - 2 * padding)) (JS.Fin (x1 + - x0)))
         (JS.js_div (JS.Fin (height - 2 * padding)) (JS.Fin (y1 + - y0))))
    = JS.Fin s
    /\ (0 < s)%R
    /\ ((x1 - x0) * s <= width - 60)%R
    /\ ((y1 - y0) * s <= height - 60)%R
    /\ ((x0 < x1)%R -> (y0 < y1)%R ->
        s = Rmin ((width - 2 * 30) / (x1 - x0))
              ((height - 2 * 30) / (y1 - y0)))
    /\ (x0 = x1 -> s = ((height - 2 * 30) / (y1 - y0))%R)
    /\ (y0 = y1 -> s = ((width - 2 * 30) / (x1 - x0))%R).
Proof.
  intros Hx Hy Hnot Hw Hh. unfold padding.
  destruct (Req_dec (x1 + - x0) 0) as [Hdx | Hdx];
    destruct (Req_dec (y1 + - y0) 0) as [Hdy | Hdy].
  - exfalso. lra.
  - rewrite (js_div_zero _ _ Hdx) by lra. rewrite (js_div_Fin _ _ Hdy).
    assert (0 < (height - 2 * 30) / (y1 + - y0))%R as Hs
      by (apply Rdiv_lt_0_compat; lra).
    exists ((height - 2 * 30) / (y1 + - y0))%R. split.
    + simpl. rewrite bool_decide_eq_true_2 by exact Hs. reflexivity.
    + split; [ exact Hs | ].
      assert ((y1 - y0) * ((height - 2 * 30) / (y1 + - y0)) = height - 60)%R
        by (field; lra).
      replace (x1 - x0)%R with 0%R by lra.
      split; [ lra | ]. split; [ lra | ].
      split; [ intros; exfalso; lra | ].
      split; [ reflexivity | intros; exfalso; lra ].
  - rewrite (js_div_zero _ _ Hdy) by lra. rewrite (js_div_Fin _ _ Hdx).
    assert (0 < (width - 2 * 30) / (x1 + - x0))%R as Hs
      by (apply Rdiv_lt_0_compat; lra).
    exists ((width - 2 * 30) / (x1 + - x0))%R. split.
    + simpl. rewrite bool_decide_eq_true_2 by exact Hs. reflexivity.
    + split; [ exact Hs | ].
      assert ((x1 - x0) * ((width - 2 * 30) / (x1 + - x0)) = width - 60)%R
        by (field; lra).
      replace (y1 - y0)%R with 0%R by lra.
      split; [ lra | ]. split; [ lra | ].
      split; [ intros; exfalso; lra | ].
      split; [ intros; exfalso; lra | reflexivity ].
  - rewrite (js_div_Fin _ _ Hdx), (js_div_Fin _ _ Hdy).
    rewrite Math_min_Fin, Math_max_Fin.
    set (sx := ((width - 2 * 30) / (x1 + - x0))%R).
    set (sy := ((height - 2 * 30) / (y1 + - y0))%R).
    assert (0 < sx)%R as Hsx by (apply Rdiv_lt_0_compat; lra).
    assert (0 < sy)%R as Hsy by (apply Rdiv_lt_0_compat; lra).
    assert ((x1 - x0) * sx = width - 60)%R as Hex
      by (unfold sx; field; lra).
    assert ((y1 - y0) * sy = height - 60)%R as Hey
      by (unfold sy; field; lra).
    exists (Rmin sx sy). split.
    + rewrite Rmax_right; [ reflexivity | ].
      apply Rmin_glb; lra.
    + split; [ apply Rmin_glb_lt; assumption | ].
      assert ((x1 - x0) * Rmin sx sy <= width - 60
              /\ (y1 - y0) * Rmin sx sy <= height - 60)%R as [Hfx Hfy].
      { destruct (Rle_dec sx sy) as [Hle | Hgt].
        - rewrite Rmin_left by exact Hle. split; [ lra | nra ].
        - rewrite Rmin_right by lra. split; [ nra | lra ]. }
      split; [ exact Hfx | ]. split; [ exact Hfy | ].
      split; [ reflexivity | ].
      split; intros; exfalso; lra.
Qed.

End layout_values.

Section layout_fit.
Import MEAMovieCanvas.

Lemma coord_electrodeAt (coords : list R) (i : nat) (x y : R) :
  electrodeAt coords i x y ->
  coord coords (i * 2) = JS.Fin x /\ coord coords (i * 2 + 1) = JS.Fin y.
Proof.
  intros [Hx Hy]. unfold coord, JS.read. rewrite Hx, Hy. split; reflexivity.
Qed.

(** The layout over a box with finite sides and a finite scale. *)
Lemma layout_finite (width height : R) (coords : list R)
    (x0 x1 y0 y1 s : R) :
  boundingBox coords = mkBox (JS.Fin x0) (JS.Fin x1) (JS.Fin y0) (JS.Fin y1) ->
  JS.Math_max (JS.Fin 0)
    (JS.Math_min
       (JS.js_div (JS.Fin (width - 2 * padding)) (JS.Fin (x1 + - x0)))
       (JS.js_div (JS.Fin (height - 2 * padding)) (JS.Fin (y1 + - y0))))
  = JS.Fin s ->
  layout width height coords
  = mkLayout (JS.Fin s)
      (JS.Fin ((width + - ((x1 + - x0) * s)) / 2 + - (x0 * s)))
      (JS.Fin ((height + - ((y1 + - y0) * s)) / 2 + - (y0 * s))).
Proof.
  intros Hbox Hs. unfold layout. cbv zeta. rewrite Hbox.
  cbn [minX maxX minY maxY JS.js_sub JS.js_neg JS.js_add].
  rewrite Hs.
  cbn [JS.js_mul JS.js_neg JS.js_add].
  rewrite !js_div_Fin by lra.
  reflexivity.
Qed.

(** X20.  Fitting the electrodes to the canvas (render effect, bounding
    box, scale and offsets).  For a layout of complete electrodes that
    are not all at one position, on a canvas wider and higher than twice
    the padding of 30: the sides [x0 <= x1] and [y0 <= y1] of the box are
    the least and the greatest coordinates of the electrodes; the scale
    is the smaller of [(width - 60) / (x1 - x0)] and [(height - 60) /
    (y1 - y0)], the ratio of a side of length 0 being infinite and not
    counting, and is positive; the offsets are [(width - (x1 - x0) *
    scale) / 2 - x0 * scale] and likewise for [y]; and the centre of every
    marker, [(x * scale + offsetX, y * scale + offsetY)], lies on the
    canvas. *)
Theorem layout_fits (width height : R) (coords : list R) (n : nat) :
  length coords = (2 * n)%nat ->
  (60 < width)%R -> (60 < height)%R ->
  (exists i j xi yi xj yj,
      electrodeAt coords i xi yi /\ electrodeAt coords j xj yj
      /\ (xi <> xj \/ yi <> yj)) ->
  exists x0 x1 y0 y1 s : R,
    (forall i x y, electrodeAt coords i x y ->
       (x0 <= x <= x1)%R /\ (y0 <= y <= y1)%R)
    /\ (exists i y, electrodeAt coords i x0 y)
    /\ (exists i y, electrodeAt coords i x1 y)
    /\ (exists i x, electrodeAt coords i x y0)
    /\ (exists i x, electrodeAt coords i x y1)
    /\ layout width height coords
       = mkLayout (JS.Fin s)
           (JS.Fin ((width - (x1 - x0) * s) / 2 - x0 * s))
           (JS.Fin ((height - (y1 - y0) * s) / 2 - y0 * s))
    /\ ((x0 < x1)%R -> (y0 < y1)%R ->
        s = Rmin ((width - 2 * 30) / (x1 - x0))
              ((height - 2 * 30) / (y1 - y0)))
    /\ (x0 = x1 -> s = ((height - 2 * 30) / (y1 - y0))%R)
    /\ (y0 = y1 -> s = ((width - 2 * 30) / (x1 - x0))%R)
    /\ (0 < s)%R
    /\ (forall i x y, electrodeAt coords i x y ->
          drawnX (layout width height coords) coords i
          = JS.Fin (x * s + ((width - (x1 - x0) * s) / 2 - x0 * s))
          /\ drawnY (layout width height coords) coords i
             = JS.Fin (y * s + ((height - (y1 - y0) * s) / 2 - y0 * s))
          /\ (0 < x * s + ((width - (x1 - x0) * s) / 2 - x0 * s)
              < width)%R
          /\ (0 < y * s + ((height - (y1 - y0) * s) / 2 - y0 * s)
              < height)%R).
Proof.
  intros Hlen Hw Hh (i & j & xi & yi & xj & yj & Hi & Hj & Hne).
  assert (1 <= n)%nat as Hn.
  { destruct (electrodeAt_nth _ _ _ _ Hi) as [Hlt _]. lia. }
  destruct (boundingBox_encloses coords n Hlen Hn)
    as (x0 & x1 & y0 & y1 & Hbox & Hin & Ha & Hb & Hc & Hd).
  pose proof (Hin _ _ _ Hi) as [Hix Hiy].
  pose proof (Hin _ _ _ Hj) as [Hjx Hjy].
  assert (x0 < x1 \/ y0 < y1)%R as Hnot.
  { destruct Hne as [Hne | Hne].
    - left. destruct (Rle_lt_dec x1 x0); [ exfalso; apply Hne; lra | lra ].
    - right. destruct (Rle_lt_dec y1 y0); [ exfalso; apply Hne; lra | lra ]. }
  destruct (layout_scale width height x0 x1 y0 y1) as
    (s & Hs & Hpos & Hsx & Hsy & Hboth & Hcol & Hrow); try lra.
  pose proof (layout_finite width height coords x0 x1 y0 y1 s Hbox Hs) as Hl.
  exists x0, x1, y0, y1, s.
  split; [ exact Hin | ]. split; [ exact Ha | ]. split; [ exact Hb | ].
  split; [ exact Hc | ]. split; [ exact Hd | ].
  split; [ exact Hl | ]. split; [ exact Hboth | ].
  split; [ exact Hcol | ]. split; [ exact Hrow | ].
  split; [ exact Hpos | ].
  intros k x y Hk. rewrite Hl. unfold drawnX, drawnY.
  cbn [scale offsetX offsetY].
  destruct (coord_electrodeAt _ _ _ _ Hk) as [-> ->].
  cbn [JS.js_mul JS.js_add].
  split; [ reflexivity | ]. split; [ reflexivity | ].
  destruct (Hin _ _ _ Hk) as [Hkx Hky].
  split; split; nra.
Qed.

(** A column of four electrodes on a canvas of 400 by 300: the box has
    no width, the scale is the ratio of the heights, and the first marker
    is on the canvas. *)
Lemma layout_fits_witness :
  exists x0 x1 y0 y1 s : R,
    (exists i y, electrodeAt Scenario.column i x0 y)
    /\ (exists i y, electrodeAt Scenario.column i x1 y)
    /\ (exists i x, electrodeAt Scenario.column i x y0)
    /\ (exists i x, electrodeAt Scenario.column i x y1)
    /\ layout 400 300 Scenario.column
       = mkLayout (JS.Fin s)
           (JS.Fin ((400 - (x1 - x0) * s) / 2 - x0 * s))
           (JS.Fin ((300 - (y1 - y0) * s) / 2 - y0 * s))
    /\ (x0 = x1 -> s = ((300 - 2 * 30) / (y1 - y0))%R)
    /\ (0 < 0 * s + ((300 - (y1 - y0) * s) / 2 - y0 * s) < 300)%R.
Proof.
  destruct (layout_fits 400 300 Scenario.column 4)
    as (x0 & x1 & y0 & y1 & s & _ & Ha & Hb & Hc & Hd & Hl & _ & Hcol & _
        & _ & Hon).
  - reflexivity.
  - lra.
  - lra.
  - exists 0%nat, 1%nat, 5%R, 0%R, 5%R, 10%R.
    split; [ split; reflexivity | ].
    split; [ split; reflexivity | ].
    right. lra.
  - exists x0, x1, y0, y1, s.
    split; [ exact Ha | ]. split; [ exact Hb | ]. split; [ exact Hc | ].
    split; [ exact Hd | ]. split; [ exact Hl | ]. split; [ exact Hcol | ].
    destruct (Hon 0%nat 5%R 0%R) as (_ & _ & _ & Hy).
    + split; reflexivity.
    + exact Hy.
Defined.

(** Electrodes that all share one position are no positive distance
    apart, so the least distance is the default 10 and the radius 4.75. *)
Lemma single_position_radius (coords : list R) (n : nat) (x0 y0 : R) :
  length coords = (2 * n)%nat ->
  (forall i x y, electrodeAt coords i x y -> x = x0 /\ y = y0) ->
  electrodeRadius coords = JS.Fin (475 / 100).
Proof.
  intros Hlen Hall.
  destruct (calculateMinElectrodeDistance_least coords)
    as (m & Hm & Hpos & Hattained & _).
  rewrite (electrodeCount_even coords n Hlen) in Hattained.
  rewrite (electrodeRadius_value coords m Hm). f_equal.
  destruct Hattained as [(i & j & Hij & Hd) | [-> _]]; [ exfalso | lra ].
  destruct (lookup_lt_is_Some_2 coords (i * 2)) as [x1 Hx1]; [ lia | ].
  destruct (lookup_lt_is_Some_2 coords (i * 2 + 1)) as [y1 Hy1]; [ lia | ].
  destruct (lookup_lt_is_Some_2 coords (j * 2)) as [x2 Hx2]; [ lia | ].
  destruct (lookup_lt_is_Some_2 coords (j * 2 + 1)) as [y2 Hy2]; [ lia | ].
  rewrite (electrodeDistance_read coords i j x1 y1 x2 y2 Hx1 Hy1 Hx2 Hy2)
    in Hd.
  destruct (Hall i x1 y1 (conj Hx1 Hy1)) as [-> ->].
  destruct (Hall j x2 y2 (conj Hx2 Hy2)) as [-> ->].
  injection Hd as Hd.
  assert (m = 0)%R as Hzero
    by (rewrite <- Hd; transitivity (sqrt 0); [ f_equal; ring | apply sqrt_0 ]).
  lra.
Qed.

(** X21.  Electrodes that all share one position (a single electrode in
    particular): both sides of the bounding box are 0, both ratios are
    [Infinity], so the scale is [Infinity], the offsets are [NaN], the
    centre of every marker is [(NaN, NaN)], and the marker radius (4.75
    times the scale) and the ring width are [Infinity]. *)
Theorem layout_single_position (width height : R) (coords : list R)
    (n : nat) (x0 y0 : R) :
  length coords = (2 * n)%nat -> (1 <= n)%nat ->
  (60 < width)%R -> (60 < height)%R ->
  (forall i x y, electrodeAt coords i x y -> x = x0 /\ y = y0) ->
  layout width height coords = mkLayout JS.PInf JS.NaN JS.NaN
  /\ (forall i,
        drawnX (layout width height coords) coords i = JS.NaN
        /\ drawnY (layout width height coords) coords i = JS.NaN)
  /\ electrodeRadius coords = JS.Fin (475 / 100)
  /\ drawnRadius (layout width height coords) (electrodeRadius coords)
     = JS.PInf
  /\ ringLineWidth (layout width height coords) (electrodeRadius coords)
     = JS.PInf.
Proof.
  intros Hlen Hn Hw Hh Hall.
  pose proof (single_position_radius coords n x0 y0 Hlen Hall) as Hrad.
  destruct (boundingBox_encloses coords n Hlen Hn)
    as (a & b & c & d & Hbox & _
        & (ia & ya & Ha) & (ib & yb & Hb) & (ic & xc & Hc) & (id & xd & Hd)).
  destruct (Hall _ _ _ Ha) as [-> _]. destruct (Hall _ _ _ Hb) as [-> _].
  destruct (Hall _ _ _ Hc) as [_ ->]. destruct (Hall _ _ _ Hd) as [_ ->].
  assert (layout width height coords = mkLayout JS.PInf JS.NaN JS.NaN) as Hl.
  { unfold layout. cbv zeta. rewrite Hbox.
    cbn [minX maxX minY maxY JS.js_sub JS.js_neg JS.js_add].
    unfold padding.
    replace (x0 + - x0)%R with 0%R by lra.
    replace (y0 + - y0)%R with 0%R by lra.
    rewrite !js_div_zero by lra.
    cbn [JS.Math_min JS.Math_max JS.js_lt].
    cbn [JS.js_mul JS.jsign].
    rewrite sign_of_zero.
    reflexivity. }
  split; [ exact Hl | ].
  rewrite Hl, Hrad. unfold drawnX, drawnY, drawnRadius, ringLineWidth.
  cbn [scale offsetX offsetY].
  assert (JS.js_mul (JS.Fin (475 / 100)) JS.PInf = JS.PInf) as Hinf.
  { cbn [JS.js_mul JS.jsign]. rewrite sign_of_pos by lra. reflexivity. }
  split; [ | split; [ reflexivity | split; [ exact Hinf | ] ] ].
  - intros i. split.
    + destruct (JS.js_mul (coord coords (i * 2)) JS.PInf); reflexivity.
    + destruct (JS.js_mul (coord coords (i * 2 + 1)) JS.PInf); reflexivity.
  - rewrite Hinf. cbn [JS.js_mul JS.jsign].
    rewrite sign_of_pos by lra. reflexivity.
Qed.

Lemma layout_single_position_witness :
  layout 400 300 [7; 9]%R = mkLayout JS.PInf JS.NaN JS.NaN
  /\ (forall i,
        drawnX (layout 400 300 [7; 9]%R) [7; 9]%R i = JS.NaN
        /\ drawnY (layout 400 300 [7; 9]%R) [7; 9]%R i = JS.NaN)
  /\ electrodeRadius [7; 9]%R = JS.Fin (475 / 100)
  /\ drawnRadius (layout 400 300 [7; 9]%R) (electrodeRadius [7; 9]%R)
     = JS.PInf
  /\ ringLineWidth (layout 400 300 [7; 9]%R) (electrodeRadius [7; 9]%R)
     = JS.PInf.
Proof.
  apply (layout_single_position 400 300 [7; 9]%R 1 7 9).
  - reflexivity.
  - lia.
  - lra.
  - lra.
  - intros i x y [Hx Hy]. destruct i as [ | i].
    + simpl in Hx, Hy. inversion Hx. inversion Hy. split; reflexivity.
    + destruct i; discriminate Hx.
Defined.

End layout_fit.
